(** * A shallow embedding of the workshop notebook
      [DSC_Workshop_Neural_Nets_tim.ipynb]

    The notebook wires PyTorch components into a data pipeline, a small
    fully connected classifier, a training pass, an evaluation pass and an
    epoch loop.  The notebook's own functions ([NeuralNetwork.forward] in
    its two versions, [train], [test], the transformation lists, the two
    data loaders and the epoch loop) are embedded statement by statement.
    The framework operations they call are not part of the notebook; each
    one is given a small executable model, and the ones whose result cannot
    be computed over the rationals (image resampling, random numbers,
    automatic differentiation, the cross-entropy) are the fields of the
    class [Framework], over which everything is stated.

    Numbers: Python floats and tensor entries are embedded as exact
    rationals [Q]; rounding and non-finite values are outside the model. *)

From Stdlib Require Import List Arith ZArith QArith Lia Lqa Bool Permutation.
From Stdlib Require String.
Import String.StringSyntax.
Import ListNotations.
Close Scope Q_scope.

Set Implicit Arguments.

(* ================================================================= *)
(** ** Python results *)

Module Py.

(** The exceptions the modelled code can end in. *)
Inductive exn : Set :=
| ZeroDivisionError
| RuntimeError
| IndexError
| TypeError
| ValueError.

(** A computation either returns a value or raises. *)
Inductive result (A : Type) : Type :=
| Ok (a : A)
| Raise (e : exn).
Arguments Ok {A} a.
Arguments Raise {A} e.

Definition bind {A B : Type} (r : result A) (k : A -> result B) : result B :=
  match r with
  | Ok a => k a
  | Raise e => Raise e
  end.

(** Python's true division [a / b]: raises on a zero divisor. *)
Definition truediv (a b : Q) : result Q :=
  if Qeq_bool b 0 then Raise ZeroDivisionError else Ok (a / b)%Q.

(** Python's two-argument [max(a, b)]: the first argument is kept unless
    the second is strictly greater. *)
Definition max (a b : Q) : Q :=
  if Qle_bool b a then a else b.

End Py.
Import Py.

Declare Scope result_scope.
Delimit Scope result_scope with result.
Notation "x <- c ;; k" := (Py.bind c (fun x => k))
  (at level 100, c at next level, right associativity) : result_scope.

(* ================================================================= *)
(** ** Tensors and the framework operations used by the model *)

Module Torch.

(** A dense tensor: its shape and its entries in row-major order. *)
Record tensor : Type := Tensor { shape : list nat; data : list Q }.

Definition numel (s : list nat) : nat := fold_right Nat.mul 1 s.

(** The [i]-th block of [m] consecutive entries. *)
Definition row (m i : nat) (d : list Q) : list Q :=
  firstn m (skipn (i * m) d).

(** Modelled from the spec: [torch.flatten(x, start_dim)] and
    [nn.Flatten()] (which is [start_dim = 1]) of the framework, "flatten
    spatial/channel dimensions into one vector per sample".  The leading
    [start_dim] dimensions are kept, the remaining ones are merged; the
    entries are untouched.  A tensor with too few dimensions is refused,
    a scalar flattened from dimension 0 becomes a one-entry vector. *)
Definition flatten (start_dim : nat) (x : tensor) : result tensor :=
  match shape x with
  | [] => if start_dim =? 0 then Ok (Tensor [1] (data x)) else Raise IndexError
  | _ :: _ =>
      if start_dim <? length (shape x)
      then Ok (Tensor (firstn start_dim (shape x)
                         ++ [numel (skipn start_dim (shape x))]) (data x))
      else Raise IndexError
  end.

(** A trainable tensor with its gradient buffer ([None] until the first
    backward pass). *)
Record Param : Type := { value : tensor; grad : option tensor }.

(** [nn.Linear(in_features, out_features)]: weight of shape
    [out_features x in_features], bias of shape [out_features]. *)
Record Linear : Type := {
  in_features : nat;
  out_features : nat;
  weight : Param;
  bias : Param
}.

Definition dot (u v : list Q) : Q :=
  fold_right Qplus 0%Q (map (fun uv => (fst uv * snd uv)%Q) (combine u v)).

(** Modelled from the spec: the "linear transform" of one input vector,
    [W x + b], entry [j] being the inner product of row [j] of the weight
    with the input, plus entry [j] of the bias. *)
Definition affine (l : Linear) (x : list Q) : list Q :=
  map (fun j => (dot (row (in_features l) j (data (value (weight l)))) x
                 + nth j (data (value (bias l))) 0)%Q)
      (seq 0 (out_features l)).

(** Modelled from the spec: [nn.Linear.forward] of the framework.  The
    transform is applied along the last dimension, which has to be
    [in_features]; every leading dimension is kept. *)
Definition Linear_forward (l : Linear) (x : tensor) : result tensor :=
  match rev (shape x) with
  | [] => Raise RuntimeError
  | d :: pre =>
      if d =? in_features l
      then Ok (Tensor (rev pre ++ [out_features l])
                 (flat_map (fun i => affine l (row (in_features l) i (data x)))
                    (seq 0 (numel pre))))
      else Raise RuntimeError
  end.

(** Modelled from the spec: the "rectifying nonlinearity (negative values
    clamped to zero)", [nn.ReLU] of the framework. *)
Definition relu (q : Q) : Q := if Qle_bool 0 q then q else 0%Q.

Definition ReLU_forward (x : tensor) : result tensor :=
  Ok (Tensor (shape x) (map relu (data x))).

(** [nn.Sequential]: the modules are applied one after the other. *)
Definition Sequential (ms : list (tensor -> result tensor)) (x : tensor)
  : result tensor :=
  fold_left (fun acc m => Py.bind acc m) ms (Ok x).

(** Index of the first largest entry ([0] for an empty list). *)
Fixpoint argmax_from (best : Q) (ibest i : nat) (l : list Q) : nat :=
  match l with
  | [] => ibest
  | q :: l' =>
      if Qle_bool q best then argmax_from best ibest (S i) l'
      else argmax_from q i (S i) l'
  end.

Definition argmax_list (l : list Q) : nat :=
  match l with
  | [] => 0
  | q :: l' => argmax_from q 0 1 l'
  end.

(** Modelled from the spec: [preds.argmax(1)] of the framework, the
    "highest-scoring class" of every row of a score matrix.  Only a
    two-dimensional tensor with at least one column has such a
    reduction. *)
Definition argmax1 (preds : tensor) : result (list nat) :=
  match shape preds with
  | [n; c] =>
      if c =? 0 then Raise IndexError
      else Ok (map (fun i => argmax_list (row c i (data preds))) (seq 0 n))
  | _ => Raise IndexError
  end.

(** [x.unsqueeze(0)]: a leading dimension of size one. *)
Definition unsqueeze0 (x : tensor) : tensor := Tensor (1 :: shape x) (data x).

End Torch.
Import Torch.

(* ================================================================= *)
(** ** The model: the two [NeuralNetwork] classes

    Cells are numbered from 0 over all cells of the notebook; a module
    [CellN] holds what cell [N] defines. *)

(** Both classes have the same constructor: a flatten module, the
    sequential [linear_relu_stack] (linear, ReLU, linear, ReLU) and the
    sequential [last_layer] (one linear module).  [training] is the mode
    flag set by [model.train()] and [model.eval()]. *)
Record NeuralNetwork : Type := {
  stack_0 : Linear;
  stack_2 : Linear;
  last_0 : Linear;
  training : bool
}.

Definition linear_relu_stack (self : NeuralNetwork) : tensor -> result tensor :=
  Sequential [Linear_forward (stack_0 self); ReLU_forward;
              Linear_forward (stack_2 self); ReLU_forward].

Definition last_layer (self : NeuralNetwork) : tensor -> result tensor :=
  Sequential [Linear_forward (last_0 self)].

(** The layer sizes written in [__init__]:
    [Linear(3*64*64, 64)], [Linear(64, 64)], [Linear(64, 8)]. *)
Definition NeuralNetwork_init (w0 b0 w2 b2 wl bl : list Q) : NeuralNetwork :=
  let lin i o w b :=
    {| in_features := i; out_features := o;
       weight := {| value := Tensor [o; i] w; grad := None |};
       bias := {| value := Tensor [o] b; grad := None |} |} in
  {| stack_0 := lin (3 * 64 * 64) 64 w0 b0;
     stack_2 := lin 64 64 w2 b2;
     last_0 := lin 64 8 wl bl;
     training := true |}.

Module Cell23.
(** [NeuralNetwork.forward] of the walkthrough part. *)
Definition forward (self : NeuralNetwork) (x : tensor) : result tensor :=
  (x <- flatten 1 x ;;
   x <- linear_relu_stack self x ;;
   x <- last_layer self x ;;
   Ok x)%result.
End Cell23.

Module Cell37.
(** [NeuralNetwork.forward] of the exercise part, with the additional
    [torch.flatten(x, 1)] before the last layer. *)
Definition forward (self : NeuralNetwork) (x : tensor) : result tensor :=
  (x <- flatten 1 x ;;
   x <- linear_relu_stack self x ;;
   x <- flatten 1 x ;;
   x <- last_layer self x ;;
   Ok x)%result.
End Cell37.

(** The function one sample is sent through: the three linear transforms
    with a rectifier after the first two, on the flattened sample. *)
Definition mlp (self : NeuralNetwork) (v : list Q) : list Q :=
  affine (last_0 self)
    (map relu (affine (stack_2 self)
       (map relu (affine (stack_0 self) v)))).

(** The layer sizes fit together. *)
Definition chained (self : NeuralNetwork) : Prop :=
  out_features (stack_0 self) = in_features (stack_2 self) /\
  out_features (stack_2 self) = in_features (last_0 self).

(* ================================================================= *)
(** ** The framework operations that are left abstract *)

(** The names under which [model.parameters()] lists the six trainable
    tensors of a [NeuralNetwork]. *)
Inductive pname : Set :=
| stack_0_weight | stack_0_bias
| stack_2_weight | stack_2_bias
| last_0_weight | last_0_bias.

(** What flows through a transformation pipeline: a decoded picture or a
    tensor. *)
Inductive datum (Image : Type) : Type :=
| PIL (img : Image)
| TensorV (t : tensor).
Arguments PIL {Image} img.
Arguments TensorV {Image} t.

(** The operations of the framework whose results the notebook only passes
    on: the random number generator behind shuffling and augmentation
    ([randint n r] draws a number from the generator [r], to be used below
    the bound [n]; [uniform] draws an angle), the image operations of
    torchvision, reverse-mode differentiation
    ([autograd f net p] is the gradient, with respect to the parameter
    named [p], of the scalar [f] at the parameters of [net]), and the value
    of the cross-entropy loss of a score matrix against a label vector. *)
Class Framework : Type := {
  Rng : Type;
  randint : nat -> Rng -> nat * Rng;
  uniform : Q * Q -> Rng -> Q * Rng;
  Image : Type;
  F_resize : nat * nat -> datum Image -> result (datum Image);
  F_to_tensor : datum Image -> result (datum Image);
  F_rotate : Q -> datum Image -> result (datum Image);
  autograd : (NeuralNetwork -> result Q) -> NeuralNetwork -> pname -> tensor;
  CrossEntropyLoss : tensor -> list nat -> Q
}.

(* ================================================================= *)
(** ** The transformation lists, and what the run leaves behind *)

(** The torchvision transformations the notebook instantiates. *)
Inductive Transform : Type :=
| Resize (size : nat * nat)
| ToTensor
| RandomRotation (degrees : Q * Q).

(** Modelled from the spec: [ImageFolder(root, transform)] of the
    framework, "an indexable collection of (image, label) pairs, applying a
    fixed preprocessing pipeline": the decoded pictures found under the
    class folders of [root], each with the index of its class, and the
    transformation called on every access. *)
Record ImageFolder {FW : Framework} : Type := {
  imgs : list (Image * nat);
  transform : list Transform
}.

Definition base_transformations : list Transform :=
  [Resize (64, 64); ToTensor].

Module Cell14.
(** The walkthrough leaves the rotation commented out. *)
Definition augmentation_transformations : list Transform := [].
Definition train_transformations : list Transform :=
  base_transformations ++ augmentation_transformations.
Definition test_transformations : list Transform := base_transformations.
(** The pictures under [data/train] and [data/test] are what the run is
    given. *)
Definition train_set {FW : Framework} (data_train : list (Image * nat))
  : ImageFolder :=
  {| imgs := data_train; transform := train_transformations |}.
Definition val_set {FW : Framework} (data_test : list (Image * nat))
  : ImageFolder :=
  {| imgs := data_test; transform := test_transformations |}.
End Cell14.

Module Cell34.
Definition augmentation_transformations : list Transform :=
  [RandomRotation (-(45#1), 45#1)%Q].
Definition train_transformations : list Transform :=
  base_transformations ++ augmentation_transformations.
Definition test_transformations : list Transform := base_transformations.
(** The pictures under [data/train] and [data/test] are what the run is
    given. *)
Definition train_set {FW : Framework} (data_train : list (Image * nat))
  : ImageFolder :=
  {| imgs := data_train; transform := train_transformations |}.
Definition val_set {FW : Framework} (data_test : list (Image * nat))
  : ImageFolder :=
  {| imgs := data_test; transform := test_transformations |}.
End Cell34.

(** The framework calls a pass makes, in the order it makes them. *)
Inductive call : Set :=
| CallTrainMode | CallEvalMode
| CallForward | CallLoss | CallZeroGrad | CallBackward | CallStep.

(** A line written by [print]: the progress line of an epoch (epoch number,
    mean training loss, mean validation loss, validation accuracy) or the
    closing line with the best score. *)
Inductive line : Set :=
| EpochLine (epoch : nat) (train_loss test_loss test_correct : Q)
| ScoreLine (best_score : Q).

(* ================================================================= *)
(** ** The notebook *)

Declare Scope stmt_scope.
Delimit Scope stmt_scope with stmt.

Section Notebook.

Context {FW : Framework}.

(** *** Program state *)

(** The mutable objects the notebook's cells share: the model (with the
    parameters the optimizer was built from), the generator state, what has
    been printed, and the record of framework calls. *)
Record State : Type := {
  model : NeuralNetwork;
  rng : Rng;
  stdout : list line;
  trace : list call
}.

(** A statement: it reads and updates the state, and returns or raises. *)
Definition M (A : Type) : Type := State -> result A * State.

Definition ret {A : Type} (a : A) : M A := fun st => (Ok a, st).

(** Sequencing: an exception ends the statement and leaves the state as it
    is at that point. *)
Definition mbind {A B : Type} (m : M A) (k : A -> M B) : M B :=
  fun st => let (r, st') := m st in
            match r with
            | Ok a => k a st'
            | Raise e => (Raise e, st')
            end.

Definition lift {A : Type} (r : result A) : M A := fun st => (r, st).

Definition get_model : M NeuralNetwork := fun st => (Ok (model st), st).

Definition set_model (net : NeuralNetwork) : M unit :=
  fun st => (Ok tt, {| model := net; rng := rng st;
                       stdout := stdout st; trace := trace st |}).

Definition tick (c : call) : M unit :=
  fun st => (Ok tt, {| model := model st; rng := rng st;
                       stdout := stdout st; trace := trace st ++ [c] |}).

Definition print (l : line) : M unit :=
  fun st => (Ok tt, {| model := model st; rng := rng st;
                       stdout := stdout st ++ [l]; trace := trace st |}).

(** Draw from the generator. *)
Definition draw {A : Type} (f : Rng -> A * Rng) : M A :=
  fun st => let (a, r) := f (rng st) in
            (Ok a, {| model := model st; rng := r;
                      stdout := stdout st; trace := trace st |}).

(** A [for] loop with an accumulator. *)
Fixpoint for_each {A B : Type} (body : B -> A -> M B) (acc : B) (l : list A)
  : M B :=
  match l with
  | [] => ret acc
  | a :: l' => mbind (body acc a) (fun acc' => for_each body acc' l')
  end.

(** A list comprehension whose element expression has effects. *)
Fixpoint map_M {A B : Type} (f : A -> M B) (l : list A) : M (list B) :=
  match l with
  | [] => ret []
  | a :: l' => mbind (f a) (fun b => mbind (map_M f l') (fun bs => ret (b :: bs)))
  end.

Notation "x <- c ;; k" := (mbind c (fun x => k))
  (at level 100, c at next level, right associativity) : stmt_scope.
Notation "c ;;; k" := (mbind c (fun _ => k))
  (at level 100, right associativity) : stmt_scope.

(** *** Preprocessing (the transformation cells) *)

(** Modelled from the spec: calling a transformation on a sample, "resize
    to a configured fixed resolution, scale intensities to a normalized
    numeric range, optionally apply a randomized geometric transform".
    Resizing and conversion are functions of the sample; only the random
    rotation draws from the generator (its angle). *)
Definition apply_transform (t : Transform) (v : datum Image) : M (datum Image) :=
  match t with
  | Resize size => lift (F_resize size v)
  | ToTensor => lift (F_to_tensor v)
  | RandomRotation degrees =>
      (angle <- draw (uniform degrees) ;; lift (F_rotate angle v))%stmt
  end.

(** Modelled from the spec: [transforms.Compose] of the framework; the
    transformations are called in list order. *)
Definition Compose (ts : list Transform) (v : datum Image) : M (datum Image) :=
  for_each (fun acc t => apply_transform t acc) v ts.

(** *** Datasets and data loaders *)

Definition len_dataset (ds : ImageFolder) : nat := length (imgs ds).

(** [dataset[index]]: the picture at [index], transformed, with its
    label. *)
Definition getitem (ds : ImageFolder) (index : nat) : M (datum Image * nat) :=
  match nth_error (imgs ds) index with
  | None => lift (Raise IndexError)
  | Some (img, target) =>
      (sample <- Compose (transform ds) (PIL img) ;; ret (sample, target))%stmt
  end.

(** [DataLoader(dataset, batch_size, shuffle, num_workers=0)] *)
Record DataLoader : Type := {
  dataset : ImageFolder;
  batch_size : nat;
  shuffle : bool
}.

(** Modelled from the spec: the constructor of the framework's
    [DataLoader].  It builds the samplers at once: the batch sampler refuses
    a batch size that is not positive, and the random sampler of a
    shuffling loader refuses a dataset without samples, both with a
    [ValueError]; a loader that does not shuffle can be built over an empty
    dataset. *)
Definition DataLoader_init (dataset : ImageFolder) (batch_size : nat)
  (shuffle : bool) : result DataLoader :=
  if shuffle && (len_dataset dataset =? 0) then Raise ValueError
  else if batch_size =? 0 then Raise ValueError
  else Ok {| dataset := dataset; batch_size := batch_size; shuffle := shuffle |}.

(** Modelled from the spec: the batch grouping of the framework's
    [DataLoader] (its batch sampler, with [drop_last] left at its default
    [False]), "groups dataset entries into fixed-size batches": entries are
    gathered in traversal order, a batch is handed out as soon as it holds
    [batch_size] entries, and what remains at the end is handed out as a
    last, smaller batch. *)
Fixpoint batch_sampler {A : Type} (batch_size : nat) (batch : list A)
  (sampler : list A) : list (list A) :=
  match sampler with
  | [] => match batch with [] => [] | _ :: _ => [batch] end
  | idx :: rest =>
      let batch := batch ++ [idx] in
      if length batch =? batch_size
      then batch :: batch_sampler batch_size [] rest
      else batch_sampler batch_size batch rest
  end.

(** [l[:k] + [a] + l[k:]] *)
Definition insert_at {A : Type} (k : nat) (a : A) (l : list A) : list A :=
  firstn k l ++ a :: skipn k l.

(** Modelled from the spec: [torch.randperm(n)], the order of a pass that
    is "randomly permuted": the numbers below [n], each put at a place
    drawn from the generator among the numbers before it. *)
Fixpoint randperm (n : nat) (r : Rng) : list nat * Rng :=
  match n with
  | 0 => ([], r)
  | S n' =>
      let (l, r1) := randperm n' r in
      let (k, r2) := randint (S n') r1 in
      (insert_at (k mod S n') n' l, r2)
  end.

(** Modelled from the spec: the traversal order of the framework's
    [DataLoader], "for the training split, the traversal order is randomly
    permuted each pass; for the validation split, order is fixed
    (sequential)". *)
Definition sampler (dl : DataLoader) : M (list nat) :=
  if shuffle dl then draw (randperm (len_dataset (dataset dl)))
  else ret (seq 0 (len_dataset (dataset dl))).

(** [len(dataloader)]: the number of batches of one pass. *)
Definition len_dataloader (dl : DataLoader) : nat :=
  (len_dataset (dataset dl) + batch_size dl - 1) / batch_size dl.

Definition shape_eqb (s1 s2 : list nat) : bool :=
  if list_eq_dec Nat.eq_dec s1 s2 then true else false.

(** Modelled from the spec: [torch.stack], samples are "stacked into a
    single higher-rank tensor"; equally shaped tensors are put side by side
    along a new leading dimension. *)
Definition stack (ts : list tensor) : result tensor :=
  match ts with
  | [] => Raise RuntimeError
  | t :: _ =>
      if forallb (fun u => shape_eqb (shape u) (shape t)) ts
      then Ok (Tensor (length ts :: shape t) (flat_map data ts))
      else Raise RuntimeError
  end.

Definition as_tensor (v : datum Image) : result tensor :=
  match v with
  | TensorV t => Ok t
  | PIL _ => Raise TypeError
  end.

Fixpoint all_tensors (vs : list (datum Image)) : result (list tensor) :=
  match vs with
  | [] => Ok []
  | v :: vs' =>
      (t <- as_tensor v ;; ts <- all_tensors vs' ;; Ok (t :: ts))%result
  end.

(** Modelled from the spec: the default collate function of the
    framework; the samples of a batch become one image tensor "plus a
    parallel vector of labels". *)
Definition collate (samples : list (datum Image * nat))
  : result (tensor * list nat) :=
  (ts <- all_tensors (map fst samples) ;;
   X <- stack ts ;;
   Ok (X, map snd samples))%result.

(** One batch: fetch the samples of the index batch, then collate them. *)
Definition fetch (ds : ImageFolder) (idxs : list nat) : M (tensor * list nat) :=
  (samples <- map_M (getitem ds) idxs ;; lift (collate samples))%stmt.

(** The index batches of one pass: the traversal order is drawn when the
    pass starts and cut into batches. *)
Definition batch_indices (dl : DataLoader) : M (list (list nat)) :=
  (order <- sampler dl ;; ret (batch_sampler (batch_size dl) [] order))%stmt.

(** One full pass over a data loader, as the list of its batches. *)
Definition iterate (dl : DataLoader) : M (list (tensor * list nat)) :=
  (batches <- batch_indices dl ;; map_M (fetch (dataset dl)) batches)%stmt.

(** A [for] loop over a data loader: the traversal order is fixed when the
    loop starts, every batch is fetched right before its turn. *)
Definition for_in_dataloader {B : Type} (dl : DataLoader)
  (body : B -> tensor * list nat -> M B) (acc : B) : M B :=
  (batches <- batch_indices dl ;;
   for_each (fun acc idxs => Xy <- fetch (dataset dl) idxs ;; body acc Xy)
     acc batches)%stmt.

(** *** Model calls, gradients and the optimizer *)

Definition param_of (net : NeuralNetwork) (p : pname) : Param :=
  match p with
  | stack_0_weight => weight (stack_0 net)
  | stack_0_bias => bias (stack_0 net)
  | stack_2_weight => weight (stack_2 net)
  | stack_2_bias => bias (stack_2 net)
  | last_0_weight => weight (last_0 net)
  | last_0_bias => bias (last_0 net)
  end.

(** Replace every parameter [p] of the model by [f name p]. *)
Definition map_params (f : pname -> Param -> Param) (net : NeuralNetwork)
  : NeuralNetwork :=
  let lin l wn bn :=
    {| in_features := in_features l; out_features := out_features l;
       weight := f wn (weight l); bias := f bn (bias l) |} in
  {| stack_0 := lin (stack_0 net) stack_0_weight stack_0_bias;
     stack_2 := lin (stack_2 net) stack_2_weight stack_2_bias;
     last_0 := lin (last_0 net) last_0_weight last_0_bias;
     training := training net |}.

Definition set_training (mode : bool) (net : NeuralNetwork) : NeuralNetwork :=
  {| stack_0 := stack_0 net; stack_2 := stack_2 net; last_0 := last_0 net;
     training := mode |}.

(** [model.train()] and [model.eval()] *)
Definition model_train : M unit :=
  (tick CallTrainMode ;;; net <- get_model ;; set_model (set_training true net))%stmt.

Definition model_eval : M unit :=
  (tick CallEvalMode ;;; net <- get_model ;; set_model (set_training false net))%stmt.

(** [model(X)]: the forward method of the model's class on the current
    parameters. *)
Definition call_model (forward : NeuralNetwork -> tensor -> result tensor)
  (X : tensor) : M tensor :=
  (tick CallForward ;;; net <- get_model ;; lift (forward net X))%stmt.

(** [loss_fn(pred, y)] *)
Definition call_loss (loss_fn : tensor -> list nat -> Q) (pred : tensor)
  (y : list nat) : M Q :=
  (tick CallLoss ;;; ret (loss_fn pred y))%stmt.

Definition zeros_like (t : tensor) : tensor :=
  Tensor (shape t) (map (fun _ => 0%Q) (data t)).

Definition tensor_add (a b : tensor) : tensor :=
  Tensor (shape a) (map (fun ab => (fst ab + snd ab)%Q) (combine (data a) (data b))).

(** [torch.optim.SGD(model.parameters(), lr)]: the optimizer refers to the
    parameters of the model in the state. *)
Record SGD : Type := { lr : Q }.

(** Modelled from the spec: the optimizer's "reset accumulated gradients
    to zero": every gradient buffer that exists is filled with zeros. *)
Definition zero_grad (optimizer : SGD) : M unit :=
  (tick CallZeroGrad ;;;
   net <- get_model ;;
   set_model (map_params (fun _ p =>
     {| value := value p; grad := option_map zeros_like (grad p) |}) net))%stmt.

(** The parameter values of a model, without the gradient buffers. *)
Definition values_of (net : NeuralNetwork) : NeuralNetwork :=
  map_params (fun _ p => {| value := value p; grad := None |}) net.

(** Modelled from the spec: [loss.backward()], "compute gradients of loss
    w.r.t. all parameters via reverse-mode differentiation"; the gradient
    is taken at the current parameter values, and the gradient of every
    parameter is added to its buffer (a buffer that does not exist yet is
    created holding the gradient). *)
Definition backward (loss : NeuralNetwork -> result Q) : M unit :=
  (tick CallBackward ;;;
   net <- get_model ;;
   let g := autograd loss (values_of net) in
   set_model (map_params (fun name p =>
     {| value := value p;
        grad := Some match grad p with
                     | None => g name
                     | Some buffer => tensor_add buffer (g name)
                     end |}) net))%stmt.

(** Modelled from the spec: the optimizer update, "each parameter is
    updated by subtracting (learning-rate x parameter-gradient)"; a
    parameter without gradient buffer is left alone. *)
Definition sgd_update (lr : Q) (p g : tensor) : tensor :=
  Tensor (shape p) (map (fun pg => (fst pg - lr * snd pg)%Q) (combine (data p) (data g))).

Definition step (optimizer : SGD) : M unit :=
  (tick CallStep ;;;
   net <- get_model ;;
   set_model (map_params (fun _ p =>
     match grad p with
     | None => p
     | Some g => {| value := sgd_update (lr optimizer) (value p) g; grad := grad p |}
     end) net))%stmt.

(** *** [train] *)

Definition of_nat (n : nat) : Q := inject_Z (Z.of_nat n).

(** The body of the [for] loop of [train] on one batch.  ([X.to(device)]
    and [y.to(device)] move the batch and leave its values alone.) *)
Definition train_step (forward : NeuralNetwork -> tensor -> result tensor)
  (loss_fn : tensor -> list nat -> Q) (optimizer : SGD)
  (Xy : tensor * list nat) : M Q :=
  let (X, y) := Xy in
  ((* 1. predictions for the batch and their loss *)
   pred <- call_model forward X ;;
   loss <- call_loss loss_fn pred y ;;
   (* 2. set previously calculated gradients to zero *)
   zero_grad optimizer ;;;
   (* 3. backpropagate the loss *)
   backward (fun net => (pred <- forward net X ;; Ok (loss_fn pred y))%result) ;;;
   (* 4. update the weights *)
   step optimizer ;;;
   ret loss)%stmt.

Definition train (dataloader : DataLoader)
  (forward : NeuralNetwork -> tensor -> result tensor)
  (loss_fn : tensor -> list nat -> Q) (optimizer : SGD) : M Q :=
  let num_batches := len_dataloader dataloader in
  (model_train ;;;
   train_loss <- for_in_dataloader dataloader (fun train_loss Xy =>
       loss <- train_step forward loss_fn optimizer Xy ;;
       ret (train_loss + loss)%Q) 0%Q ;;
   avg_loss <- lift (truediv train_loss (of_nat num_batches)) ;;
   ret avg_loss)%stmt.

(** *** [test] *)

(** [(a == y).type(torch.float).sum().item()] for two label vectors of the
    same length. *)
Definition count_equal (a y : list nat) : result Q :=
  if length a =? length y
  then Ok (of_nat (length (filter (fun ay => fst ay =? snd ay) (combine a y))))
  else Raise RuntimeError.

(** The body of the [for] loop of [test] on one batch. *)
Definition test_step (forward : NeuralNetwork -> tensor -> result tensor)
  (loss_fn : tensor -> list nat -> Q) (acc : Q * Q)
  (Xy : tensor * list nat) : M (Q * Q) :=
  let (test_loss, correct) := acc in
  let (X, y) := Xy in
  ((* generate predictions *)
   preds <- call_model forward X ;;
   (* loss and number of correct predictions *)
   loss <- call_loss loss_fn preds y ;;
   classes <- lift (argmax1 preds) ;;
   hits <- lift (count_equal classes y) ;;
   ret ((test_loss + loss)%Q, (correct + hits)%Q))%stmt.

(** The loop runs under [torch.no_grad()]: nothing in it calls
    [backward], so the context manager has no counterpart here. *)
Definition test (dataloader : DataLoader)
  (forward : NeuralNetwork -> tensor -> result tensor)
  (loss_fn : tensor -> list nat -> Q) : M (Q * Q) :=
  let size := len_dataset (dataset dataloader) in
  let num_batches := len_dataloader dataloader in
  (model_eval ;;;
   sums <- for_in_dataloader dataloader (test_step forward loss_fn) (0%Q, 0%Q) ;;
   test_loss <- lift (truediv (fst sums) (of_nat num_batches)) ;;
   correct <- lift (truediv (snd sums) (of_nat size)) ;;
   ret ((correct * 100)%Q, test_loss))%stmt.

(** *** The epoch loop *)

Definition epochs : nat := 50.

(** One turn of the loop over [range(epochs)]. *)
Definition epoch_body (train_dataloader val_dataloader : DataLoader)
  (forward : NeuralNetwork -> tensor -> result tensor)
  (loss_fn : tensor -> list nat -> Q) (optimizer : SGD)
  (best_score : Q) (epoch : nat) : M Q :=
  (train_loss <- train train_dataloader forward loss_fn optimizer ;;
   scores <- test val_dataloader forward loss_fn ;;
   let (test_correct, test_loss) := scores : Q * Q in
   print (EpochLine (epoch + 1) train_loss test_loss test_correct) ;;;
   ret (Py.max best_score test_correct))%stmt.

Definition epoch_loop (train_dataloader val_dataloader : DataLoader)
  (forward : NeuralNetwork -> tensor -> result tensor)
  (loss_fn : tensor -> list nat -> Q) (optimizer : SGD) : M Q :=
  let best_score := 0%Q in
  (best_score <- for_each
       (epoch_body train_dataloader val_dataloader forward loss_fn optimizer)
       best_score (seq 0 epochs) ;;
   print (ScoreLine best_score) ;;;
   ret best_score)%stmt.

End Notebook.

Notation "x <- c ;; k" := (mbind c (fun x => k))
  (at level 100, c at next level, right associativity) : stmt_scope.
Notation "c ;;; k" := (mbind c (fun _ => k))
  (at level 100, right associativity) : stmt_scope.

(* ================================================================= *)
(** ** The cells that set up and start the two runs *)

Module Cell16.
Definition train_dataloader {FW : Framework} (data_train : list (Image * nat))
  : result DataLoader :=
  DataLoader_init (Cell14.train_set data_train) 32 true.
Definition val_dataloader {FW : Framework} (data_test : list (Image * nat))
  : result DataLoader :=
  DataLoader_init (Cell14.val_set data_test) 32 false.
End Cell16.

Module Cell26.
Definition loss_fn {FW : Framework} : tensor -> list nat -> Q := CrossEntropyLoss.
Definition optimizer : SGD := {| lr := 1 # 100 |}.
End Cell26.

Module Cell32.
(** The epoch loop of the walkthrough, on the loaders the loader cell has
    built over the two folders. *)
Definition run {FW : Framework} (data_train data_test : list (Image * nat)) : M Q :=
  (train_dataloader <- lift (Cell16.train_dataloader data_train) ;;
   val_dataloader <- lift (Cell16.val_dataloader data_test) ;;
   epoch_loop train_dataloader val_dataloader
     Cell23.forward Cell26.loss_fn Cell26.optimizer)%stmt.
End Cell32.

Module Cell35.
Definition train_dataloader {FW : Framework} (data_train : list (Image * nat))
  : result DataLoader :=
  DataLoader_init (Cell34.train_set data_train) 32 true.
Definition val_dataloader {FW : Framework} (data_test : list (Image * nat))
  : result DataLoader :=
  DataLoader_init (Cell34.val_set data_test) 32 false.
End Cell35.

Module Cell38.
Definition optimizer : SGD := {| lr := 1 # 10 |}.
End Cell38.

Module Cell39.
(** The epoch loop of the second run, on the loaders of its loader cell. *)
Definition run {FW : Framework} (data_train data_test : list (Image * nat)) : M Q :=
  (train_dataloader <- lift (Cell35.train_dataloader data_train) ;;
   val_dataloader <- lift (Cell35.val_dataloader data_test) ;;
   epoch_loop train_dataloader val_dataloader
     Cell37.forward Cell26.loss_fn Cell38.optimizer)%stmt.
End Cell39.

Module Cell40.
(** The prediction the last cell makes for one sample of the validation
    set: [model(x.unsqueeze(0)).argmax(1)]. *)
Definition predict (forward : NeuralNetwork -> tensor -> result tensor)
  (net : NeuralNetwork) (x : tensor) : result (list nat) :=
  (pred <- forward net (unsqueeze0 x) ;; argmax1 pred)%result.
End Cell40.

(* ================================================================= *)
(** ** Reference notions the properties are stated with *)

Definition Qsum (l : list Q) : Q := fold_right Qplus 0%Q l.

(** The class a model scores highest for one sample. *)
Definition highest_scoring_class (net : NeuralNetwork) (x : tensor) : nat :=
  argmax_list (mlp net (data x)).

(** A sample is classified correctly when that class is its label. *)
Definition correctly_classified (net : NeuralNetwork) (s : tensor * nat) : bool :=
  highest_scoring_class net (fst s) =? snd s.

(** A loss function with mean reduction, the default of
    [nn.CrossEntropyLoss()]: the loss of a batch is the mean of the losses
    of its rows. *)
Definition mean_reduction (sample_loss : list Q -> nat -> Q)
  (preds : tensor) (y : list nat) : Q :=
  match shape preds with
  | [n; c] =>
      (Qsum (map (fun i => sample_loss (row c i (data preds)) (nth i y 0%nat))
               (seq 0 n)) / of_nat n)%Q
  | _ => 0%Q
  end.

(** The mean of the per-sample losses over a whole split. *)
Definition split_mean_loss (sample_loss : list Q -> nat -> Q)
  (net : NeuralNetwork) (samples : list (tensor * nat)) : Q :=
  (Qsum (map (fun s => sample_loss (mlp net (data (fst s))) (snd s)) samples)
   / of_nat (length samples))%Q.

(** Every batch but the last one holds [B] entries. *)
Fixpoint full_but_last {A : Type} (B : nat) (bs : list (list A)) : Prop :=
  match bs with
  | [] => True
  | b :: bs' =>
      match bs' with
      | [] => True
      | _ :: _ => length b = B /\ full_but_last B bs'
      end
  end.

(** The batch tensor of a list of samples of shape [sh]: the samples side
    by side. *)
Definition batch_tensor (sh : list nat) (chunk : list (tensor * nat)) : tensor :=
  Tensor (length chunk :: sh) (flat_map (fun s => data (fst s)) chunk).

(** The score matrix of a list of samples: one row of scores per sample. *)
Definition score_matrix (net : NeuralNetwork) (chunk : list (tensor * nat))
  : tensor :=
  Tensor [length chunk; out_features (last_0 net)]
    (flat_map (fun s => mlp net (data (fst s))) chunk).

(** The loss value of one batch of samples. *)
Definition batch_loss (loss_fn : tensor -> list nat -> Q)
  (net : NeuralNetwork) (chunk : list (tensor * nat)) : Q :=
  loss_fn (score_matrix net chunk) (map snd chunk).

(** The two running sums of [test] after the batches [chunks]. *)
Definition eval_sums (loss_fn : tensor -> list nat -> Q) (net : NeuralNetwork)
  (chunks : list (list (tensor * nat))) (acc : Q * Q) : Q * Q :=
  fold_left (fun acc chunk =>
    ((fst acc + batch_loss loss_fn net chunk)%Q,
     (snd acc + of_nat (length (filter (correctly_classified net) chunk)))%Q))
    chunks acc.

(** A dataset whose accesses always return the same tensors: sample [i] is
    the [i]-th entry of [samples], and an access leaves the state alone. *)
Definition static_dataset {FW : Framework} (ds : ImageFolder)
  (samples : list (tensor * nat)) : Prop :=
  length samples = len_dataset ds /\
  forall i x y st, nth_error samples i = Some (x, y) ->
                   getitem ds i st = (Ok (TensorV x, y), st).

(** All samples have shape [sh] and as many entries as [sh] announces. *)
Definition samples_shaped (sh : list nat) (samples : list (tensor * nat)) : Prop :=
  Forall (fun s => shape (fst s) = sh /\ length (data (fst s)) = numel sh) samples.

(** The model accepts samples of shape [sh] and has at least one class. *)
Definition accepts (sh : list nat) (net : NeuralNetwork) : Prop :=
  numel sh = in_features (stack_0 net) /\ chained net /\
  0 < out_features (last_0 net).

(** A data loader over a non-empty dataset whose batches can be fetched:
    fetching a non-empty batch of valid indices returns a batch tensor with
    one sample of shape [sh] per index. *)
Definition loader_ok {FW : Framework} (sh : list nat) (dl : DataLoader) : Prop :=
  0 < batch_size dl /\ len_dataset (dataset dl) <> 0 /\
  forall idxs st,
    idxs <> [] -> Forall (fun i => i < len_dataset (dataset dl)) idxs ->
    exists X y, fst (fetch (dataset dl) idxs st) = Ok (X, y) /\
                shape X = length idxs :: sh.

(** A batch handed out for the index batch [idxs]: what [dataset[i]]
    returned for the indices in turn, collated; its labels are those of
    the dataset entries at these indices. *)
Definition handed_out {FW : Framework} (ds : ImageFolder) (idxs : list nat)
  (Xy : tensor * list nat) : Prop :=
  (exists fetched : list (datum Image * nat),
     Forall2 (fun i s => exists st0 st1, getitem ds i st0 = (Ok s, st1))
       idxs fetched /\
     collate fetched = Ok Xy) /\
  Forall2 (fun i y => exists img, nth_error (imgs ds) i = Some (img, y))
    idxs (snd Xy).

(** Every label of the loader's dataset is the index of a class of the
    model: the labels the framework's cross-entropy accepts. *)
Definition labels_fit {FW : Framework} (net : NeuralNetwork) (dl : DataLoader)
  : Prop :=
  Forall (fun entry => snd entry < out_features (last_0 net))
    (imgs (dataset dl)).

(** The turns of the epoch loop, one after the other: from the state [s],
    the turn of epoch [epoch] runs [train], then [test] in the state
    [train] left, and prints the line made of the epoch number and of what
    the two calls returned; the next turn starts in the state after the
    print.  [epochs_ran ... s es lines s'] holds when the turns of the
    epochs [es] from [s] all return, print [lines] and end in [s']. *)
Inductive epochs_ran {FW : Framework} (train_dataloader val_dataloader : DataLoader)
  (forward : NeuralNetwork -> tensor -> result tensor)
  (loss_fn : tensor -> list nat -> Q) (optimizer : SGD)
  : State -> list nat -> list line -> State -> Prop :=
| epochs_ran_nil (s : State) :
    epochs_ran train_dataloader val_dataloader forward loss_fn optimizer
      s [] [] s
| epochs_ran_cons (s s1 s2 s' : State) (epoch : nat) (es : list nat)
    (train_loss test_correct test_loss : Q) (lines : list line) :
    train train_dataloader forward loss_fn optimizer s = (Ok train_loss, s1) ->
    test val_dataloader forward loss_fn s1 = (Ok (test_correct, test_loss), s2) ->
    epochs_ran train_dataloader val_dataloader forward loss_fn optimizer
      (snd (print (EpochLine (epoch + 1) train_loss test_loss test_correct) s2))
      es lines s' ->
    epochs_ran train_dataloader val_dataloader forward loss_fn optimizer
      s (epoch :: es)
      (EpochLine (epoch + 1) train_loss test_loss test_correct :: lines) s'.

(** Only the random generator may differ between the two states. *)
Definition quiet {FW : Framework} (st st' : State) : Prop :=
  model st' = model st /\ trace st' = trace st /\ stdout st' = stdout st.

(** The framework calls of one training pass over [n] batches, of one
    evaluation pass over [n] batches, and of one epoch. *)
Definition train_calls (n : nat) : list call :=
  CallTrainMode ::
  concat (repeat [CallForward; CallLoss; CallZeroGrad; CallBackward; CallStep] n).

Definition test_calls (n : nat) : list call :=
  CallEvalMode :: concat (repeat [CallForward; CallLoss] n).

Definition epoch_calls (n_train n_val : nat) : list call :=
  train_calls n_train ++ test_calls n_val.

(** The epoch number and the validation accuracy of a progress line. *)
Definition epoch_of (l : line) : nat :=
  match l with
  | EpochLine epoch _ _ _ => epoch
  | ScoreLine _ => 0
  end.

Definition test_correct_of (l : line) : Q :=
  match l with
  | EpochLine _ _ _ test_correct => test_correct
  | ScoreLine best_score => best_score
  end.

(** A statement keeps the relation [R] between the state it starts in
    and the state it ends in, whether it returns or raises. *)
Definition preserves {FW : Framework} {A : Type}
  (R : State -> State -> Prop) (m : M A) : Prop :=
  forall st, R st (snd (m st)).

(** The model object is untouched. *)
Definition same_model {FW : Framework} (st st' : State) : Prop :=
  model st' = model st.

(** The framework calls made between two states all satisfy [ok]. *)
Definition calls_within {FW : Framework} (ok : call -> Prop)
  (st st' : State) : Prop :=
  exists new, trace st' = trace st ++ new /\ Forall ok new.

(** The calls of a pass that only evaluates. *)
Definition evaluation_call (c : call) : Prop :=
  c = CallEvalMode \/ c = CallForward \/ c = CallLoss.

(* ================================================================= *)
(** ** A small concrete instance *)

Module Demo.

(** The loss of a row of scores: 0 when the highest score sits at the
    label, 1 otherwise. *)
Definition zero_one (scores : list Q) (y : nat) : Q :=
  if argmax_list scores =? y then 0%Q else 1%Q.

(** Pictures are lists of numbers; resizing and rotating leave them alone,
    conversion makes a [k x 1 x 1] tensor of a picture of [k] numbers; the
    generator always draws 0, so that a random permutation reverses the
    order; every gradient entry is 1; the loss is the 0/1 loss with mean
    reduction. *)
Definition framework : Framework := {|
  Rng := nat;
  randint := fun _ r => (0, S r);
  uniform := fun d r => (fst d, S r);
  Image := list Q;
  F_resize := fun _ v => Ok v;
  F_to_tensor := fun v =>
    match v with
    | PIL px => Ok (TensorV (Tensor [length px; 1; 1] px))
    | TensorV _ => Raise TypeError
    end;
  F_rotate := fun _ v => Ok v;
  autograd := fun _ net name =>
    Tensor (shape (value (param_of net name)))
      (map (fun _ => 1%Q) (data (value (param_of net name))));
  CrossEntropyLoss := mean_reduction zero_one
|}.

Definition lin (i o : nat) (w b : list Q) : Linear :=
  {| in_features := i; out_features := o;
     weight := {| value := Tensor [o; i] w; grad := None |};
     bias := {| value := Tensor [o] b; grad := None |} |}.

(** Three inputs, two hidden layers of two units, two classes; the scores
    of a picture are its first two numbers, rectified. *)
Definition net : NeuralNetwork :=
  {| stack_0 := lin 3 2 [1; 0; 0; 0; 1; 0]%Q [0; 0]%Q;
     stack_2 := lin 2 2 [1; 0; 0; 1]%Q [0; 0]%Q;
     last_0 := lin 2 2 [1; 0; 0; 1]%Q [0; 0]%Q;
     training := true |}.

Definition state0 : @State framework :=
  {| model := net; rng := (0 : @Rng framework); stdout := []; trace := [] |}.

(** A training folder of three pictures. *)
Definition data_train : list (list Q * nat) :=
  [([1; 0; 0]%Q, 0); ([0; 1; 0]%Q, 1); ([2; 1; 0]%Q, 1)].

(** A validation folder of 33 pictures: 32 that the model classifies
    correctly, then one that it does not. *)
Definition data_test : list (list Q * nat) :=
  repeat ([1; 0; 0]%Q, 0) 32 ++ [([1; 0; 0]%Q, 1)].

(** The loaders the loader cell builds over a training folder that is not
    empty and over a validation folder. *)
Definition train_dataloader (folder : list (list Q * nat)) : DataLoader :=
  {| dataset := @Cell14.train_set framework folder; batch_size := 32;
     shuffle := true |}.
Definition val_dataloader (folder : list (list Q * nat)) : DataLoader :=
  {| dataset := @Cell14.val_set framework folder; batch_size := 32;
     shuffle := false |}.


(** The samples of a folder as tensors. *)
Definition as_samples (folder : list (list Q * nat)) : list (tensor * nat) :=
  map (fun s => (Tensor [length (fst s); 1; 1] (fst s), snd s)) folder.

Definition samples_test : list (tensor * nat) := as_samples data_test.

(** A batch of two pictures, with its labels. *)
Definition batch : tensor := Tensor [2; 3; 1; 1] [1; 0; 0; 0; 2; 5]%Q.
Definition labels : list nat := [0; 1].

(** The state after one training step on that batch: every parameter has a
    gradient buffer. *)
Definition state1 : @State framework :=
  snd (train_step Cell23.forward (mean_reduction zero_one) {| lr := 1 # 100 |}
         (batch, labels) state0).

End Demo.

(* ================================================================= *)
(** ** The cells around the model: listing, first batch, prediction plot *)

Module PyList.

(** [l[i]] for a list and a non-negative index. *)
Definition subscript {A : Type} (l : list A) (i : nat) : result A :=
  match nth_error l i with
  | Some a => Ok a
  | None => Raise IndexError
  end.

(** [enumerate(l)] *)
Definition enumerate {A : Type} (l : list A) : list (nat * A) :=
  combine (seq 0 (length l)) l.

(** A [for] loop with an accumulator whose body may raise. *)
Fixpoint for_each_r {A B : Type} (body : B -> A -> result B) (acc : B)
  (l : list A) : result B :=
  match l with
  | [] => Ok acc
  | a :: l' => Py.bind (body acc a) (fun acc' => for_each_r body acc' l')
  end.

End PyList.
Import PyList.

Module Cell9.
Open Scope string_scope.
Definition classes : list String.string :=
  ["DE"; "ES"; "FR"; "IE"; "JP"; "NL"; "UK"; "US"].
Close Scope string_scope.
End Cell9.

Module Cell11.
(** The body of the loop that picks one picture per class folder: the
    first file of the folder is opened and kept together with the folder's
    name. *)
Definition first_image_step {Folder File Img : Type}
  (open : Folder -> File -> result Img)
  (acc : list Img * list Folder) (entry : Folder * list File)
  : result (list Img * list Folder) :=
  let (image_list, countries) := acc in
  let (folder, files) := entry in
  (file <- subscript files 0 ;;
   image <- open folder file ;;
   Ok (image_list ++ [image], countries ++ [folder]))%result.

(** The loop.  [listing] is what [os.listdir] returns: the folders under
    [data/train], each with the files in it; [open] is [Image.open] on a
    file of a folder.  The result is [(image_list, countries)]. *)
Definition first_images {Folder File Img : Type}
  (open : Folder -> File -> result Img)
  (listing : list (Folder * list File)) : result (list Img * list Folder) :=
  for_each_r (first_image_step open) ([], []) listing.
End Cell11.

Module Cell19.
End Cell19.

Module Cell40Plot.

(** Iterating an object that has [__getitem__] and no [__iter__], as the
    datasets of the framework: the loop asks for the items at 0, 1, 2, ...
    and ends, without an error, when [__getitem__] raises [IndexError].  The
    candidate indices [idxs] are given; a dataset raises [IndexError] at its
    length at the latest. *)
Fixpoint iter_getitem {FW : Framework} {A B : Type} (get : nat -> M A)
  (body : B -> nat * A -> M B) (acc : B) (idxs : list nat) : M B :=
  match idxs with
  | [] => ret acc
  | i :: rest =>
      fun st =>
        match get i st with
        | (Ok a, st1) =>
            mbind (body acc (i, a))
              (fun acc' => iter_getitem get body acc' rest) st1
        | (Raise IndexError, st1) => (Ok acc, st1)
        | (Raise e, st1) => (Raise e, st1)
        end
  end.

(** The body of the first loop of the last cell, for sample [(x, y)] at
    position [i]: [read_image(val_set.imgs[i][0])] reads the file of entry
    [i] again; the prediction kept is the one-element tensor
    [pred.argmax(1)]. *)
Definition collect_step {FW : Framework}
  (forward : NeuralNetwork -> tensor -> result tensor) (val_set : ImageFolder)
  (acc : list Image * list nat * list (list nat))
  (ixy : nat * (datum Image * nat))
  : M (list Image * list nat * list (list nat)) :=
  let '(image_list, labels, preds) := acc in
  let '(i, (x, y)) := ixy in
  (entry <- lift (subscript (imgs val_set) i) ;;
   let image := fst entry in
   x <- lift (as_tensor x) ;;
   pred <- call_model forward (unsqueeze0 x) ;;
   p <- lift (argmax1 pred) ;;
   ret (image_list ++ [image], labels ++ [y], preds ++ [p]))%stmt.

(** The first loop, over [enumerate(val_set)]. *)
Definition collect {FW : Framework}
  (forward : NeuralNetwork -> tensor -> result tensor) (val_set : ImageFolder)
  : M (list Image * list nat * list (list nat)) :=
  iter_getitem (getitem val_set) (collect_step forward val_set)
    ([], [], []) (seq 0 (S (len_dataset val_set))).

(** [plt.subplots(ncols=9, nrows=9)] *)
Definition nrows : nat := 9.
Definition ncols : nat := 9.

(** [axs[r, c]]: a place in the array of axes. *)
Definition axs (r c : nat) : result (nat * nat) :=
  if (r <? nrows) && (c <? ncols) then Ok (r, c) else Raise IndexError.

(** A tensor of class indices used as a list index: only a tensor with one
    element converts to an index. *)
Definition index (t : list nat) : result nat :=
  match t with
  | [c] => Ok c
  | _ => Raise TypeError
  end.

(** What the plot shows for one picture: its place in the grid, the
    picture, and the two class names of the title. *)
Definition panel (Img : Type) : Type :=
  (nat * nat * Img * (String.string * String.string))%type.

(** The body of the second loop of the last cell: picture [i] is shown at
    [axs[i // 9, i % 9]] under the title made of the class names of its
    label and of its prediction. *)
Definition plot_step {Img : Type} (labels : list nat) (preds : list (list nat))
  (shown : list (panel Img)) (entry : nat * Img) : result (list (panel Img)) :=
  let (i, img) := entry in
  (ax <- axs (i / 9) (i mod 9) ;;
   label <- subscript labels i ;;
   real <- subscript Cell9.classes label ;;
   t <- subscript preds i ;;
   p <- index t ;;
   pred <- subscript Cell9.classes p ;;
   Ok (shown ++ [(ax, img, (real, pred))]))%result.

Definition plot_from {Img : Type} (labels : list nat) (preds : list (list nat))
  (shown : list (panel Img)) (todo : list (nat * Img))
  : result (list (panel Img)) :=
  for_each_r (plot_step labels preds) shown todo.

Definition plot {Img : Type} (image_list : list Img) (labels : list nat)
  (preds : list (list nat)) : result (list (panel Img)) :=
  plot_from labels preds [] (enumerate image_list).

(** The whole cell. *)
Definition run {FW : Framework}
  (forward : NeuralNetwork -> tensor -> result tensor) (val_set : ImageFolder)
  : M (list (panel Image)) :=
  (collected <- collect forward val_set ;;
   let '(image_list, labels, preds) := collected in
   lift (plot image_list labels preds))%stmt.

End Cell40Plot.

(** The name of class [c]; empty when there is no such class. *)
Definition class_name (c : nat) : String.string :=
  nth c Cell9.classes String.EmptyString.

(** The first file of a folder opens as [img]. *)
Definition opens_first {Folder File Img : Type}
  (open : Folder -> File -> result Img) (entry : Folder * list File)
  (img : Img) : Prop :=
  exists file, nth_error (snd entry) 0 = Some file /\
               open (fst entry) file = Ok img.

(** The folder is empty and [e] is [IndexError], or opening its first file
    raises [e]. *)
Definition fails_with {Folder File Img : Type}
  (open : Folder -> File -> result Img) (entry : Folder * list File)
  (e : exn) : Prop :=
  match snd entry with
  | [] => e = IndexError
  | file :: _ => open (fst entry) file = Raise e
  end.

(** The place of picture [i] in the grid of the plot. *)
Definition place (i : nat) : nat * nat := (i / 9, i mod 9).

Module DemoExtra.

(** A validation folder of two pictures with labels among eight classes,
    and one of 82 pictures. *)
Definition folder2 : list (list Q * nat) :=
  [([1; 0; 0]%Q, 5); ([0; 1; 0]%Q, 2)].
Definition folder82 : list (list Q * nat) := repeat ([1; 0; 0]%Q, 5) 82.

(** A training folder whose pictures have two numbers only, one fewer than
    the demo models take. *)
Definition folder_small : list (list Q * nat) := [([1; 0]%Q, 0); ([0; 1]%Q, 1)].

(** A model with three inputs, two hidden layers of two units and eight
    classes; class 5 has the largest bias. *)
Definition net8 : NeuralNetwork :=
  {| stack_0 := Demo.lin 3 2 [1; 0; 0; 0; 1; 0]%Q [0; 0]%Q;
     stack_2 := Demo.lin 2 2 [1; 0; 0; 1]%Q [0; 0]%Q;
     last_0 := Demo.lin 2 8 (repeat 0%Q 16) [0; 0; 0; 0; 0; 1; 0; 0]%Q;
     training := true |}.

(** One picture as a tensor. *)
Definition picture : tensor := Tensor [3; 1; 1] [1; 0; 0]%Q.

(** A state whose model is the eight-class model. *)
Definition state8 : @State Demo.framework :=
  {| model := net8; rng := (0 : @Rng Demo.framework); stdout := []; trace := [] |}.

End DemoExtra.

(* ================================================================= *)
(** ** Properties of the tensor operations *)

Section TensorFacts.

(** Flattening a matrix from dimension 1 gives the matrix back. *)
Lemma flatten1_matrix (n m : nat) (d : list Q) :
  flatten 1 (Tensor [n; m] d) = Ok (Tensor [n; m] d).
Proof.
  unfold flatten; simpl. now rewrite Nat.mul_1_r.
Qed.

(** A successful flatten from dimension 1 always yields a matrix. *)
Lemma flatten1_result (x y : tensor) :
  flatten 1 x = Ok y ->
  exists n rest, shape x = n :: rest /\ rest <> [] /\
                 y = Tensor [n; numel rest] (data x).
Proof.
  unfold flatten. destruct (shape x) as [|n rest] eqn:E; simpl; [discriminate|].
  destruct rest as [|d rest]; simpl; [discriminate|].
  intros H; inversion H; subst. exists n, (d :: rest).
  repeat split; congruence.
Qed.

Lemma Linear_forward_matrix (l : Linear) (n m : nat) (d : list Q) :
  Linear_forward l (Tensor [n; m] d) =
  if m =? in_features l
  then Ok (Tensor [n; out_features l]
             (flat_map (fun i => affine l (row (in_features l) i d)) (seq 0 n)))
  else Raise RuntimeError.
Proof.
  unfold Linear_forward; simpl. now rewrite Nat.mul_1_r.
Qed.

Lemma affine_length (l : Linear) (v : list Q) :
  length (affine l v) = out_features l.
Proof. unfold affine. now rewrite length_map, length_seq. Qed.

(** Skipping whole blocks of a list built block by block. *)
Lemma skipn_blocks (m : nat) (f : nat -> list Q) (n i a : nat) :
  (forall k, length (f k) = m) -> i <= n ->
  skipn (i * m) (flat_map f (seq a n)) = flat_map f (seq (a + i) (n - i)).
Proof.
  intros Hlen. revert n a. induction i as [|i IH]; intros n a Hi.
  - simpl. now rewrite Nat.add_0_r, Nat.sub_0_r.
  - destruct n as [|n]; [lia|]. simpl flat_map.
    replace (S i * m) with (length (f a) + i * m) by (rewrite Hlen; simpl; lia).
    rewrite skipn_app, skipn_all2 by lia.
    replace (length (f a) + i * m - length (f a)) with (i * m) by lia.
    simpl. rewrite IH by lia. f_equal. f_equal. lia.
Qed.

(** Reading block [i] of a list built block by block. *)
Lemma row_flat_map (m : nat) (f : nat -> list Q) (n i : nat) :
  (forall k, length (f k) = m) -> i < n ->
  row m i (flat_map f (seq 0 n)) = f i.
Proof.
  intros Hlen Hi. unfold row. rewrite skipn_blocks by (auto; lia).
  destruct (n - i) as [|k] eqn:E; [lia|]. simpl.
  rewrite <- (Hlen i) at 1.
  rewrite firstn_app, firstn_all, Nat.sub_diag. simpl. apply app_nil_r.
Qed.

Lemma flat_map_ext_seq (f g : nat -> list Q) (a n : nat) :
  (forall i, a <= i < a + n -> f i = g i) ->
  flat_map f (seq a n) = flat_map g (seq a n).
Proof.
  revert a. induction n as [|n IH]; intros a H; simpl; [reflexivity|].
  rewrite H by lia. f_equal. apply IH. intros i Hi. apply H. lia.
Qed.

Lemma map_flat_map_seq (h : Q -> Q) (f : nat -> list Q) (l : list nat) :
  map h (flat_map f l) = flat_map (fun i => map h (f i)) l.
Proof.
  induction l as [|a l IH]; simpl; [reflexivity|].
  now rewrite map_app, IH.
Qed.

End TensorFacts.

(* ================================================================= *)
(** ** The two forward functions *)

Section Forward.

Variable self : NeuralNetwork.

(** What the stack of two linear modules with their rectifiers returns on a
    matrix. *)
Lemma linear_relu_stack_matrix (n m : nat) (d : list Q) :
  linear_relu_stack self (Tensor [n; m] d) =
  if m =? in_features (stack_0 self) then
    if out_features (stack_0 self) =? in_features (stack_2 self) then
      Ok (Tensor [n; out_features (stack_2 self)]
            (map relu (flat_map (fun i => affine (stack_2 self)
               (row (in_features (stack_2 self)) i
                  (map relu (flat_map (fun i => affine (stack_0 self)
                     (row (in_features (stack_0 self)) i d)) (seq 0 n)))))
               (seq 0 n))))
    else Raise RuntimeError
  else Raise RuntimeError.
Proof.
  unfold linear_relu_stack, Sequential; simpl.
  rewrite Linear_forward_matrix.
  destruct (m =? in_features (stack_0 self)); simpl; [|reflexivity].
  rewrite Linear_forward_matrix.
  destruct (out_features (stack_0 self) =? in_features (stack_2 self)); reflexivity.
Qed.

(** The stack maps matrices to matrices with the same number of rows. *)
Lemma linear_relu_stack_shape (n m : nat) (d : list Q) (y : tensor) :
  linear_relu_stack self (Tensor [n; m] d) = Ok y ->
  exists d', y = Tensor [n; out_features (stack_2 self)] d'.
Proof.
  rewrite linear_relu_stack_matrix.
  destruct (m =? _); [|discriminate].
  destruct (_ =? _); [|discriminate].
  intros H; inversion H; eauto.
Qed.

(** The exercise class differs by a flatten that finds a matrix. *)
Lemma extra_flatten_is_identity (x : tensor) :
  Cell37.forward self x = Cell23.forward self x.
Proof.
  unfold Cell37.forward, Cell23.forward.
  destruct (flatten 1 x) as [x1|e] eqn:Hflat; simpl; [|reflexivity].
  apply flatten1_result in Hflat as (n & rest & _ & _ & ->).
  destruct (linear_relu_stack self _) as [x2|e] eqn:Hstack; simpl; [|reflexivity].
  apply linear_relu_stack_shape in Hstack as (d' & ->).
  now rewrite flatten1_matrix.
Qed.

Lemma flatten1_batch (x : tensor) (n : nat) (rest : list nat) :
  shape x = n :: rest -> rest <> [] ->
  flatten 1 x = Ok (Tensor [n; numel rest] (data x)).
Proof.
  intros Hs Hr. unfold flatten. rewrite Hs.
  destruct rest as [|d r]; [contradiction|]. reflexivity.
Qed.

(** The walkthrough forward pass on a batch of [n] samples whose flattened
    size is the input size of the first layer. *)
Lemma forward_batch (x : tensor) (n : nat) (rest : list nat) :
  shape x = n :: rest -> rest <> [] ->
  numel rest = in_features (stack_0 self) ->
  chained self ->
  Cell23.forward self x =
  Ok (Tensor [n; out_features (last_0 self)]
        (flat_map (fun i => mlp self (row (numel rest) i (data x))) (seq 0 n))).
Proof.
  intros Hs Hr Hin [H02 H2l]. unfold Cell23.forward.
  rewrite (flatten1_batch x Hs Hr); simpl.
  rewrite linear_relu_stack_matrix, Hin, Nat.eqb_refl, H02, Nat.eqb_refl; simpl.
  unfold last_layer, Sequential; simpl.
  rewrite Linear_forward_matrix, H2l, Nat.eqb_refl; simpl.
  do 2 f_equal. apply flat_map_ext_seq. intros i Hi. unfold mlp. f_equal.
  rewrite map_flat_map_seq, <- H2l, row_flat_map;
    [|intros; rewrite length_map; apply affine_length|lia].
  do 2 f_equal.
  rewrite map_flat_map_seq, <- H02, row_flat_map;
    [|intros; rewrite length_map; apply affine_length|lia].
  reflexivity.
Qed.

End Forward.

(** A model built by [__init__] accepts batches of [3 x 64 x 64] pictures
    and scores 8 classes. *)
Lemma init_accepts (w0 b0 w2 b2 wl bl : list Q) :
  let net := NeuralNetwork_init w0 b0 w2 b2 wl bl in
  numel [3; 64; 64] = in_features (stack_0 net) /\ chained net /\
  out_features (last_0 net) = 8.
Proof. repeat split. Qed.

(** C10: the walkthrough class and the exercise class compute the same
    function.  For every model (the two classes have the same parameters)
    and every input tensor, the forward pass with the extra
    [torch.flatten(x, 1)] returns exactly what the forward pass without it
    returns: the same score matrix, or the same exception. *)
Theorem forward_versions_agree (self : NeuralNetwork) (x : tensor) :
  Cell37.forward self x = Cell23.forward self x.
Proof. apply extra_flatten_is_identity. Qed.

(** C4: on a batch of [n] samples (a tensor of shape [n :: rest] with at
    least one sample dimension) whose flattened sample size is the input
    size of the first layer, and for a model whose layer sizes fit
    together, both forward functions return the [n x classes] matrix whose
    row [i] is: sample [i] flattened into one vector, sent through the
    first linear transform, the rectifier, the second linear transform,
    the rectifier and the last linear transform.  The row is the output of
    that last transform as it is: nothing normalises it. *)
Theorem forward_is_flatten_linear_relu_chain
  (self : NeuralNetwork) (x : tensor) (n : nat) (rest : list nat) :
  shape x = n :: rest -> rest <> [] ->
  numel rest = in_features (stack_0 self) ->
  chained self ->
  let scores :=
    Tensor [n; out_features (last_0 self)]
      (flat_map (fun i =>
         affine (last_0 self)
           (map relu (affine (stack_2 self)
              (map relu (affine (stack_0 self)
                 (row (numel rest) i (data x)))))))
         (seq 0 n)) in
  Cell23.forward self x = Ok scores /\ Cell37.forward self x = Ok scores.
Proof.
  intros Hs Hr Hin Hc scores.
  assert (H : Cell23.forward self x = Ok scores)
    by (apply forward_batch; assumption).
  split; [exact H|]. now rewrite extra_flatten_is_identity.
Qed.


(* ================================================================= *)
(** ** The batch iterator *)

Section Batching.

Context {A : Type}.

Lemma batch_sampler_concat (B : nat) (l acc : list A) :
  concat (batch_sampler B acc l) = acc ++ l.
Proof.
  revert acc. induction l as [|a l IH]; intros acc; simpl.
  - destruct acc; simpl; [reflexivity|]. now rewrite !app_nil_r.
  - destruct (length (acc ++ [a]) =? B); simpl; rewrite IH; simpl;
      now rewrite <- app_assoc.
Qed.

Lemma batch_sampler_sizes (B : nat) (l acc : list A) :
  length acc < B ->
  Forall (fun b => 0 < length b <= B) (batch_sampler B acc l).
Proof.
  revert acc. induction l as [|a l IH]; intros acc Hacc; simpl.
  - destruct acc as [|x acc]; constructor; [simpl in *; lia|constructor].
  - assert (Hlen : length (acc ++ [a]) = S (length acc))
      by (rewrite length_app; simpl; lia).
    destruct (Nat.eqb_spec (length (acc ++ [a])) B) as [E|E].
    + constructor; [lia|]. apply IH. simpl. lia.
    + apply IH. lia.
Qed.

Lemma batch_sampler_full (B : nat) (l acc : list A) :
  length acc < B -> full_but_last B (batch_sampler B acc l).
Proof.
  revert acc. induction l as [|a l IH]; intros acc Hacc.
  - simpl. destruct acc; simpl; exact I.
  - assert (Hlen : length (acc ++ [a]) = S (length acc))
      by (rewrite length_app; simpl; lia).
    simpl. destruct (Nat.eqb_spec (length (acc ++ [a])) B) as [E|E].
    + assert (Hrest : full_but_last B (batch_sampler B [] l))
        by (apply IH; simpl; lia).
      simpl. destruct (batch_sampler B [] l); [exact I|]. split; assumption.
    + apply IH. lia.
Qed.

(** The sizes of the batches determine how many there are. *)
Lemma count_from_sizes (B : nat) (bs : list (list A)) :
  0 < B -> full_but_last B bs -> Forall (fun b => 0 < length b <= B) bs ->
  (length bs - 1) * B < length (concat bs) + Nat.b2n (length bs =? 0)
  /\ length (concat bs) <= length bs * B.
Proof.
  intros HB. induction bs as [|b bs IH]; intros Hfull Hall.
  - simpl. lia.
  - inversion Hall as [|? ? Hb Hbs]; subst.
    simpl concat. rewrite length_app. simpl length.
    destruct bs as [|b' bs].
    + simpl. lia.
    + destruct Hfull as [Hfb Hfull]. specialize (IH Hfull Hbs).
      simpl length in *. simpl Nat.eqb in *. simpl Nat.b2n in *. nia.
Qed.

Lemma ceil_unique (S B k : nat) :
  0 < B -> (k - 1) * B < S + Nat.b2n (k =? 0) -> S <= k * B ->
  k = (S + B - 1) / B.
Proof.
  intros HB Hlo Hhi. destruct k as [|k].
  - simpl in *. assert (S = 0) by lia. subst.
    symmetry. apply Nat.div_small. lia.
  - simpl in Hlo. rewrite Nat.sub_0_r, Nat.add_0_r in Hlo.
    apply Nat.div_unique with (r := S + B - 1 - Datatypes.S k * B); nia.
Qed.

Lemma batch_sampler_count (B : nat) (l : list A) :
  0 < B -> length (batch_sampler B [] l) = (length l + B - 1) / B.
Proof.
  intros HB. apply ceil_unique; [assumption| |].
  - rewrite <- (batch_sampler_concat B l []) at 2.
    apply count_from_sizes; [assumption| |].
    + apply batch_sampler_full. simpl; lia.
    + apply batch_sampler_sizes. simpl; lia.
  - rewrite <- (batch_sampler_concat B l []) at 1.
    apply count_from_sizes; [assumption| |].
    + apply batch_sampler_full. simpl; lia.
    + apply batch_sampler_sizes. simpl; lia.
Qed.

Lemma full_but_last_nth (B : nat) (bs : list (list A)) (i : nat) :
  full_but_last B bs -> i + 1 < length bs -> length (nth i bs []) = B.
Proof.
  revert i. induction bs as [|b bs IH]; intros i Hfull Hi; [simpl in Hi; lia|].
  destruct bs as [|b' bs]; [simpl in Hi; lia|].
  destruct Hfull as [Hb Hfull]. destruct i as [|i]; [exact Hb|].
  change (nth (S i) (b :: b' :: bs) []) with (nth i (b' :: bs) []).
  apply IH; [assumption|]. simpl in *. lia.
Qed.

End Batching.

Lemma batch_sampler_valid_indices (n bound : nat) (l : list nat) :
  0 < n -> Forall (fun i => i < bound) l ->
  Forall (fun idxs => idxs <> [] /\ Forall (fun i => i < bound) idxs)
    (batch_sampler n [] l).
Proof.
  intros Hn Hall.
  assert (Hsz : Forall (fun b => 0 < length b <= n) (batch_sampler n [] l))
    by (apply batch_sampler_sizes; simpl; lia).
  pose proof (batch_sampler_concat n l []) as Hcat. simpl in Hcat.
  rewrite Forall_forall in *. intros idxs Hin. split.
  - specialize (Hsz idxs Hin). destruct idxs; [simpl in Hsz; lia|discriminate].
  - rewrite Forall_forall. intros i Hi. apply Hall. rewrite <- Hcat.
    apply in_concat. eauto.
Qed.


(* ================================================================= *)
(** ** Statements and loops *)

Section Statements.

Context {FW : Framework}.

Lemma map_M_length {A B : Type} (f : A -> M B) (l : list A) (st st' : State)
  (bs : list B) :
  map_M f l st = (Ok bs, st') -> length bs = length l.
Proof.
  revert st bs. induction l as [|a l IH]; intros st bs; simpl.
  - unfold ret. intros H; inversion H; reflexivity.
  - unfold mbind. destruct (f a st) as [[b|e] st1]; [|discriminate].
    destruct (map_M f l st1) as [[bs1|e] st2] eqn:E; [|discriminate].
    unfold ret. intros H; inversion H; subst. simpl. f_equal. eauto.
Qed.

(** What a list comprehension returns, element by element. *)
Lemma map_M_pointwise {A B : Type} (P : A -> B -> Prop) (f : A -> M B) :
  (forall a b st st', f a st = (Ok b, st') -> P a b) ->
  forall (l : list A) (st st' : State) (bs : list B),
    map_M f l st = (Ok bs, st') -> Forall2 P l bs.
Proof.
  intros HP. induction l as [|a l IH]; intros st st' bs; simpl.
  - unfold ret. intros H; inversion H; constructor.
  - unfold mbind. destruct (f a st) as [[b|e] st1] eqn:Ea; [|discriminate].
    destruct (map_M f l st1) as [[bs1|e] st2] eqn:E; [|discriminate].
    unfold ret. intros H; inversion H; subst. constructor; eauto.
Qed.

Lemma collate_labels (samples : list (datum Image * nat)) (X : tensor)
  (y : list nat) :
  collate samples = Ok (X, y) -> y = map snd samples.
Proof.
  unfold collate. destruct (all_tensors _); simpl; [|discriminate].
  destruct (stack _); simpl; [|discriminate].
  intros H; inversion H; reflexivity.
Qed.

(** A fetched batch has one label per index. *)
Lemma fetch_labels (ds : ImageFolder) (idxs : list nat) (st st' : State)
  (X : tensor) (y : list nat) :
  fetch ds idxs st = (Ok (X, y), st') -> length y = length idxs.
Proof.
  unfold fetch, mbind.
  destruct (map_M (getitem ds) idxs st) as [[samples|e] st1] eqn:E; [|discriminate].
  unfold lift. intros H; inversion H as [[Hc Hst]].
  apply collate_labels in Hc. subst.
  rewrite length_map. eapply map_M_length; eassumption.
Qed.

End Statements.

Section Shuffling.

Context {FW : Framework}.

Lemma insert_at_perm {A : Type} (k : nat) (a : A) (l : list A) :
  Permutation (insert_at k a l) (a :: l).
Proof.
  unfold insert_at. rewrite <- (firstn_skipn k l) at 3.
  symmetry. apply Permutation_middle.
Qed.

(** Whatever the generator draws, the shuffled order holds every position
    below [n] exactly once. *)
Lemma randperm_permutation (n : nat) (r : Rng) :
  Permutation (fst (randperm n r)) (seq 0 n).
Proof.
  revert r. induction n as [|n IH]; intros r.
  - constructor.
  - cbn [randperm]. specialize (IH r).
    destruct (randperm n r) as [l r1].
    destruct (randint (S n) r1) as [k r2]. cbn [fst] in *.
    rewrite insert_at_perm, seq_S. simpl plus.
    transitivity (n :: seq 0 n); [now constructor|].
    apply Permutation_cons_append.
Qed.

End Shuffling.

Section Loader.

Context {FW : Framework}.

Variable dl : DataLoader.

Let S := len_dataset (dataset dl).
Let B := batch_size dl.

Lemma sampler_order (st : State) :
  (forall n r, Permutation (fst (randperm n r)) (seq 0 n)) ->
  exists order st',
    sampler dl st = (Ok order, st') /\ Permutation order (seq 0 S) /\
    model st' = model st /\ stdout st' = stdout st /\ trace st' = trace st /\
    (shuffle dl = false -> order = seq 0 S /\ st' = st).
Proof.
  intros Hperm. unfold sampler. destruct (shuffle dl).
  - unfold draw. specialize (Hperm S (rng st)). fold S.
    destruct (randperm S (rng st)) as [order r].
    eexists _, _. split; [reflexivity|]. split; [exact Hperm|].
    repeat split; try reflexivity; discriminate.
  - eexists _, _. split; [reflexivity|]. split; [reflexivity|]. auto.
Qed.

End Loader.

(* ================================================================= *)
(** ** Frame rules *)

Section Frame.

Context {FW : Framework}.

Variable R : State -> State -> Prop.
Hypothesis R_refl : forall st, R st st.
Hypothesis R_trans : forall s1 s2 s3, R s1 s2 -> R s2 s3 -> R s1 s3.
Hypothesis R_draw : forall (A : Type) (f : Rng -> A * Rng), preserves R (draw f).

Lemma preserves_ret {A : Type} (a : A) : preserves R (ret a).
Proof. intros st; apply R_refl. Qed.

Lemma preserves_lift {A : Type} (r : result A) : preserves R (lift r).
Proof. intros st; apply R_refl. Qed.

Lemma preserves_get_model : preserves R get_model.
Proof. intros st; apply R_refl. Qed.

Lemma preserves_bind {A B : Type} (m : M A) (k : A -> M B) :
  preserves R m -> (forall a, preserves R (k a)) -> preserves R (mbind m k).
Proof.
  intros Hm Hk st. unfold mbind. specialize (Hm st).
  destruct (m st) as [[a|e] st1]; simpl in *; [|exact Hm].
  eapply R_trans; [exact Hm|apply Hk].
Qed.

Lemma preserves_for_each {A B : Type} (body : B -> A -> M B) (l : list A) :
  (forall acc a, preserves R (body acc a)) ->
  forall acc, preserves R (for_each body acc l).
Proof.
  intros Hb. induction l as [|a l IH]; intros acc; simpl.
  - apply preserves_ret.
  - apply preserves_bind; auto.
Qed.

Lemma preserves_map_M {A B : Type} (f : A -> M B) (l : list A) :
  (forall a, preserves R (f a)) -> preserves R (map_M f l).
Proof.
  intros Hf. induction l as [|a l IH]; simpl.
  - apply preserves_ret.
  - apply preserves_bind; [apply Hf|]. intros b.
    apply preserves_bind; [exact IH|]. intros bs. apply preserves_ret.
Qed.

Lemma preserves_apply_transform (t : Transform) (v : datum Image) :
  preserves R (apply_transform t v).
Proof.
  destruct t; simpl; try apply preserves_lift.
  apply preserves_bind; [apply R_draw|]. intros a. apply preserves_lift.
Qed.

Lemma preserves_Compose (ts : list Transform) (v : datum Image) :
  preserves R (Compose ts v).
Proof.
  unfold Compose. apply preserves_for_each.
  intros acc t. apply preserves_apply_transform.
Qed.

Lemma preserves_getitem (ds : ImageFolder) (i : nat) :
  preserves R (getitem ds i).
Proof.
  unfold getitem. destruct (nth_error (imgs ds) i) as [[img target]|].
  - apply preserves_bind; [apply preserves_Compose|].
    intros v. apply preserves_ret.
  - apply preserves_lift.
Qed.

Lemma preserves_fetch (ds : ImageFolder) (idxs : list nat) :
  preserves R (fetch ds idxs).
Proof.
  unfold fetch. apply preserves_bind.
  - apply preserves_map_M. intros i. apply preserves_getitem.
  - intros samples. apply preserves_lift.
Qed.

Lemma preserves_batch_indices (dl : DataLoader) :
  preserves R (batch_indices dl).
Proof.
  unfold batch_indices. apply preserves_bind.
  - unfold sampler. destruct (shuffle dl); [apply R_draw|apply preserves_ret].
  - intros order. apply preserves_ret.
Qed.

Lemma preserves_for_in_dataloader {B : Type} (dl : DataLoader)
  (body : B -> tensor * list nat -> M B) (acc : B) :
  (forall acc Xy, preserves R (body acc Xy)) ->
  preserves R (for_in_dataloader dl body acc).
Proof.
  intros Hb. unfold for_in_dataloader.
  apply preserves_bind; [apply preserves_batch_indices|].
  intros batches. apply preserves_for_each. intros acc' idxs.
  apply preserves_bind; [apply preserves_fetch|]. intros Xy. apply Hb.
Qed.

End Frame.

Section EvaluationFrame.

Context {FW : Framework}.

Lemma same_model_refl (st : State) : same_model st st.
Proof. reflexivity. Qed.

Lemma same_model_trans (s1 s2 s3 : State) :
  same_model s1 s2 -> same_model s2 s3 -> same_model s1 s3.
Proof. unfold same_model; congruence. Qed.

Lemma same_model_draw (A : Type) (f : Rng -> A * Rng) :
  preserves same_model (draw f).
Proof. intros st. unfold draw. destruct (f (rng st)); reflexivity. Qed.

Lemma same_model_tick (c : call) : preserves same_model (tick c).
Proof. intros st; reflexivity. Qed.

Lemma calls_within_refl (ok : call -> Prop) (st : State) : calls_within ok st st.
Proof. exists []. split; [now rewrite app_nil_r|constructor]. Qed.

Lemma calls_within_trans (ok : call -> Prop) (s1 s2 s3 : State) :
  calls_within ok s1 s2 -> calls_within ok s2 s3 -> calls_within ok s1 s3.
Proof.
  intros (n1 & E1 & F1) (n2 & E2 & F2). exists (n1 ++ n2). split.
  - now rewrite E2, E1, app_assoc.
  - apply Forall_app; split; assumption.
Qed.

Lemma calls_within_draw (ok : call -> Prop) (A : Type) (f : Rng -> A * Rng) :
  preserves (calls_within ok) (draw f).
Proof.
  intros st. unfold draw. destruct (f (rng st)). exists []. simpl.
  split; [now rewrite app_nil_r|constructor].
Qed.

Lemma calls_within_tick (ok : call -> Prop) (c : call) :
  ok c -> preserves (calls_within ok) (tick c).
Proof.
  intros Hc st. exists [c]. split; [reflexivity|]. constructor; [exact Hc|constructor].
Qed.

(** The loop body of [test] does not touch the model. *)
Lemma test_step_same_model forward loss_fn acc Xy :
  preserves same_model (test_step forward loss_fn acc Xy).
Proof.
  pose proof same_model_refl as Hr. pose proof same_model_trans as Ht.
  unfold test_step. destruct acc as [test_loss correct], Xy as [X y].
  unfold call_model, call_loss.
  repeat (first
    [ apply (preserves_bind Ht); [|intros ?]
    | apply same_model_tick
    | apply (preserves_get_model _ Hr)
    | apply (preserves_lift _ Hr)
    | apply (preserves_ret _ Hr) ]).
Qed.

(** It only makes forward and loss calls. *)
Lemma test_step_calls forward loss_fn acc Xy :
  preserves (calls_within evaluation_call) (test_step forward loss_fn acc Xy).
Proof.
  pose proof (calls_within_refl evaluation_call) as Hr.
  pose proof (@calls_within_trans evaluation_call) as Ht.
  unfold test_step. destruct acc as [test_loss correct], Xy as [X y].
  unfold call_model, call_loss.
  repeat (first
    [ apply (preserves_bind Ht); [|intros ?]
    | apply calls_within_tick; unfold evaluation_call; tauto
    | apply (preserves_get_model _ Hr)
    | apply (preserves_lift _ Hr)
    | apply (preserves_ret _ Hr) ]).
Qed.

End EvaluationFrame.

(* ================================================================= *)
(** ** The evaluation pass *)

Section Evaluation.

Context {FW : Framework}.

Variable dataloader : DataLoader.
Variable forward : NeuralNetwork -> tensor -> result tensor.
Variable loss_fn : tensor -> list nat -> Q.

Lemma mbind_ok {A B : Type} (m : M A) (k : A -> M B) (st st1 : State) (a : A) :
  m st = (Ok a, st1) -> mbind m k st = k a st1.
Proof. intros H. unfold mbind. now rewrite H. Qed.

Lemma model_eval_run (st : State) :
  model_eval st =
  (Ok tt, {| model := set_training false (model st); rng := rng st;
             stdout := stdout st; trace := trace st ++ [CallEvalMode] |}).
Proof. reflexivity. Qed.

(** What [test] does after switching to evaluation mode keeps any relation
    that its loop body keeps. *)
Lemma test_rest_preserves (R : State -> State -> Prop) :
  (forall st, R st st) ->
  (forall s1 s2 s3, R s1 s2 -> R s2 s3 -> R s1 s3) ->
  (forall (A : Type) (f : Rng -> A * Rng), preserves R (draw f)) ->
  (forall acc Xy, preserves R (test_step forward loss_fn acc Xy)) ->
  forall st, R (snd (model_eval st)) (snd (test dataloader forward loss_fn st)).
Proof.
  intros Hr Ht Hd Hstep st. unfold test.
  erewrite mbind_ok by apply model_eval_run. simpl snd.
  match goal with |- R ?s (snd (?m ?s)) => generalize s; change (preserves R m) end.
  apply (preserves_bind Ht).
  - apply preserves_for_in_dataloader; assumption.
  - intros sums. apply (preserves_bind Ht); [apply (preserves_lift _ Hr)|].
    intros test_loss. apply (preserves_bind Ht); [apply (preserves_lift _ Hr)|].
    intros correct. apply (preserves_ret _ Hr).
Qed.

End Evaluation.

(** C6: the evaluation pass leaves every parameter as it is and computes no
    gradient.  Whether [test] returns or raises, the model it leaves behind
    is the model it found with the mode flag switched to evaluation: every
    weight and bias tensor and every gradient buffer is identical; and the
    only framework calls it has made are the mode switch, forward calls
    and loss calls (no gradient reset, no backward pass, no optimizer
    step).  The same holds for the loop body on any single batch. *)
Theorem test_leaves_parameters_unchanged {FW : Framework}
  (dataloader : DataLoader)
  (forward : NeuralNetwork -> tensor -> result tensor)
  (loss_fn : tensor -> list nat -> Q) (st : State) :
  let st' := snd (test dataloader forward loss_fn st) in
  model st' = set_training false (model st) /\
  (forall name, param_of (model st') name = param_of (model st) name) /\
  calls_within evaluation_call st st' /\
  (forall acc Xy st0,
     let st1 := snd (test_step forward loss_fn acc Xy st0) in
     model st1 = model st0 /\ calls_within evaluation_call st0 st1).
Proof.
  intros st'.
  assert (Hm : model st' = set_training false (model st)).
  { pose proof (test_rest_preserves dataloader forward loss_fn
                  same_model_refl same_model_trans same_model_draw
                  (test_step_same_model forward loss_fn) st) as H.
    exact H. }
  split; [exact Hm|]. split; [|split].
  - intros name. rewrite Hm. destruct name; reflexivity.
  - eapply calls_within_trans.
    + apply (@calls_within_tick _ evaluation_call CallEvalMode).
      unfold evaluation_call; tauto.
    + pose proof (test_rest_preserves dataloader forward loss_fn
                    (calls_within_refl evaluation_call)
                    (@calls_within_trans _ evaluation_call)
                    (calls_within_draw evaluation_call)
                    (test_step_calls forward loss_fn) st) as H.
      exact H.
  - intros acc Xy st0 st1. split.
    + apply test_step_same_model.
    + apply test_step_calls.
Qed.

(* ================================================================= *)
(** ** Preprocessing *)

Section Preprocessing.

Context {FW : Framework}.

(** The two base transformations as a function of the picture alone. *)
Lemma base_transformations_run (img : Image) (st : State) :
  Compose base_transformations (PIL img) st =
  ((v <- F_resize (64, 64) (PIL img) ;; F_to_tensor v)%result, st).
Proof.
  unfold Compose, base_transformations; simpl.
  unfold mbind, lift, ret; simpl.
  destruct (F_resize (64, 64) (PIL img)) as [v|e]; simpl; [|reflexivity].
  destruct (F_to_tensor v); reflexivity.
Qed.

(** The validation set returns, for every access, the picture resized and
    converted, and leaves the state alone: when the conversion yields
    tensors, the validation samples are fixed. *)
Lemma val_set_static (folder : list (Image * nat)) (to_t : Image -> tensor) :
  (forall img y, In (img, y) folder ->
     (v <- F_resize (64, 64) (PIL img) ;; F_to_tensor v)%result
     = Ok (TensorV (to_t img))) ->
  static_dataset (Cell14.val_set folder)
    (map (fun s => (to_t (fst s), snd s)) folder).
Proof.
  intros Hconv. split.
  - unfold len_dataset. simpl. apply length_map.
  - intros i x y st Hnth. rewrite nth_error_map in Hnth.
    unfold getitem.
    change (imgs (Cell14.val_set folder)) with folder.
    change (transform (Cell14.val_set folder)) with base_transformations.
    destruct (nth_error folder i) as [[img target]|] eqn:E; [|discriminate].
    simpl in Hnth. inversion Hnth; subst.
    unfold mbind. rewrite base_transformations_run.
    rewrite (Hconv img y) by (eapply nth_error_In; exact E). reflexivity.
Qed.

End Preprocessing.

(* ================================================================= *)
(** ** Empty splits *)

Section EmptySplit.

Context {FW : Framework}.

Variable dl : DataLoader.
Hypothesis dl_empty : len_dataset (dataset dl) = 0.
Hypothesis randperm_nil : forall r, fst (randperm 0 r) = [].

Lemma len_dataloader_empty : len_dataloader dl = 0.
Proof.
  unfold len_dataloader. rewrite dl_empty. simpl.
  destruct (batch_size dl) as [|b]; [reflexivity|].
  apply Nat.div_small. lia.
Qed.

(** A loop over an empty split runs its body zero times. *)
Lemma for_in_dataloader_empty {B : Type}
  (body : B -> tensor * list nat -> M B) (acc : B) (st : State) :
  fst (for_in_dataloader dl body acc st) = Ok acc.
Proof.
  unfold for_in_dataloader, batch_indices, sampler, mbind.
  rewrite dl_empty. destruct (shuffle dl).
  - unfold draw. specialize (randperm_nil (rng st)).
    destruct (randperm 0 (rng st)) as [order r]. simpl in randperm_nil.
    subst order. reflexivity.
  - reflexivity.
Qed.

Lemma truediv_zero (a : Q) : truediv a (of_nat 0) = Raise ZeroDivisionError.
Proof. reflexivity. Qed.

Lemma fst_mbind {A B : Type} (m : M A) (k : A -> M B) (st : State) (a : A) :
  fst (m st) = Ok a -> fst (mbind m k st) = fst (k a (snd (m st))).
Proof.
  unfold mbind. destruct (m st) as [r st1]; simpl. now intros ->.
Qed.

Lemma train_empty forward loss_fn optimizer (st : State) :
  fst (train dl forward loss_fn optimizer st) = Raise ZeroDivisionError.
Proof.
  unfold train. rewrite len_dataloader_empty.
  erewrite fst_mbind by reflexivity.
  erewrite fst_mbind by apply for_in_dataloader_empty.
  reflexivity.
Qed.

Lemma test_empty forward loss_fn (st : State) :
  fst (test dl forward loss_fn st) = Raise ZeroDivisionError.
Proof.
  unfold test. rewrite len_dataloader_empty.
  erewrite fst_mbind by reflexivity.
  erewrite fst_mbind by apply for_in_dataloader_empty.
  reflexivity.
Qed.

End EmptySplit.

(** C9: on a data loader whose dataset is empty, neither [train] nor [test]
    returns metrics.  There are zero batches, the loops do nothing, and both
    functions raise [ZeroDivisionError] at the division of the accumulated
    loss by the number of batches.  In [test] the division of the correct
    count by the dataset size is a division by zero as well; it is not
    reached. *)
Theorem empty_split_ends_in_zero_division {FW : Framework}
  (dl : DataLoader) (forward : NeuralNetwork -> tensor -> result tensor)
  (loss_fn : tensor -> list nat -> Q) (optimizer : SGD) (st : State) :
  len_dataset (dataset dl) = 0 ->
  (forall r, fst (randperm 0 r) = []) ->
  len_dataloader dl = 0 /\
  fst (train dl forward loss_fn optimizer st) = Raise ZeroDivisionError /\
  fst (test dl forward loss_fn st) = Raise ZeroDivisionError /\
  (forall correct,
     truediv correct (of_nat (len_dataset (dataset dl))) = Raise ZeroDivisionError).
Proof.
  intros Hempty Hnil. split; [now apply len_dataloader_empty|].
  split; [now apply train_empty|]. split; [now apply test_empty|].
  intros correct. rewrite Hempty. apply truediv_zero.
Qed.

(** The notebook's validation loader over an empty folder. *)
Lemma empty_split_ends_in_zero_division_witness :
  let dl := Demo.val_dataloader [] in
  fst (train dl Cell23.forward (@Cell26.loss_fn Demo.framework)
         Cell26.optimizer Demo.state0) = Raise ZeroDivisionError /\
  fst (test dl Cell23.forward (@Cell26.loss_fn Demo.framework) Demo.state0)
    = Raise ZeroDivisionError.
Proof.
  intros dl.
  destruct (@empty_split_ends_in_zero_division Demo.framework dl Cell23.forward
              (@Cell26.loss_fn Demo.framework) Cell26.optimizer Demo.state0)
    as (_ & Htrain & Htest & _).
  - reflexivity.
  - intros r. reflexivity.
  - split; assumption.
Defined.

(* ================================================================= *)
(** ** A batch is its samples side by side *)

Section Stacked.

Lemma row_concat (m : nat) (xs : list (list Q)) (i : nat) :
  Forall (fun x => length x = m) xs -> i < length xs ->
  row m i (concat xs) = nth i xs [].
Proof.
  intros Hall. revert i. induction Hall as [|x xs Hx Hxs IH]; intros i Hi.
  - simpl in Hi; lia.
  - unfold row in *. destruct i as [|i]; simpl concat.
    + simpl. rewrite <- Hx at 1.
      rewrite firstn_app, firstn_all, Nat.sub_diag. simpl. apply app_nil_r.
    + replace (S i * m) with (length x + i * m) by (rewrite Hx; simpl; lia).
      rewrite skipn_app, skipn_all2 by lia.
      replace (length x + i * m - length x) with (i * m) by lia.
      simpl. apply IH. simpl in Hi; lia.
Qed.

Lemma map_seq_nth {A B : Type} (h : A -> B) (d : A) (l : list A) :
  map (fun i => h (nth i l d)) (seq 0 (length l)) = map h l.
Proof.
  induction l as [|a l IH]; simpl; [reflexivity|].
  f_equal. rewrite <- seq_shift, map_map. exact IH.
Qed.

(** Applying a function to every row of stacked vectors. *)
Lemma rows_of_stacked (m : nat) (g : list Q -> list Q) (xs : list (list Q)) :
  Forall (fun x => length x = m) xs ->
  flat_map (fun i => g (row m i (concat xs))) (seq 0 (length xs)) =
  flat_map g xs.
Proof.
  intros Hall. rewrite !flat_map_concat_map. f_equal.
  rewrite <- (map_seq_nth g [] xs).
  apply map_ext_in. intros i Hi. apply in_seq in Hi.
  now rewrite row_concat by (auto; lia).
Qed.

Lemma map_rows_of_stacked {B : Type} (m : nat) (g : list Q -> B)
  (xs : list (list Q)) :
  Forall (fun x => length x = m) xs ->
  map (fun i => g (row m i (concat xs))) (seq 0 (length xs)) = map g xs.
Proof.
  intros Hall. rewrite <- (map_seq_nth g [] xs).
  apply map_ext_in. intros i Hi. apply in_seq in Hi.
  now rewrite row_concat by (auto; lia).
Qed.

Variable net : NeuralNetwork.
Variable sh : list nat.
Hypothesis sh_nonempty : sh <> [].
Hypothesis sh_fits : numel sh = in_features (stack_0 net).
Hypothesis net_chained : chained net.

Lemma forward_stacked (chunk : list (tensor * nat)) :
  Forall (fun s => length (data (fst s)) = numel sh) chunk ->
  Cell23.forward net (batch_tensor sh chunk) = Ok (score_matrix net chunk).
Proof.
  intros Hall.
  rewrite (@forward_batch net (batch_tensor sh chunk) (length chunk) sh);
    [|reflexivity|assumption|assumption|assumption].
  unfold score_matrix, batch_tensor; simpl. do 2 f_equal.
  rewrite !flat_map_concat_map.
  rewrite <- (length_map (fun s : tensor * nat => data (fst s)) chunk).
  rewrite <- flat_map_concat_map.
  rewrite (rows_of_stacked (mlp net)).
  - now rewrite flat_map_concat_map, map_map.
  - apply Forall_map. exact Hall.
Qed.

Lemma argmax1_scores (chunk : list (tensor * nat)) :
  0 < out_features (last_0 net) ->
  argmax1 (score_matrix net chunk) =
  Ok (map (fun s => highest_scoring_class net (fst s)) chunk).
Proof.
  clear sh sh_nonempty sh_fits net_chained.
  intros Hc. unfold argmax1, score_matrix. simpl.
  destruct (Nat.eqb_spec (out_features (last_0 net)) 0) as [E|_]; [lia|].
  f_equal. rewrite flat_map_concat_map.
  rewrite <- (length_map (fun s : tensor * nat => mlp net (data (fst s))) chunk).
  rewrite (map_rows_of_stacked argmax_list).
  - now rewrite map_map.
  - apply Forall_map, Forall_forall. intros s _. apply affine_length.
Qed.

Lemma count_equal_chunk (chunk : list (tensor * nat)) :
  count_equal (map (fun s => highest_scoring_class net (fst s)) chunk)
    (map snd chunk) =
  Ok (of_nat (length (filter (correctly_classified net) chunk))).
Proof.
  unfold count_equal. rewrite !length_map, Nat.eqb_refl. do 3 f_equal.
  induction chunk as [|s chunk IH]; simpl; [reflexivity|].
  unfold correctly_classified at 1.
  destruct (highest_scoring_class net (fst s) =? snd s); simpl; now rewrite IH.
Qed.

(** The class the notebook's last cell predicts for a single sample is its
    highest-scoring class. *)
Lemma predict_highest_scoring_class (x : tensor) :
  0 < out_features (last_0 net) ->
  shape x = sh -> length (data x) = numel sh ->
  Cell40.predict Cell23.forward net x = Ok [highest_scoring_class net x].
Proof.
  intros Hc Hx Hlen. unfold Cell40.predict.
  assert (Hone : unsqueeze0 x = batch_tensor sh [(x, 0)]).
  { unfold unsqueeze0, batch_tensor. simpl. now rewrite Hx, app_nil_r. }
  rewrite Hone, forward_stacked by (repeat constructor; exact Hlen).
  simpl. rewrite argmax1_scores by exact Hc. reflexivity.
Qed.

End Stacked.

(* ================================================================= *)
(** ** Evaluation on a split with fixed samples *)

Section StaticSplit.

Context {FW : Framework}.

Variable ds : ImageFolder.
Variable samples : list (tensor * nat).
Variable sh : list nat.
Hypothesis ds_static : static_dataset ds samples.
Hypothesis ds_shaped : samples_shaped sh samples.

Let dflt : tensor * nat := (Tensor [] [], 0).
Let pick (i : nat) : tensor * nat := nth i samples dflt.

Lemma getitem_static (i : nat) (st : State) :
  i < length samples ->
  getitem ds i st = (Ok (TensorV (fst (pick i)), snd (pick i)), st).
Proof.
  intros Hi. destruct ds_static as [_ Hget]. apply Hget.
  rewrite (nth_error_nth' samples dflt Hi). unfold pick.
  now destruct (nth i samples dflt).
Qed.

Lemma map_M_getitem_static (idxs : list nat) (st : State) :
  Forall (fun i => i < length samples) idxs ->
  map_M (getitem ds) idxs st =
  (Ok (map (fun i => (TensorV (fst (pick i)), snd (pick i))) idxs), st).
Proof.
  induction 1 as [|i idxs Hi Hrest IH]; simpl; [reflexivity|].
  unfold mbind. rewrite (getitem_static st Hi), IH. reflexivity.
Qed.

Lemma all_tensors_static (chunk : list (tensor * nat)) :
  all_tensors (map fst (map (fun s => (@TensorV Image (fst s), snd s)) chunk))
  = Ok (map fst chunk).
Proof.
  induction chunk as [|s chunk IH]; simpl; [reflexivity|].
  simpl in IH. now rewrite IH.
Qed.

Lemma stack_shaped (chunk : list (tensor * nat)) :
  chunk <> [] -> samples_shaped sh chunk ->
  stack (map fst chunk) = Ok (batch_tensor sh chunk).
Proof.
  intros Hne Hall. destruct chunk as [|s chunk]; [contradiction|].
  unfold stack. simpl map.
  assert (Hs : shape (fst s) = sh) by (inversion Hall; tauto).
  assert (Hforall : forallb (fun u => shape_eqb (shape u) (shape (fst s)))
                      (fst s :: map fst chunk) = true).
  { apply forallb_forall. intros u Hu. unfold shape_eqb.
    destruct (list_eq_dec Nat.eq_dec (shape u) (shape (fst s))) as [|Hneq];
      [reflexivity|].
    exfalso. apply Hneq. rewrite Hs.
    change (fst s :: map fst chunk) with (map fst (s :: chunk)) in Hu.
    apply in_map_iff in Hu as (s' & <- & Hin).
    unfold samples_shaped in Hall. rewrite Forall_forall in Hall.
    now apply Hall. }
  cbv iota beta. rewrite Hforall. unfold batch_tensor. rewrite Hs.
  change (fst s :: map fst chunk) with (map fst (s :: chunk)).
  rewrite length_map. do 2 f_equal.
  now rewrite !flat_map_concat_map, map_map.
Qed.

Lemma collate_static (chunk : list (tensor * nat)) :
  chunk <> [] -> samples_shaped sh chunk ->
  collate (map (fun s => (@TensorV Image (fst s), snd s)) chunk) =
  Ok (batch_tensor sh chunk, map snd chunk).
Proof.
  intros Hne Hall. unfold collate.
  rewrite all_tensors_static; simpl.
  rewrite (stack_shaped Hne Hall); simpl.
  now rewrite map_map.
Qed.

Lemma pick_shaped (idxs : list nat) :
  Forall (fun i => i < length samples) idxs ->
  samples_shaped sh (map pick idxs).
Proof.
  intros Hall. apply Forall_map. eapply Forall_impl; [|exact Hall].
  intros i Hi. unfold samples_shaped in ds_shaped.
  rewrite Forall_forall in ds_shaped. apply ds_shaped.
  unfold pick. now apply nth_In.
Qed.

(** Fetching a batch of valid indices returns its samples side by side and
    leaves the state alone. *)
Lemma fetch_static (idxs : list nat) (st : State) :
  idxs <> [] -> Forall (fun i => i < length samples) idxs ->
  fetch ds idxs st =
  (Ok (batch_tensor sh (map pick idxs), map snd (map pick idxs)), st).
Proof.
  intros Hne Hall. unfold fetch, mbind.
  rewrite (map_M_getitem_static st Hall). unfold lift.
  rewrite <- (map_map pick (fun s => (@TensorV Image (fst s), snd s))).
  rewrite collate_static; [reflexivity| |now apply pick_shaped].
  destruct idxs; [contradiction|discriminate].
Qed.

End StaticSplit.

(* ================================================================= *)
(** ** One pass of a data loader *)

Section Pass.

Context {FW : Framework}.

Lemma map_M_pure {A B : Type} (f : A -> M B) (g : A -> B) (l : list A) :
  (forall a, In a l -> forall st, f a st = (Ok (g a), st)) ->
  forall st, map_M f l st = (Ok (map g l), st).
Proof.
  induction l as [|a l IH]; intros Hf st; [reflexivity|].
  simpl. unfold mbind. rewrite (Hf a (or_introl eq_refl)).
  rewrite IH by (intros a' Ha'; apply Hf; now right). reflexivity.
Qed.

(** A successful access returns the label stored with the entry. *)
Lemma getitem_label (ds : ImageFolder) (i : nat) (s : datum Image * nat)
  (st st' : State) :
  getitem ds i st = (Ok s, st') ->
  exists img, nth_error (imgs ds) i = Some (img, snd s).
Proof.
  unfold getitem. destruct (nth_error (imgs ds) i) as [[img target]|];
    [|discriminate].
  unfold mbind. destruct (Compose (transform ds) (PIL img) st) as [[v|e] st1];
    [|discriminate].
  unfold ret. intros H; inversion H; subst. exists img. reflexivity.
Qed.

(** A batch that was fetched is made of what the dataset returned. *)
Lemma fetch_handed_out (ds : ImageFolder) (idxs : list nat)
  (Xy : tensor * list nat) (st st' : State) :
  fetch ds idxs st = (Ok Xy, st') -> handed_out ds idxs Xy.
Proof.
  unfold fetch, mbind.
  destruct (map_M (getitem ds) idxs st) as [[fetched|e] st1] eqn:E;
    [|discriminate].
  unfold lift. intros H. inversion H as [[Hc Hst]]. clear H.
  assert (Hy : snd Xy = map snd fetched).
  { destruct Xy as [X y]. simpl. eapply collate_labels. exact Hc. }
  split.
  - exists fetched. split; [|exact Hc].
    eapply map_M_pointwise; [|exact E].
    intros i s s0 s1 Hget. eauto.
  - rewrite Hy.
    assert (HF : Forall2 (fun i s => exists img,
                            nth_error (imgs ds) i = Some (img, snd s))
                   idxs fetched).
    { eapply map_M_pointwise; [|exact E].
      intros i s s0 s1 Hget. eapply getitem_label. exact Hget. }
    clear - HF. induction HF; simpl; constructor; assumption.
Qed.

End Pass.

(** C2: one pass of a data loader over a dataset of [S] samples with batch
    size [B > 0], in the order its sampler draws (a permutation of the
    dataset positions, whatever the generator draws, when shuffling; the
    dataset order otherwise).  The pass consists of
    [len(dataloader) = (S + B - 1) / B] index batches, which is the least
    number [k] with [k * B >= S], that is ceil(S/B); every batch but the
    last holds exactly [B] indices and no batch is empty or larger than
    [B]; the batches put together hold every index of the dataset exactly
    once.  Every batch a completed pass hands out is the collation of what
    the dataset returned for the indices of its index batch, with the
    labels of these entries.  Over a dataset with fixed, equally shaped
    samples the pass completes, and the samples of its batches put together
    are the samples of the dataset, each exactly once. *)
Theorem batch_iterator_covers_dataset {FW : Framework} (dl : DataLoader)
  (st : State) :
  0 < batch_size dl ->
  let S := len_dataset (dataset dl) in
  let B := batch_size dl in
  exists (bs : list (list nat)) (st' : State),
    batch_indices dl st = (Ok bs, st') /\
    length bs = len_dataloader dl /\
    (S <= length bs * B /\ forall k, S <= k * B -> length bs <= k) /\
    (forall i, i + 1 < length bs -> length (nth i bs []) = B) /\
    Forall (fun b => 0 < length b <= B) bs /\
    Permutation (concat bs) (seq 0 S) /\
    (shuffle dl = false -> concat bs = seq 0 S) /\
    (forall batches st2, iterate dl st = (Ok batches, st2) ->
       Forall2 (handed_out (dataset dl)) bs batches) /\
    (forall samples sh,
       static_dataset (dataset dl) samples -> samples_shaped sh samples ->
       let chunks := map (map (fun i => nth i samples (Tensor [] [], 0))) bs in
       fst (iterate dl st) =
         Ok (map (fun chunk => (batch_tensor sh chunk, map snd chunk)) chunks) /\
       Permutation (concat chunks) samples).
Proof.
  intros HB S B.
  destruct (sampler_order dl st randperm_permutation)
    as (order & st' & Hs & Hp & _ & _ & _ & Hseq).
  exists (batch_sampler B [] order), st'.
  assert (Hlen : length order = S)
    by (rewrite (Permutation_length Hp); apply length_seq).
  assert (Hfull : full_but_last B (batch_sampler B [] order))
    by (apply batch_sampler_full; simpl; exact HB).
  assert (Hsz : Forall (fun b => 0 < length b <= B) (batch_sampler B [] order))
    by (apply batch_sampler_sizes; simpl; exact HB).
  assert (Hcat : concat (batch_sampler B [] order) = order)
    by apply batch_sampler_concat.
  destruct (count_from_sizes HB Hfull Hsz) as [Hlo Hhi].
  rewrite Hcat, Hlen in Hlo, Hhi.
  assert (Hrun : batch_indices dl st = (Ok (batch_sampler B [] order), st'))
    by (unfold batch_indices, mbind; rewrite Hs; reflexivity).
  split; [exact Hrun|].
  split.
  { unfold len_dataloader. fold S B. rewrite <- Hlen.
    apply batch_sampler_count; exact HB. }
  split.
  { split; [exact Hhi|].
    intros k Hk. destruct (length (batch_sampler B [] order)) as [|n]; [lia|].
    simpl in Hlo. nia. }
  split; [intros i Hi; apply full_but_last_nth; assumption|].
  split; [exact Hsz|].
  split; [rewrite Hcat; exact Hp|].
  split; [intros Hno; rewrite Hcat; now destruct (Hseq Hno)|].
  split.
  - intros batches st2. unfold iterate, mbind. rewrite Hrun. intros Hit.
    eapply map_M_pointwise; [|exact Hit].
    intros idxs Xy s s' Hf. eapply fetch_handed_out. exact Hf.
  - intros samples sh Hstatic Hshaped chunks.
    assert (Hsize : S = length samples)
      by (destruct Hstatic as [Hl _]; symmetry; exact Hl).
    set (pick := fun i => nth i samples (Tensor [] [], 0)) in *.
    split.
    + unfold iterate, mbind. rewrite Hrun.
      rewrite (@map_M_pure _ _ _ (fetch (dataset dl))
                 (fun idxs => (batch_tensor sh (map pick idxs),
                               map snd (map pick idxs)))).
      * simpl. unfold chunks. now rewrite map_map.
      * intros idxs Hin s.
        assert (Hvalid : Forall (fun idxs => idxs <> [] /\
                            Forall (fun i => i < length samples) idxs)
                           (batch_sampler B [] order)).
        { apply batch_sampler_valid_indices; [exact HB|].
          apply Forall_forall. intros i Hi.
          apply (Permutation_in _ Hp), in_seq in Hi. lia. }
        destruct (proj1 (Forall_forall _ _) Hvalid idxs Hin) as [Hne Hidx].
        exact (fetch_static Hstatic Hshaped s Hne Hidx).
    + unfold chunks. rewrite <- concat_map, Hcat.
      assert (Hp' : Permutation order (seq 0 (length samples)))
        by (rewrite <- Hsize; exact Hp).
      pose proof (Permutation_map pick Hp') as Hpm.
      assert (Hpick : map pick (seq 0 (length samples)) = samples).
      { unfold pick.
        rewrite (map_seq_nth (fun s => s) (Tensor [] [], 0) samples).
        apply map_id. }
      rewrite Hpick in Hpm. exact Hpm.
Qed.


Section EvaluationMetrics.

Context {FW : Framework}.

Variable dl : DataLoader.
Variable samples : list (tensor * nat).
Variable sh : list nat.
Variable forward : NeuralNetwork -> tensor -> result tensor.
Variable loss_fn : tensor -> list nat -> Q.

Hypothesis forward_class : forward = Cell23.forward \/ forward = Cell37.forward.
Hypothesis dl_static : static_dataset (dataset dl) samples.
Hypothesis dl_shaped : samples_shaped sh samples.
Hypothesis dl_sequential : shuffle dl = false.
Hypothesis batch_size_pos : 0 < batch_size dl.
Hypothesis sh_nonempty : sh <> [].

Let dflt : tensor * nat := (Tensor [] [], 0).
Let pick (i : nat) : tensor * nat := nth i samples dflt.

Lemma forward_is_walkthrough (net : NeuralNetwork) (x : tensor) :
  forward net x = Cell23.forward net x.
Proof.
  destruct forward_class as [-> | ->];
    [reflexivity|apply extra_flatten_is_identity].
Qed.

Lemma test_step_static (acc : Q * Q) (chunk : list (tensor * nat)) (s : State) :
  accepts sh (model s) -> samples_shaped sh chunk ->
  fst (test_step forward loss_fn acc (batch_tensor sh chunk, map snd chunk) s) =
  Ok ((fst acc + batch_loss loss_fn (model s) chunk)%Q,
      (snd acc + of_nat (length (filter (correctly_classified (model s)) chunk)))%Q).
Proof.
  intros (Hin & Hch & Hc) Hall. destruct acc as [test_loss correct].
  unfold test_step, call_model, call_loss, mbind, tick, get_model, lift, ret.
  simpl. rewrite forward_is_walkthrough.
  assert (Hf : Cell23.forward (model s) (batch_tensor sh chunk) =
               Ok (score_matrix (model s) chunk)).
  { apply forward_stacked; try assumption.
    eapply Forall_impl; [|exact Hall]. simpl. tauto. }
  rewrite Hf. rewrite argmax1_scores by exact Hc.
  rewrite count_equal_chunk. reflexivity.
Qed.

Lemma eval_loop (batches : list (list nat)) (acc : Q * Q) (s : State) :
  accepts sh (model s) ->
  Forall (fun idxs => idxs <> [] /\ Forall (fun i => i < length samples) idxs)
    batches ->
  fst (for_each (fun acc idxs =>
         (Xy <- fetch (dataset dl) idxs ;; test_step forward loss_fn acc Xy)%stmt)
         acc batches s) =
  Ok (eval_sums loss_fn (model s) (map (map pick) batches) acc).
Proof.
  intros Hacc Hall. revert acc s Hacc.
  induction Hall as [|idxs batches [Hne Hidx] Hrest IH]; intros acc s Hacc.
  - reflexivity.
  - simpl for_each.
    assert (Hbody :
      fst (mbind (fetch (dataset dl) idxs)
             (fun Xy => test_step forward loss_fn acc Xy) s) =
      Ok ((fst acc + batch_loss loss_fn (model s) (map pick idxs))%Q,
          (snd acc + of_nat (length (filter (correctly_classified (model s))
                                       (map pick idxs))))%Q)).
    { assert (Hfetch := fetch_static dl_static dl_shaped s Hne Hidx).
      erewrite fst_mbind by (rewrite Hfetch; reflexivity).
      rewrite Hfetch. simpl snd.
      apply test_step_static; [exact Hacc|].
      now apply (pick_shaped dl_shaped). }
    assert (Hmodel :
      model (snd (mbind (fetch (dataset dl) idxs)
                    (fun Xy => test_step forward loss_fn acc Xy) s)) = model s).
    { apply (preserves_bind same_model_trans).
      - apply (preserves_fetch same_model_refl same_model_trans same_model_draw).
      - intros Xy. apply test_step_same_model. }
    erewrite fst_mbind by exact Hbody.
    rewrite IH by (rewrite Hmodel; exact Hacc).
    rewrite Hmodel. reflexivity.
Qed.

Lemma batch_sampler_map {A B : Type} (f : A -> B) (n : nat) (l acc : list A) :
  batch_sampler n (map f acc) (map f l) = map (map f) (batch_sampler n acc l).
Proof.
  revert acc. induction l as [|a l IH]; intros acc; simpl.
  - destruct acc; reflexivity.
  - change [f a] with (map f [a]). rewrite <- map_app, !length_map.
    destruct (length (acc ++ [a]) =? n); simpl.
    + f_equal. apply (IH []).
    + apply IH.
Qed.

Lemma picked_chunks :
  map (map pick) (batch_sampler (batch_size dl) [] (seq 0 (length samples))) =
  batch_sampler (batch_size dl) [] samples.
Proof.
  rewrite <- (batch_sampler_map pick (batch_size dl) (seq 0 (length samples)) []).
  simpl. f_equal. unfold pick.
  rewrite (map_seq_nth (fun s => s) dflt samples). apply map_id.
Qed.

Lemma truediv_ok (a : Q) (n : nat) :
  n <> 0 -> truediv a (of_nat n) = Ok (a / of_nat n)%Q.
Proof.
  intros Hn. destruct n as [|n]; [contradiction|]. reflexivity.
Qed.

Lemma batch_indices_sequential (st : State) :
  batch_indices dl st =
  (Ok (batch_sampler (batch_size dl) [] (seq 0 (length samples))), st).
Proof.
  unfold batch_indices, sampler, mbind. rewrite dl_sequential.
  destruct dl_static as [<- _]. reflexivity.
Qed.

(** What [test] returns on a split with fixed samples. *)
Lemma test_static (st : State) :
  accepts sh (model st) -> samples <> [] ->
  let chunks := batch_sampler (batch_size dl) [] samples in
  let sums := eval_sums loss_fn (model st) chunks (0%Q, 0%Q) in
  fst (test dl forward loss_fn st) =
  Ok ((snd sums / of_nat (length samples) * 100)%Q,
      (fst sums / of_nat (length chunks))%Q).
Proof.
  intros Hacc Hne chunks sums. unfold test.
  erewrite mbind_ok by apply model_eval_run.
  set (s1 := {| model := set_training false (model st); rng := rng st;
                stdout := stdout st; trace := trace st ++ [CallEvalMode] |}).
  assert (Hloop : fst (for_in_dataloader dl (test_step forward loss_fn)
                         (0%Q, 0%Q) s1) = Ok sums).
  { unfold for_in_dataloader.
    erewrite mbind_ok by apply batch_indices_sequential.
    rewrite eval_loop.
    - rewrite picked_chunks. reflexivity.
    - exact Hacc.
    - apply batch_sampler_valid_indices; [exact batch_size_pos|].
      apply Forall_forall. intros i Hi. apply in_seq in Hi. lia. }
  erewrite fst_mbind by exact Hloop.
  assert (Hnb : len_dataloader dl = length chunks).
  { unfold len_dataloader, chunks. destruct dl_static as [<- _].
    symmetry. apply batch_sampler_count. exact batch_size_pos. }
  assert (Hpos : length chunks <> 0).
  { unfold chunks. destruct samples as [|s0 rest]; [contradiction|].
    assert (Hcat := batch_sampler_concat (batch_size dl) (s0 :: rest) []).
    destruct (batch_sampler (batch_size dl) [] (s0 :: rest)); [discriminate|].
    discriminate. }
  assert (Hsize : len_dataset (dataset dl) = length samples)
    by (destruct dl_static as [<- _]; reflexivity).
  rewrite Hnb, Hsize.
  unfold mbind, lift, ret.
  rewrite (truediv_ok _ Hpos).
  rewrite truediv_ok by (destruct samples; [contradiction|discriminate]).
  reflexivity.
Qed.

End EvaluationMetrics.

(* ================================================================= *)
(** ** The running sums of the evaluation pass *)

Section Sums.

Lemma of_nat_plus (n m : nat) : (of_nat (n + m) == of_nat n + of_nat m)%Q.
Proof. unfold of_nat. now rewrite Nat2Z.inj_add, inject_Z_plus. Qed.

Lemma of_nat_mult (n m : nat) : (of_nat (n * m) == of_nat n * of_nat m)%Q.
Proof. unfold of_nat. now rewrite Nat2Z.inj_mul, inject_Z_mult. Qed.

Lemma of_nat_nonneg (n : nat) : (0 <= of_nat n)%Q.
Proof. unfold of_nat, Qle; simpl. lia. Qed.

Lemma of_nat_le (n m : nat) : n <= m -> (of_nat n <= of_nat m)%Q.
Proof. intros H. unfold of_nat, Qle; simpl. lia. Qed.

Lemma of_nat_pos (n : nat) : n <> 0 -> (0 < of_nat n)%Q.
Proof. intros H. unfold of_nat, Qlt; simpl. lia. Qed.

Lemma Qsum_app (l1 l2 : list Q) : (Qsum (l1 ++ l2) == Qsum l1 + Qsum l2)%Q.
Proof.
  induction l1 as [|q l1 IH]; simpl.
  - ring.
  - rewrite IH. ring.
Qed.

Lemma Qsum_nonneg (l : list Q) :
  Forall (fun q => (0 <= q)%Q) l -> (0 <= Qsum l)%Q.
Proof.
  induction 1 as [|q l Hq Hl IH]; simpl; [apply Qle_refl|].
  apply (Qplus_le_compat 0 q 0 (Qsum l)); assumption.
Qed.

Variable loss_fn : tensor -> list nat -> Q.
Variable net : NeuralNetwork.

Lemma eval_sums_loss (chunks : list (list (tensor * nat))) (a b : Q) :
  (fst (eval_sums loss_fn net chunks (a, b)) ==
   a + Qsum (map (batch_loss loss_fn net) chunks))%Q.
Proof.
  revert a b. induction chunks as [|c chunks IH]; intros a b.
  - unfold eval_sums; simpl. ring.
  - change (eval_sums loss_fn net (c :: chunks) (a, b)) with
      (eval_sums loss_fn net chunks
         ((a + batch_loss loss_fn net c)%Q,
          (b + of_nat (length (filter (correctly_classified net) c)))%Q)).
    rewrite IH. simpl. ring.
Qed.

Lemma eval_sums_correct (chunks : list (list (tensor * nat))) (a b : Q) :
  (snd (eval_sums loss_fn net chunks (a, b)) ==
   b + of_nat (length (filter (correctly_classified net) (concat chunks))))%Q.
Proof.
  revert a b. induction chunks as [|c chunks IH]; intros a b.
  - unfold eval_sums, of_nat; simpl. ring.
  - change (eval_sums loss_fn net (c :: chunks) (a, b)) with
      (eval_sums loss_fn net chunks
         ((a + batch_loss loss_fn net c)%Q,
          (b + of_nat (length (filter (correctly_classified net) c)))%Q)).
    rewrite IH. simpl concat.
    rewrite filter_app, length_app, of_nat_plus. ring.
Qed.

End Sums.

Section MeanReduction.

Variable sample_loss : list Q -> nat -> Q.
Variable net : NeuralNetwork.

(** The loss of a sample under the model. *)
Let lossof (s : tensor * nat) : Q := sample_loss (mlp net (data (fst s))) (snd s).

(** With mean reduction, the loss of a batch is the mean of the losses of
    its samples. *)
Lemma batch_loss_mean_reduction (chunk : list (tensor * nat)) :
  batch_loss (mean_reduction sample_loss) net chunk =
  (Qsum (map lossof chunk) / of_nat (length chunk))%Q.
Proof.
  unfold batch_loss, mean_reduction, score_matrix; simpl.
  do 2 f_equal.
  set (d := (Tensor [] [], 0) : tensor * nat).
  rewrite <- (map_seq_nth lossof d chunk).
  apply map_ext_in. intros i Hi. apply in_seq in Hi. unfold lossof. f_equal.
  - rewrite flat_map_concat_map, row_concat.
    + rewrite (nth_indep _ [] (mlp net (data (fst d))))
        by (rewrite length_map; lia).
      apply (map_nth (fun s : tensor * nat => mlp net (data (fst s)))).
    + apply Forall_map, Forall_forall. intros s _. apply affine_length.
    + rewrite length_map. lia.
  - apply (map_nth snd chunk d).
Qed.

Lemma sum_of_means (B : nat) (chunks : list (list (tensor * nat))) :
  B <> 0 -> Forall (fun c => length c = B) chunks ->
  (Qsum (map (fun c => Qsum (map lossof c) / of_nat (length c)) chunks) ==
   Qsum (map lossof (concat chunks)) / of_nat B)%Q.
Proof.
  intros HB Hall.
  assert (HBq : ~ (of_nat B == 0)%Q).
  { intros E. pose proof (of_nat_pos HB) as Hp. rewrite E in Hp.
    exact (Qlt_irrefl 0 Hp). }
  induction Hall as [|c chunks Hc Hrest IH]; simpl.
  - field. exact HBq.
  - rewrite IH, map_app, Qsum_app, Hc. field. exact HBq.
Qed.

Lemma length_concat_full {A : Type} (B : nat) (bs : list (list A)) :
  Forall (fun c => length c = B) bs -> length (concat bs) = length bs * B.
Proof.
  induction 1 as [|c bs Hc Hrest IH]; simpl; [reflexivity|].
  rewrite length_app, IH, Hc. reflexivity.
Qed.

(** When all batches have the same size, the mean of the batch means is the
    mean over all samples. *)
Lemma mean_of_means (B : nat) (chunks : list (list (tensor * nat))) :
  B <> 0 -> chunks <> [] -> Forall (fun c => length c = B) chunks ->
  (Qsum (map (batch_loss (mean_reduction sample_loss) net) chunks)
     / of_nat (length chunks) ==
   split_mean_loss sample_loss net (concat chunks))%Q.
Proof.
  intros HB Hne Hall. unfold split_mean_loss. fold lossof.
  rewrite (map_ext _ _ batch_loss_mean_reduction).
  rewrite (sum_of_means HB Hall), (length_concat_full Hall), of_nat_mult.
  assert (HBq : ~ (of_nat B == 0)%Q).
  { intros E. pose proof (of_nat_pos HB) as Hp. rewrite E in Hp.
    exact (Qlt_irrefl 0 Hp). }
  assert (Hnq : ~ (of_nat (length chunks) == 0)%Q).
  { intros E. assert (Hl : length chunks <> 0) by (destruct chunks; [contradiction|discriminate]).
    pose proof (of_nat_pos Hl) as Hp. rewrite E in Hp.
    exact (Qlt_irrefl 0 Hp). }
  field. split; assumption.
Qed.

(** If the number of entries is a multiple of [B], the last batch is full
    too. *)
Lemma all_full {A : Type} (B : nat) (bs : list (list A)) :
  0 < B -> full_but_last B bs -> Forall (fun b => 0 < length b <= B) bs ->
  length (concat bs) mod B = 0 -> Forall (fun b => length b = B) bs.
Proof.
  intros HB. induction bs as [|b bs IH]; intros Hfull Hsz Hmod; [constructor|].
  inversion Hsz as [|? ? Hb Hbs]; subst.
  destruct bs as [|b' bs].
  - constructor; [|constructor]. simpl in Hmod. rewrite app_nil_r in Hmod.
    destruct (Nat.eq_dec (length b) B) as [E|E]; [exact E|].
    rewrite Nat.mod_small in Hmod by lia. lia.
  - destruct Hfull as [Hfb Hfull]. constructor; [exact Hfb|].
    apply IH; [exact Hfull|exact Hbs|].
    change (concat (b :: b' :: bs)) with (b ++ concat (b' :: bs)) in Hmod.
    rewrite length_app, Hfb in Hmod.
    set (n := length (concat (b' :: bs))) in *.
    replace (B + n) with (n + 1 * B) in Hmod by lia.
    now rewrite Nat.Div0.mod_add in Hmod.
Qed.

End MeanReduction.

(* ================================================================= *)
(** ** What the evaluation pass reports *)

(** C1 (amended): on a validation split with fixed, equally shaped samples
    that the model accepts, [test] returns once, after the loop over all
    batches, the pair (accuracy, loss) where the accuracy is 100 times the
    number of samples whose highest-scoring class is their label, divided
    by the number of samples of the split, and the loss is the sum of the
    loss values of the batches divided by the number of batches.  For a
    loss function with mean reduction this is the mean per-sample loss over
    the split when the split size is a multiple of the batch size. *)
Theorem test_reports_accuracy_and_mean_of_batch_losses {FW : Framework}
  (dl : DataLoader) (samples : list (tensor * nat)) (sh : list nat)
  (forward : NeuralNetwork -> tensor -> result tensor)
  (loss_fn : tensor -> list nat -> Q) (st : State) :
  forward = Cell23.forward \/ forward = Cell37.forward ->
  static_dataset (dataset dl) samples ->
  samples_shaped sh samples ->
  shuffle dl = false ->
  0 < batch_size dl ->
  sh <> [] -> samples <> [] ->
  numel sh = in_features (stack_0 (model st)) ->
  chained (model st) ->
  0 < out_features (last_0 (model st)) ->
  let net := model st in
  let chunks := batch_sampler (batch_size dl) [] samples in
  exists accuracy loss : Q,
    fst (test dl forward loss_fn st) = Ok (accuracy, loss) /\
    (accuracy ==
     100 * of_nat (length (filter (correctly_classified net) samples))
     / of_nat (length samples))%Q /\
    (loss == Qsum (map (batch_loss loss_fn net) chunks)
             / of_nat (length chunks))%Q /\
    (forall sample_loss,
       loss_fn = mean_reduction sample_loss ->
       length samples mod batch_size dl = 0 ->
       (loss == split_mean_loss sample_loss net samples)%Q).
Proof.
  intros Hfwd Hstatic Hshaped Hseq HB Hsh Hne Hin Hch Hc net chunks.
  pose proof (@test_static FW dl samples sh forward loss_fn Hfwd Hstatic
                Hshaped Hseq HB Hsh st (conj Hin (conj Hch Hc)) Hne) as Hrun.
  cbv zeta in Hrun. fold chunks net in Hrun.
  set (sums := eval_sums loss_fn net chunks (0%Q, 0%Q)) in *.
  assert (Hcat : concat chunks = samples) by apply batch_sampler_concat.
  assert (HS : ~ (of_nat (length samples) == 0)%Q).
  { intros E.
    assert (Hl : length samples <> 0) by (destruct samples; [contradiction|discriminate]).
    pose proof (of_nat_pos Hl) as Hp. rewrite E in Hp. exact (Qlt_irrefl 0 Hp). }
  assert (Hloss : (fst sums / of_nat (length chunks) ==
                   Qsum (map (batch_loss loss_fn net) chunks)
                   / of_nat (length chunks))%Q).
  { unfold sums. rewrite eval_sums_loss. now rewrite Qplus_0_l. }
  eexists _, _. split; [exact Hrun|]. split; [|split].
  - unfold sums. rewrite eval_sums_correct, Hcat. field. exact HS.
  - exact Hloss.
  - intros sample_loss -> Hmod. rewrite Hloss.
    assert (Hfull : Forall (fun c => length c = batch_size dl) chunks).
    { apply all_full; [exact HB| | |].
      - apply batch_sampler_full. simpl; exact HB.
      - apply batch_sampler_sizes. simpl; exact HB.
      - now rewrite Hcat. }
    assert (Hchunks : chunks <> []).
    { intros E. rewrite E in Hcat. simpl in Hcat. now subst. }
    assert (HB' : batch_size dl <> 0) by lia.
    pose proof (mean_of_means sample_loss net HB' Hchunks Hfull) as Hmean.
    rewrite Hcat in Hmean. exact Hmean.
Qed.

(* ================================================================= *)
(** ** The concrete instance meets the assumptions *)

Section DemoFacts.

Lemma demo_static (folder : list (list Q * nat)) :
  @static_dataset Demo.framework (@Cell14.val_set Demo.framework folder)
    (Demo.as_samples folder).
Proof.
  apply (@val_set_static Demo.framework folder
           (fun px => Tensor [length px; 1; 1] px)).
  intros img y _. reflexivity.
Qed.

(** The loader cell builds the demo loaders: the validation loader over
    any folder, the shuffling training loader over a folder that is not
    empty. *)
Lemma demo_loaders (folder : list (list Q * nat)) :
  @Cell16.val_dataloader Demo.framework folder = Ok (Demo.val_dataloader folder) /\
  (folder <> [] ->
   @Cell16.train_dataloader Demo.framework folder
   = Ok (Demo.train_dataloader folder)) /\
  @Cell16.train_dataloader Demo.framework [] = Raise ValueError.
Proof.
  split; [reflexivity|]. split; [|reflexivity].
  destruct folder; [contradiction|reflexivity].
Qed.

Lemma demo_shaped : samples_shaped [3; 1; 1] Demo.samples_test.
Proof.
  unfold samples_shaped. apply Forall_forall. intros s Hs.
  unfold Demo.samples_test, Demo.as_samples, Demo.data_test in Hs.
  rewrite map_app, in_app_iff in Hs. destruct Hs as [Hs|Hs].
  - apply in_map_iff in Hs as (s0 & <- & Hin).
    apply repeat_spec in Hin. subst. split; reflexivity.
  - destruct Hs as [<-|[]]. split; reflexivity.
Qed.

Lemma mean_reduction_nonneg (sample_loss : list Q -> nat -> Q) :
  (forall scores y, (0 <= sample_loss scores y)%Q) ->
  forall preds y, (0 <= mean_reduction sample_loss preds y)%Q.
Proof.
  intros Hs preds y. unfold mean_reduction.
  destruct (shape preds) as [|n [|c [|? ?]]]; try apply Qle_refl.
  destruct n as [|n].
  - simpl. unfold Qle; simpl; lia.
  - apply Qle_shift_div_l; [apply of_nat_pos; discriminate|].
    rewrite Qmult_0_l. apply Qsum_nonneg.
    apply Forall_map, Forall_forall. intros i _. apply Hs.
Qed.

Lemma zero_one_nonneg (scores : list Q) (y : nat) :
  (0 <= Demo.zero_one scores y)%Q.
Proof.
  unfold Demo.zero_one. destruct (_ =? _); unfold Qle; simpl; lia.
Qed.

End DemoFacts.

(** The demo folder of three training pictures, shuffled, in batches of
    two: two batches, the second smaller, which hold the three pictures
    with their labels. *)
Lemma batch_iterator_covers_dataset_witness :
  let dl := {| dataset := @Cell14.train_set Demo.framework Demo.data_train;
               batch_size := 2; shuffle := true |} in
  exists bs st',
    batch_indices dl Demo.state0 = (Ok bs, st') /\
    length bs = 2 /\ Permutation (concat bs) [0; 1; 2] /\
    fst (iterate dl Demo.state0) =
      Ok [(Tensor [2; 3; 1; 1] [2; 1; 0; 0; 1; 0]%Q, [1; 1]);
          (Tensor [1; 3; 1; 1] [1; 0; 0]%Q, [0])].
Proof.
  intros dl.
  destruct (@batch_iterator_covers_dataset Demo.framework dl Demo.state0)
    as (bs & st' & Hrun & Hlen & _ & _ & _ & Hp & _ & _ & Hstatic).
  - simpl. lia.
  - exists bs, st'.
    split; [exact Hrun|]. split; [exact Hlen|]. split; [exact Hp|].
    destruct (Hstatic (Demo.as_samples Demo.data_train) [3; 1; 1]) as [Hit _].
    + exact (demo_static Demo.data_train).
    + unfold samples_shaped. repeat (constructor; [split; reflexivity|]).
      constructor.
    + rewrite Hit.
      assert (E : fst (batch_indices dl Demo.state0) = Ok [[2; 1]; [0]])
        by reflexivity.
      rewrite Hrun in E. simpl in E. inversion E; subst. reflexivity.
Defined.

(** C1, as stated, fails on the notebook's validation loader (batch size
    32) over 33 pictures, 32 classified correctly and the last one not, with
    the 0/1 loss reduced by the mean: [test] returns the loss 1/2, the mean
    of the two batch losses 0 and 1, while the mean loss over the 33 samples
    of the split is 1/33. *)
Lemma test_loss_is_not_the_split_mean :
  exists accuracy loss : Q,
    fst (test (Demo.val_dataloader Demo.data_test)
           Cell23.forward (mean_reduction Demo.zero_one) Demo.state0)
    = Ok (accuracy, loss) /\
    (loss == 1 # 2)%Q /\
    (split_mean_loss Demo.zero_one Demo.net Demo.samples_test == 1 # 33)%Q /\
    ~ (loss == split_mean_loss Demo.zero_one Demo.net Demo.samples_test)%Q.
Proof.
  eexists _, _. split; [vm_compute; reflexivity|].
  split; [vm_compute; reflexivity|].
  split; [vm_compute; reflexivity|].
  vm_compute. discriminate.
Qed.

(** The amended statement on that loader. *)
Lemma test_reports_accuracy_and_mean_of_batch_losses_witness :
  exists accuracy loss : Q,
    fst (test (Demo.val_dataloader Demo.data_test)
           Cell23.forward (mean_reduction Demo.zero_one) Demo.state0)
    = Ok (accuracy, loss) /\
    (accuracy ==
     100 * of_nat (length (filter (correctly_classified Demo.net)
                             Demo.samples_test))
     / of_nat (length Demo.samples_test))%Q.
Proof.
  destruct (@test_reports_accuracy_and_mean_of_batch_losses Demo.framework
              (Demo.val_dataloader Demo.data_test)
              Demo.samples_test [3; 1; 1] Cell23.forward
              (mean_reduction Demo.zero_one) Demo.state0)
    as (accuracy & loss & Hrun & Hacc & _).
  - left; reflexivity.
  - apply demo_static.
  - apply demo_shaped.
  - reflexivity.
  - simpl; lia.
  - discriminate.
  - discriminate.
  - reflexivity.
  - split; reflexivity.
  - simpl; lia.
  - exists accuracy, loss. split; assumption.
Defined.

(* ================================================================= *)
(** ** The training step *)

Section TrainingStep.

Context {FW : Framework}.

Lemma Qplus_0_l_eq (q : Q) : (0 + q)%Q = q.
Proof.
  destruct q as [n d]. unfold Qplus; simpl. now rewrite Z.mul_1_r.
Qed.

(** Adding a gradient to a zeroed buffer of its shape gives the gradient. *)
Lemma tensor_add_zeros (buffer g : tensor) :
  shape buffer = shape g -> length (data buffer) = length (data g) ->
  tensor_add (zeros_like buffer) g = g.
Proof.
  destruct buffer as [sb db], g as [sg dg]; simpl. intros -> Hlen.
  unfold tensor_add, zeros_like; simpl. f_equal.
  revert db Hlen. induction dg as [|q dg IH]; intros [|b db] Hlen;
    simpl in *; try discriminate; [reflexivity|].
  rewrite Qplus_0_l_eq. f_equal. apply IH. lia.
Qed.

End TrainingStep.

(** C3: the training step on one batch.  When the forward pass accepts the
    batch, the step makes its framework calls in the order forward, loss,
    gradient reset, backward, optimizer step, and returns the scalar loss of
    the predictions made with the parameters as they were before the
    update.  With gradient buffers of the shape of the gradients (or none
    yet), the buffers hold after the step exactly the gradient of this
    batch's loss at those parameters, whatever they held before: nothing
    carries over from earlier batches; and every parameter has been updated
    with that gradient. *)
Theorem train_step_order_and_fresh_gradients {FW : Framework}
  (forward : NeuralNetwork -> tensor -> result tensor)
  (loss_fn : tensor -> list nat -> Q) (optimizer : SGD)
  (X : tensor) (y : list nat) (pred : tensor) (st : State) :
  let net := model st in
  let loss := fun net' => (p <- forward net' X ;; Ok (loss_fn p y))%result in
  let g := autograd loss (values_of net) in
  let out := train_step forward loss_fn optimizer (X, y) st in
  forward net X = Ok pred ->
  (forall name buffer, grad (param_of net name) = Some buffer ->
     shape buffer = shape (g name) /\
     length (data buffer) = length (data (g name))) ->
  fst out = Ok (loss_fn pred y) /\
  trace (snd out) =
    trace st ++ [CallForward; CallLoss; CallZeroGrad; CallBackward; CallStep] /\
  (forall name, grad (param_of (model (snd out)) name) = Some (g name)) /\
  (forall name,
     value (param_of (model (snd out)) name) =
     sgd_update (lr optimizer) (value (param_of net name)) (g name)).
Proof.
  intros net loss g out Hfwd Hfit.
  assert (Hgrad : forall name,
    match grad (param_of net name) with
    | None => g name
    | Some buffer => tensor_add (zeros_like buffer) (g name)
    end = g name).
  { intros name. specialize (Hfit name).
    destruct (grad (param_of net name)) as [buffer|]; [|reflexivity].
    destruct (Hfit buffer eq_refl) as [Hs Hl]. now apply tensor_add_zeros. }
  assert (Hv : values_of (map_params (fun _ p =>
                 {| value := value p; grad := option_map zeros_like (grad p) |})
                 net) = values_of net) by reflexivity.
  unfold out, train_step, call_model, call_loss, zero_grad, backward, step.
  unfold mbind, tick, get_model, set_model, lift, ret. simpl.
  fold net. rewrite Hfwd. simpl. rewrite Hv. fold loss. fold g.
  split; [reflexivity|]. split; [now rewrite <- !app_assoc|].
  split.
  - intros name. specialize (Hgrad name).
    destruct name; simpl in *;
      match goal with
      | H : context [grad ?p] |- _ => destruct (grad p); simpl in *; congruence
      end.
  - intros name. specialize (Hgrad name).
    destruct name; simpl in *;
      match goal with
      | H : context [grad ?p] |- _ => destruct (grad p); simpl in *; congruence
      end.
Qed.

(* ================================================================= *)
(** ** Running the passes *)

Section Runs.

Context {FW : Framework}.

Lemma quiet_refl (st : State) : quiet st st.
Proof. repeat split. Qed.

Lemma quiet_trans (s1 s2 s3 : State) : quiet s1 s2 -> quiet s2 s3 -> quiet s1 s3.
Proof. unfold quiet. intros (? & ? & ?) (? & ? & ?). repeat split; congruence. Qed.

Lemma quiet_draw (A : Type) (f : Rng -> A * Rng) : preserves quiet (draw f).
Proof. intros st. unfold draw. destruct (f (rng st)). repeat split. Qed.

Lemma fetch_quiet (ds : ImageFolder) (idxs : list nat) (st : State) :
  quiet st (snd (fetch ds idxs st)).
Proof. apply (preserves_fetch quiet_refl quiet_trans quiet_draw). Qed.

(** A loop whose body succeeds under an invariant of the state and of the
    accumulator, and makes the calls [cs] each time. *)
Lemma for_each_run {A B : Type} (I : State -> Prop) (J : list A -> B -> Prop)
  (cs : list call) (body : B -> A -> M B) (l : list A) :
  (forall done acc a s, I s -> J done acc -> In a l ->
     exists acc' s', body acc a s = (Ok acc', s') /\ I s' /\
       J (done ++ [a]) acc' /\
       trace s' = trace s ++ cs /\ stdout s' = stdout s) ->
  forall done acc s, I s -> J done acc ->
    exists acc' s', for_each body acc l s = (Ok acc', s') /\ I s' /\
      J (done ++ l) acc' /\
      trace s' = trace s ++ concat (repeat cs (length l)) /\
      stdout s' = stdout s.
Proof.
  induction l as [|a l IH]; intros Hbody done acc s HI HJ.
  - exists acc, s. simpl. rewrite !app_nil_r. auto.
  - destruct (Hbody done acc a s HI HJ (or_introl eq_refl))
      as (acc1 & s1 & Hrun & HI1 & HJ1 & Ht1 & Ho1).
    destruct (IH (fun d c b t HIt HJt Hin => Hbody d c b t HIt HJt (or_intror Hin))
                (done ++ [a]) acc1 s1 HI1 HJ1)
      as (acc2 & s2 & Hrun2 & HI2 & HJ2 & Ht2 & Ho2).
    exists acc2, s2. simpl for_each. unfold mbind. rewrite Hrun, Hrun2.
    rewrite <- app_assoc in HJ2. simpl in HJ2.
    repeat split; try assumption.
    + rewrite Ht2, Ht1. simpl. now rewrite <- app_assoc.
    + congruence.
Qed.

(** The index batches of a pass over a loader with a non-empty dataset. *)
Lemma batch_indices_run (dl : DataLoader) (st : State) :
  0 < batch_size dl ->
  (forall n r, Permutation (fst (randperm n r)) (seq 0 n)) ->
  exists bs st',
    batch_indices dl st = (Ok bs, st') /\ quiet st st' /\
    length bs = len_dataloader dl /\
    length (concat bs) = len_dataset (dataset dl) /\
    Forall (fun idxs => idxs <> [] /\
              Forall (fun i => i < len_dataset (dataset dl)) idxs) bs.
Proof.
  intros HB Hperm.
  destruct (sampler_order dl st Hperm)
    as (order & st' & Hs & Hp & Hm & Ho & Ht & _).
  assert (Hlen : length order = len_dataset (dataset dl))
    by (rewrite (Permutation_length Hp); apply length_seq).
  exists (batch_sampler (batch_size dl) [] order), st'. repeat split.
  - unfold batch_indices, mbind. now rewrite Hs.
  - exact Hm.
  - exact Ht.
  - exact Ho.
  - unfold len_dataloader. rewrite <- Hlen. now apply batch_sampler_count.
  - now rewrite batch_sampler_concat.
  - apply batch_sampler_valid_indices; [exact HB|].
    apply Forall_forall. intros i Hi.
    apply (Permutation_in _ Hp), in_seq in Hi. lia.
Qed.

Lemma len_dataloader_pos (dl : DataLoader) :
  0 < batch_size dl -> len_dataset (dataset dl) <> 0 -> len_dataloader dl <> 0.
Proof.
  intros HB HS. unfold len_dataloader.
  assert (H : 0 < (len_dataset (dataset dl) + batch_size dl - 1) / batch_size dl).
  { apply Nat.div_str_pos. lia. }
  lia.
Qed.

End Runs.

Section Passes.

Context {FW : Framework}.

Variable forward : NeuralNetwork -> tensor -> result tensor.
Variable loss_fn : tensor -> list nat -> Q.
Variable sh : list nat.

Hypothesis forward_class : forward = Cell23.forward \/ forward = Cell37.forward.
Hypothesis sh_nonempty : sh <> [].
Hypothesis randperm_perm : forall n r, Permutation (fst (randperm n r)) (seq 0 n).

(** An accepting model turns a batch of [n] samples into an [n x classes]
    score matrix. *)
Lemma forward_accepts (net : NeuralNetwork) (X : tensor) (n : nat) :
  accepts sh net -> shape X = n :: sh ->
  exists d, forward net X = Ok (Tensor [n; out_features (last_0 net)] d).
Proof.
  intros (Hin & Hch & _) HX.
  rewrite (forward_is_walkthrough forward_class).
  eexists. apply forward_batch; eassumption.
Qed.

Lemma train_step_run (optimizer : SGD) (X : tensor) (y : list nat)
  (pred : tensor) (st : State) :
  forward (model st) X = Ok pred -> accepts sh (model st) ->
  exists st',
    train_step forward loss_fn optimizer (X, y) st = (Ok (loss_fn pred y), st') /\
    accepts sh (model st') /\
    trace st' = trace st ++
      [CallForward; CallLoss; CallZeroGrad; CallBackward; CallStep] /\
    stdout st' = stdout st.
Proof.
  intros Hfwd Hacc.
  unfold train_step, call_model, call_loss, zero_grad, backward, step.
  unfold mbind, tick, get_model, set_model, lift, ret. simpl.
  rewrite Hfwd. simpl. eexists. split; [reflexivity|]. simpl.
  split; [exact Hacc|]. split; [now rewrite <- !app_assoc|reflexivity].
Qed.

(** One training pass over a loader whose batches can be fetched. *)
Lemma train_run (dl : DataLoader) (optimizer : SGD) (st : State) :
  loader_ok sh dl -> accepts sh (model st) ->
  exists avg_loss st',
    train dl forward loss_fn optimizer st = (Ok avg_loss, st') /\
    accepts sh (model st') /\
    trace st' = trace st ++ train_calls (len_dataloader dl) /\
    stdout st' = stdout st.
Proof.
  intros (HB & HS & Hfetch) Hacc. unfold train.
  set (s1 := {| model := set_training true (model st); rng := rng st;
                stdout := stdout st; trace := trace st ++ [CallTrainMode] |}).
  assert (Hmode : model_train st = (Ok tt, s1)) by reflexivity.
  erewrite mbind_ok by exact Hmode.
  destruct (batch_indices_run dl s1 HB randperm_perm)
    as (bs & s2 & Hbs & (Hm2 & Ht2 & Ho2) & Hnb & _ & Hvalid).
  destruct (@for_each_run _ _ _ (fun s => accepts sh (model s))
              (fun _ _ => True)
              [CallForward; CallLoss; CallZeroGrad; CallBackward; CallStep]
              (fun acc idxs =>
                 (Xy <- fetch (dataset dl) idxs ;;
                  loss <- train_step forward loss_fn optimizer Xy ;;
                  ret (acc + loss)%Q)%stmt) bs)
    with (done := @nil (list nat)) (acc := 0%Q) (s := s2)
    as (total & s3 & Hloop & Hacc3 & _ & Ht3 & Ho3).
  - intros done acc idxs s HI _ Hin.
    rewrite Forall_forall in Hvalid. destruct (Hvalid idxs Hin) as [Hne Hidx].
    destruct (Hfetch idxs s Hne Hidx) as (X & y & HXy & HX).
    destruct (fetch_quiet (dataset dl) idxs s) as (Hmq & Htq & Hoq).
    destruct (fetch (dataset dl) idxs s) as [r sq] eqn:Ef. simpl in *. subst r.
    assert (HIq : accepts sh (model sq)) by (rewrite Hmq; exact HI).
    edestruct forward_accepts as (d & Hfwd); [exact HIq|exact HX|].
    edestruct (train_step_run optimizer) as (s' & Hstep & HI' & Ht' & Ho');
      [exact Hfwd|exact HIq|].
    eexists. exists s'. unfold mbind. rewrite Ef, Hstep.
    split; [reflexivity|]. split; [exact HI'|]. split; [exact I|].
    split; congruence.
  - rewrite Hm2. exact Hacc.
  - exact I.
  - assert (Hfor : for_in_dataloader dl (fun train_loss Xy =>
                     (loss <- train_step forward loss_fn optimizer Xy ;;
                      ret (train_loss + loss)%Q)%stmt) 0%Q s1 = (Ok total, s3)).
    { unfold for_in_dataloader. erewrite mbind_ok by exact Hbs. exact Hloop. }
    erewrite mbind_ok by exact Hfor.
    pose proof (len_dataloader_pos dl HB HS) as Hpos.
    unfold mbind, lift, ret. rewrite (truediv_ok _ Hpos).
    eexists _, _. split; [reflexivity|]. split; [exact Hacc3|].
    split; [|rewrite Ho3, Ho2; reflexivity].
    rewrite Ht3, Ht2, Hnb. unfold train_calls. simpl.
    now rewrite <- app_assoc.
Qed.

Lemma test_step_run (acc : Q * Q) (X : tensor) (y : list nat) (n : nat)
  (s : State) :
  accepts sh (model s) -> shape X = n :: sh -> length y = n ->
  exists pred hits s',
    test_step forward loss_fn acc (X, y) s =
      (Ok ((fst acc + loss_fn pred y)%Q, (snd acc + hits)%Q), s') /\
    (0 <= hits)%Q /\ (hits <= of_nat n)%Q /\
    model s' = model s /\
    trace s' = trace s ++ [CallForward; CallLoss] /\
    stdout s' = stdout s.
Proof.
  intros Hacc HX Hy. destruct acc as [test_loss correct].
  edestruct forward_accepts as (d & Hfwd); [exact Hacc|exact HX|].
  destruct Hacc as (_ & _ & Hc).
  unfold test_step, call_model, call_loss.
  unfold mbind, tick, get_model, lift, ret. simpl.
  rewrite Hfwd. unfold argmax1. simpl shape. cbv beta iota.
  destruct (Nat.eqb_spec (out_features (last_0 (model s))) 0) as [E|_]; [lia|].
  unfold count_equal. rewrite length_map, length_seq, Hy, Nat.eqb_refl.
  eexists _, _, _. split; [reflexivity|]. simpl.
  split; [apply of_nat_nonneg|]. split.
  - apply of_nat_le.
    etransitivity; [apply filter_length_le|].
    rewrite length_combine, length_map, length_seq. lia.
  - split; [reflexivity|]. split; [now rewrite <- app_assoc|reflexivity].
Qed.

(** One evaluation pass over a loader whose batches can be fetched. *)
Lemma test_run (dl : DataLoader) (st : State) :
  loader_ok sh dl -> accepts sh (model st) ->
  exists accuracy loss st',
    test dl forward loss_fn st = (Ok (accuracy, loss), st') /\
    model st' = set_training false (model st) /\
    trace st' = trace st ++ test_calls (len_dataloader dl) /\
    stdout st' = stdout st /\
    (0 <= accuracy)%Q /\ (accuracy <= 100)%Q /\
    ((forall preds y, (0 <= loss_fn preds y)%Q) -> (0 <= loss)%Q).
Proof.
  intros (HB & HS & Hfetch) Hacc. unfold test.
  set (s1 := {| model := set_training false (model st); rng := rng st;
                stdout := stdout st; trace := trace st ++ [CallEvalMode] |}).
  assert (Hmode : model_eval st = (Ok tt, s1)) by reflexivity.
  erewrite mbind_ok by exact Hmode.
  destruct (batch_indices_run dl s1 HB randperm_perm)
    as (bs & s2 & Hbs & (Hm2 & Ht2 & Ho2) & Hnb & Hcat & Hvalid).
  destruct (@for_each_run _ _ _ (fun s => model s = model s1)
              (fun done (acc : Q * Q) =>
                 ((forall preds y, (0 <= loss_fn preds y)%Q) -> (0 <= fst acc)%Q) /\
                 (0 <= snd acc)%Q /\
                 (snd acc <= of_nat (length (concat done)))%Q)
              [CallForward; CallLoss]
              (fun acc idxs =>
                 (Xy <- fetch (dataset dl) idxs ;;
                  test_step forward loss_fn acc Xy)%stmt) bs)
    with (done := @nil (list nat)) (acc := (0%Q, 0%Q)) (s := s2)
    as (sums & s3 & Hloop & Hm3 & (Hl3 & Hc3 & Hc3') & Ht3 & Ho3).
  - intros done acc idxs s HI (HJl & HJ0 & HJ1) Hin.
    rewrite Forall_forall in Hvalid. destruct (Hvalid idxs Hin) as [Hne Hidx].
    destruct (Hfetch idxs s Hne Hidx) as (X & y & HXy & HX).
    destruct (fetch_quiet (dataset dl) idxs s) as (Hmq & Htq & Hoq).
    destruct (fetch (dataset dl) idxs s) as [r sq] eqn:Ef. simpl in *. subst r.
    assert (Hy : length y = length idxs) by (eapply fetch_labels; exact Ef).
    assert (HIq : accepts sh (model sq)) by (rewrite Hmq, HI; exact Hacc).
    edestruct (test_step_run acc)
      as (pred & hits & s' & Hstep & Hh0 & Hh1 & Hm' & Ht' & Ho');
      [exact HIq|exact HX|exact Hy|].
    eexists. exists s'. unfold mbind. rewrite Ef, Hstep.
    split; [reflexivity|]. split; [congruence|]. simpl fst; simpl snd.
    split; [|split; congruence].
    split; [|split].
    + intros Hnn. specialize (HJl Hnn). specialize (Hnn pred y). lra.
    + lra.
    + rewrite concat_app, length_app, of_nat_plus. simpl concat.
      rewrite app_nil_r. lra.
  - exact Hm2.
  - simpl. split; [intros _; apply Qle_refl|].
    split; [apply Qle_refl|]. unfold of_nat, Qle; simpl; lia.
  - assert (Hfor : for_in_dataloader dl (test_step forward loss_fn)
                     (0%Q, 0%Q) s1 = (Ok sums, s3)).
    { unfold for_in_dataloader. erewrite mbind_ok by exact Hbs. exact Hloop. }
    erewrite mbind_ok by exact Hfor.
    pose proof (len_dataloader_pos dl HB HS) as Hpos.
    unfold mbind, lift, ret. rewrite (truediv_ok _ Hpos), (truediv_ok _ HS).
    simpl in Hc3'. rewrite Hcat in Hc3'.
    assert (HSq : (0 < of_nat (len_dataset (dataset dl)))%Q)
      by now apply of_nat_pos.
    assert (Hx0 : (0 <= snd sums / of_nat (len_dataset (dataset dl)))%Q).
    { apply Qle_shift_div_l; [exact HSq|]. now rewrite Qmult_0_l. }
    assert (Hx1 : (snd sums / of_nat (len_dataset (dataset dl)) <= 1)%Q).
    { apply Qle_shift_div_r; [exact HSq|]. now rewrite Qmult_1_l. }
    eexists _, _, _. split; [reflexivity|].
    split; [exact Hm3|]. split.
    { rewrite Ht3, Ht2, Hnb. unfold test_calls. simpl. now rewrite <- app_assoc. }
    split; [rewrite Ho3, Ho2; reflexivity|].
    split; [lra|]. split; [lra|].
    intros Hnn. apply Qle_shift_div_l; [now apply of_nat_pos|].
    rewrite Qmult_0_l. now apply Hl3.
Qed.

End Passes.

(* ================================================================= *)
(** ** The epoch loop *)

Section Epochs.

Context {FW : Framework}.

(** A split with fixed, equally shaped samples can be fetched. *)
Lemma static_loader_ok (dl : DataLoader) (samples : list (tensor * nat))
  (sh : list nat) :
  static_dataset (dataset dl) samples -> samples_shaped sh samples ->
  samples <> [] -> 0 < batch_size dl -> loader_ok sh dl.
Proof.
  intros Hstatic Hshaped Hne HB.
  assert (Hlen : length samples = len_dataset (dataset dl))
    by (destruct Hstatic; assumption).
  split; [exact HB|]. split.
  - rewrite <- Hlen. destruct samples; [contradiction|discriminate].
  - intros idxs st Hidxs Hvalid. rewrite <- Hlen in Hvalid.
    rewrite (fetch_static Hstatic Hshaped st Hidxs Hvalid).
    eexists _, _. split; [reflexivity|].
    unfold batch_tensor. simpl. now rewrite length_map.
Qed.

Lemma max_ge_l (a b : Q) : (a <= Py.max a b)%Q.
Proof.
  unfold Py.max. destruct (Qle_bool b a) eqn:E; [apply Qle_refl|].
  destruct (Qlt_le_dec a b) as [H|H]; [now apply Qlt_le_weak|].
  apply Qle_bool_iff in H. congruence.
Qed.

Lemma max_ge_r (a b : Q) : (b <= Py.max a b)%Q.
Proof.
  unfold Py.max. destruct (Qle_bool b a) eqn:E; [|apply Qle_refl].
  now apply Qle_bool_iff.
Qed.

Lemma max_cases (a b : Q) : Py.max a b = a \/ Py.max a b = b.
Proof. unfold Py.max. destruct (Qle_bool b a); auto. Qed.

Variable train_dataloader val_dataloader : DataLoader.
Variable forward : NeuralNetwork -> tensor -> result tensor.
Variable loss_fn : tensor -> list nat -> Q.
Variable optimizer : SGD.
Variable sh : list nat.

Hypothesis forward_class : forward = Cell23.forward \/ forward = Cell37.forward.
Hypothesis sh_nonempty : sh <> [].
Hypothesis randperm_perm : forall n r, Permutation (fst (randperm n r)) (seq 0 n).
Hypothesis train_ok : loader_ok sh train_dataloader.
Hypothesis val_ok : loader_ok sh val_dataloader.

Let n_train := len_dataloader train_dataloader.
Let n_val := len_dataloader val_dataloader.

End Epochs.

Section EpochRecords.

Lemma fold_max_ge (accs : list Q) (best0 : Q) :
  (best0 <= fold_left Py.max accs best0)%Q.
Proof.
  revert best0. induction accs as [|a accs IH]; intros best0; simpl.
  - apply Qle_refl.
  - eapply Qle_trans; [apply max_ge_l|apply IH].
Qed.

Lemma fold_max_bounds (accs : list Q) (best0 : Q) :
  Forall (fun a => (a <= fold_left Py.max accs best0)%Q) accs.
Proof.
  revert best0. induction accs as [|a accs IH]; intros best0; simpl.
  - constructor.
  - constructor; [|apply IH].
    eapply Qle_trans; [apply max_ge_r|apply fold_max_ge].
Qed.

Lemma fold_max_attained (accs : list Q) (best0 : Q) :
  fold_left Py.max accs best0 = best0 \/
  Exists (fun a => a = fold_left Py.max accs best0) accs.
Proof.
  revert best0. induction accs as [|a accs IH]; intros best0; simpl.
  - now left.
  - destruct (IH (Py.max best0 a)) as [E|E].
    + rewrite E. destruct (max_cases best0 a) as [E'|E'];
        [left; exact E'|right; constructor 1; now rewrite E'].
    + right. now constructor 2.
Qed.

Context {FW : Framework}.

Variable train_dataloader val_dataloader : DataLoader.
Variable forward : NeuralNetwork -> tensor -> result tensor.
Variable loss_fn : tensor -> list nat -> Q.
Variable optimizer : SGD.
Variable sh : list nat.

Hypothesis forward_class : forward = Cell23.forward \/ forward = Cell37.forward.
Hypothesis sh_nonempty : sh <> [].
Hypothesis train_ok : loader_ok sh train_dataloader.
Hypothesis val_ok : loader_ok sh val_dataloader.

(** The turns of the loop over the epochs [es]: every turn prints what its
    training pass and its evaluation pass returned, and the score kept is
    the running maximum of the accuracies. *)
Lemma epochs_recorded (es : list nat) (best0 : Q) (s : State) :
  accepts sh (model s) ->
  exists lines s',
    epochs_ran train_dataloader val_dataloader forward loss_fn optimizer
      s es lines s' /\
    for_each (epoch_body train_dataloader val_dataloader forward loss_fn optimizer)
      best0 es s
      = (Ok (fold_left Py.max (map test_correct_of lines) best0), s') /\
    stdout s' = stdout s ++ lines /\
    trace s' = trace s ++
      concat (repeat (epoch_calls (len_dataloader train_dataloader)
                        (len_dataloader val_dataloader)) (length es)) /\
    Forall (fun l => (0 <= test_correct_of l)%Q) lines.
Proof.
  revert best0 s. induction es as [|e es IH]; intros best0 s Hacc.
  - exists [], s. simpl. rewrite !app_nil_r.
    repeat split; constructor.
  - destruct (train_run loss_fn forward_class sh_nonempty randperm_permutation
                optimizer s train_ok Hacc)
      as (train_loss & s1 & Htrain & Hacc1 & Ht1 & Ho1).
    destruct (test_run loss_fn forward_class sh_nonempty randperm_permutation
                s1 val_ok Hacc1)
      as (test_correct & test_loss & s2 & Htest & Hm2 & Ht2 & Ho2 & Hge & _ & _).
    set (l := EpochLine (e + 1) train_loss test_loss test_correct).
    set (s3 := snd (print l s2)).
    assert (Hacc3 : accepts sh (model s3)) by (simpl; rewrite Hm2; exact Hacc1).
    destruct (IH (Py.max best0 test_correct) s3 Hacc3)
      as (lines & s' & Hran & Hloop & Ho & Ht & Hall).
    exists (l :: lines), s'.
    split; [econstructor; eassumption|].
    split.
    { simpl for_each. unfold epoch_body at 1.
      erewrite mbind_ok.
      2:{ erewrite mbind_ok by exact Htrain.
          erewrite mbind_ok by exact Htest.
          unfold mbind, print, ret. simpl. reflexivity. }
      exact Hloop. }
    split; [rewrite Ho; simpl; rewrite Ho2, Ho1; now rewrite <- app_assoc|].
    split.
    { rewrite Ht. simpl. rewrite Ht2, Ht1. unfold epoch_calls.
      now rewrite <- !app_assoc. }
    constructor; [exact Hge|exact Hall].
Qed.

Lemma epochs_ran_numbers (es : list nat) (lines : list line) (s s' : State) :
  epochs_ran train_dataloader val_dataloader forward loss_fn optimizer
    s es lines s' ->
  map epoch_of lines = map (fun e => e + 1) es.
Proof.
  induction 1; simpl; [reflexivity|]. now f_equal.
Qed.

End EpochRecords.

(** C5: the epoch loop with loaders whose batches can be fetched, labels
    that are class indices (the only ones the framework's cross-entropy
    accepts) and a model that accepts the samples.  It completes, after
    exactly [epochs = 50] turns whatever the losses and accuracies are.
    Turn [e] runs one full training pass and then one full evaluation pass,
    in the state the turn before left, and prints the line numbered [e]
    with what these two passes returned; every turn makes the framework
    calls of one training pass over all [len(train_dataloader)] training
    batches followed by those of one evaluation pass over all
    [len(val_dataloader)] validation batches.  The score returned and
    printed at the end is the running maximum of the 50 accuracies that
    [test] returned, starting from 0: no epoch has a larger accuracy, and
    one epoch has this one. *)
Theorem epoch_loop_runs_all_epochs_and_keeps_best {FW : Framework}
  (train_dataloader val_dataloader : DataLoader)
  (forward : NeuralNetwork -> tensor -> result tensor)
  (loss_fn : tensor -> list nat -> Q) (optimizer : SGD)
  (sh : list nat) (st : State) :
  forward = Cell23.forward \/ forward = Cell37.forward ->
  sh <> [] ->
  loader_ok sh train_dataloader ->
  loader_ok sh val_dataloader ->
  labels_fit (model st) train_dataloader ->
  labels_fit (model st) val_dataloader ->
  accepts sh (model st) ->
  exists (lines : list line) (s' : State),
    let best_score := fold_left Py.max (map test_correct_of lines) 0%Q in
    epochs_ran train_dataloader val_dataloader forward loss_fn optimizer
      st (seq 0 epochs) lines s' /\
    epoch_loop train_dataloader val_dataloader forward loss_fn optimizer st
      = (Ok best_score, snd (print (ScoreLine best_score) s')) /\
    epochs = 50 /\ length lines = 50 /\
    stdout (snd (print (ScoreLine best_score) s'))
      = stdout st ++ lines ++ [ScoreLine best_score] /\
    map epoch_of lines = seq 1 epochs /\
    trace (snd (print (ScoreLine best_score) s')) = trace st ++
      concat (repeat (epoch_calls (len_dataloader train_dataloader)
                        (len_dataloader val_dataloader)) epochs) /\
    Forall (fun l => (test_correct_of l <= best_score)%Q) lines /\
    Exists (fun l => (test_correct_of l == best_score)%Q) lines.
Proof.
  intros Hfwd Hsh Htrain Hval _ _ Hacc.
  destruct (epochs_recorded loss_fn optimizer Hfwd Hsh Htrain Hval
              (seq 0 epochs) 0%Q st Hacc)
    as (lines & s' & Hran & Hloop & Ho & Ht & Hall).
  pose proof (epochs_ran_numbers Hran) as He.
  assert (Hlen : length lines = 50).
  { rewrite <- (length_map epoch_of), He, length_map. reflexivity. }
  exists lines, s'. cbv zeta.
  set (best := fold_left Py.max (map test_correct_of lines) 0%Q).
  split; [exact Hran|].
  split.
  { unfold epoch_loop. erewrite mbind_ok by exact Hloop.
    unfold mbind, print, ret. reflexivity. }
  split; [reflexivity|]. split; [exact Hlen|].
  split; [simpl; rewrite Ho; now rewrite <- app_assoc|].
  split; [rewrite He; reflexivity|].
  split; [simpl; rewrite Ht, length_seq; reflexivity|].
  split.
  - pose proof (fold_max_bounds (map test_correct_of lines) 0%Q) as Hb.
    fold best in Hb. rewrite Forall_map in Hb. exact Hb.
  - destruct (fold_max_attained (map test_correct_of lines) 0%Q) as [E|E];
      fold best in E.
    + destruct lines as [|l lines]; [discriminate Hlen|].
      constructor 1. inversion Hall as [|? ? H0 _]; subst.
      apply Qle_antisym; [|rewrite E; exact H0].
      pose proof (fold_max_bounds (map test_correct_of (l :: lines)) 0%Q) as Hb.
      fold best in Hb. inversion Hb; assumption.
    + rewrite Exists_map in E.
      eapply Exists_impl; [|exact E]. intros l ->. reflexivity.
Qed.


(* ================================================================= *)
(** ** The statements on the concrete instance *)

Section DemoRuns.

Lemma demo_randperm (n : nat) (r : @Rng Demo.framework) :
  Permutation (fst (@randperm Demo.framework n r)) (seq 0 n).
Proof. apply randperm_permutation. Qed.

Lemma demo_val_ok :
  @loader_ok Demo.framework [3; 1; 1]
    (Demo.val_dataloader Demo.data_test).
Proof.
  apply (@static_loader_ok Demo.framework _ Demo.samples_test).
  - apply demo_static.
  - apply demo_shaped.
  - discriminate.
  - simpl; lia.
Qed.

Lemma demo_train_ok :
  @loader_ok Demo.framework [3; 1; 1]
    (Demo.train_dataloader Demo.data_train).
Proof.
  apply (@static_loader_ok Demo.framework _ (Demo.as_samples Demo.data_train)).
  - exact (demo_static Demo.data_train).
  - unfold samples_shaped. repeat (constructor; [split; reflexivity|]).
    constructor.
  - discriminate.
  - simpl; lia.
Qed.

Lemma demo_accepts : accepts [3; 1; 1] Demo.net.
Proof. split; [reflexivity|]. split; [split; reflexivity|]. simpl; lia. Qed.

End DemoRuns.



(** The walkthrough run on the demo folders. *)
Lemma epoch_loop_runs_all_epochs_and_keeps_best_witness :
  exists (lines : list line) (s' : State),
    let best_score := fold_left Py.max (map test_correct_of lines) 0%Q in
    epochs_ran (Demo.train_dataloader Demo.data_train)
      (Demo.val_dataloader Demo.data_test) Cell23.forward
      (@Cell26.loss_fn Demo.framework) Cell26.optimizer
      Demo.state0 (seq 0 50) lines s' /\
    @Cell32.run Demo.framework Demo.data_train Demo.data_test Demo.state0
      = (Ok best_score, snd (print (ScoreLine best_score) s')) /\
    map epoch_of lines = seq 1 50 /\
    Forall (fun l => (test_correct_of l <= best_score)%Q) lines.
Proof.
  destruct (@epoch_loop_runs_all_epochs_and_keeps_best Demo.framework
              (Demo.train_dataloader Demo.data_train)
              (Demo.val_dataloader Demo.data_test)
              Cell23.forward (@Cell26.loss_fn Demo.framework) Cell26.optimizer
              [3; 1; 1] Demo.state0)
    as (lines & s' & Hran & Hrun & _ & _ & _ & Hep & _ & Hall & _).
  - left; reflexivity.
  - discriminate.
  - apply demo_train_ok.
  - apply demo_val_ok.
  - unfold labels_fit, Demo.train_dataloader, Demo.data_train. simpl.
    repeat (constructor; [simpl; lia|]). constructor.
  - unfold labels_fit, Demo.val_dataloader, Demo.data_test. simpl.
    repeat (constructor; [simpl; lia|]). constructor.
  - apply demo_accepts.
  - exists lines, s'. cbv zeta in *.
    split; [exact Hran|]. split; [exact Hrun|]. split; [exact Hep|exact Hall].
Defined.

(** The training step on the demo batch, from a state whose gradient
    buffers are filled by an earlier step. *)
Lemma train_step_order_and_fresh_gradients_witness :
  let out := train_step Cell23.forward (mean_reduction Demo.zero_one)
               {| lr := 1 # 100 |} (Demo.batch, Demo.labels) Demo.state1 in
  (exists loss, fst out = Ok loss /\ (loss == 0)%Q) /\
  trace (snd out) = trace Demo.state1 ++
    [CallForward; CallLoss; CallZeroGrad; CallBackward; CallStep] /\
  grad (param_of (model (snd out)) last_0_bias) =
    Some (Tensor [2] [1; 1]%Q).
Proof.
  intros out. unfold out.
  edestruct (@train_step_order_and_fresh_gradients Demo.framework
               Cell23.forward (mean_reduction Demo.zero_one)
               {| lr := 1 # 100 |} Demo.batch Demo.labels)
    with (st := Demo.state1) as (Hret & Htrace & Hgrad & _).
  - vm_compute. reflexivity.
  - intros name buffer. destruct name; vm_compute;
      intros H; inversion H; split; reflexivity.
  - split; [|split].
    + eexists. split; [exact Hret|]. vm_compute. reflexivity.
    + exact Htrace.
    + rewrite Hgrad. vm_compute. reflexivity.
Defined.

(** The forward passes on the demo batch: the scores of the two pictures
    are their first two numbers. *)
Lemma forward_is_flatten_linear_relu_chain_witness :
  exists scores : tensor,
    Cell23.forward Demo.net Demo.batch = Ok scores /\
    Cell37.forward Demo.net Demo.batch = Ok scores /\
    shape scores = [2; 2] /\
    Forall2 Qeq (data scores) [1; 0; 0; 2]%Q.
Proof.
  destruct (@forward_is_flatten_linear_relu_chain Demo.net Demo.batch 2 [3; 1; 1])
    as [H23 H37].
  - reflexivity.
  - discriminate.
  - reflexivity.
  - split; reflexivity.
  - eexists. split; [exact H23|]. split; [exact H37|].
    split; [reflexivity|].
    vm_compute. repeat (constructor; [reflexivity|]). constructor.
Defined.

(* ================================================================= *)
(** ** Further properties: the forward functions on any input *)

Section ForwardOutcome.

Variable self : NeuralNetwork.

(** The walkthrough forward pass on an arbitrary tensor. *)
Lemma forward_cases (x : tensor) :
  Cell23.forward self x =
  match shape x with
  | n :: d :: rest =>
      if (numel (d :: rest) =? in_features (stack_0 self))
         && (out_features (stack_0 self) =? in_features (stack_2 self))
         && (out_features (stack_2 self) =? in_features (last_0 self))
      then Ok (Tensor [n; out_features (last_0 self)]
                 (flat_map (fun i => mlp self (row (numel (d :: rest)) i (data x)))
                    (seq 0 n)))
      else Raise RuntimeError
  | _ => Raise IndexError
  end.
Proof.
  destruct (shape x) as [|n [|d rest]] eqn:Hs.
  - unfold Cell23.forward, flatten. now rewrite Hs.
  - unfold Cell23.forward, flatten. now rewrite Hs.
  - destruct (Nat.eqb_spec (numel (d :: rest)) (in_features (stack_0 self)))
      as [Hin|Hin].
    + destruct (Nat.eqb_spec (out_features (stack_0 self))
                  (in_features (stack_2 self))) as [H02|H02].
      * destruct (Nat.eqb_spec (out_features (stack_2 self))
                    (in_features (last_0 self))) as [H2l|H2l].
        -- simpl andb. cbv iota.
           apply forward_batch; [exact Hs|discriminate|exact Hin|].
           split; assumption.
        -- simpl andb. cbv iota. unfold Cell23.forward.
           rewrite (flatten1_batch x Hs) by discriminate.
           cbv beta iota delta [Py.bind].
           rewrite linear_relu_stack_matrix, Hin, Nat.eqb_refl, H02, Nat.eqb_refl.
           cbv beta iota delta [Py.bind last_layer Sequential fold_left].
           rewrite Linear_forward_matrix.
           destruct (Nat.eqb_spec (out_features (stack_2 self)) (in_features (last_0 self))).
           ++ contradiction.
           ++ reflexivity.
      * simpl andb. cbv iota. unfold Cell23.forward.
        rewrite (flatten1_batch x Hs) by discriminate.
           cbv beta iota delta [Py.bind].
        rewrite linear_relu_stack_matrix, Hin, Nat.eqb_refl.
        destruct (Nat.eqb_spec (out_features (stack_0 self))
                    (in_features (stack_2 self))); [contradiction|reflexivity].
    + simpl andb. cbv iota. unfold Cell23.forward.
      rewrite (flatten1_batch x Hs) by discriminate.
           cbv beta iota delta [Py.bind].
      rewrite linear_relu_stack_matrix.
      destruct (Nat.eqb_spec (numel (d :: rest)) (in_features (stack_0 self)));
        [contradiction|reflexivity].
Qed.

End ForwardOutcome.

(** X1: what the two forward functions do on any float32 tensor, of
    whatever shape.  (The tensors of this development hold numbers of the
    parameters' element type, float32, as the tensors that [ToTensor]
    produces do; a tensor of another element type, such as a tensor of
    integers, which the linear layers refuse for its type, is not one of
    them.)  A tensor with fewer than two dimensions is refused with
    [IndexError] (there is nothing to flatten from dimension 1); a batch
    whose flattened sample size is not the input size of the first layer,
    or a model whose layer sizes do not fit together, ends in
    [RuntimeError]; in every other case the result is the score matrix with
    one row per sample.  Both versions of the class behave alike in each
    case. *)
Theorem forward_outcome_on_any_float32_tensor (self : NeuralNetwork) (x : tensor) :
  let outcome :=
    match shape x with
    | n :: d :: rest =>
        if (numel (d :: rest) =? in_features (stack_0 self))
           && (out_features (stack_0 self) =? in_features (stack_2 self))
           && (out_features (stack_2 self) =? in_features (last_0 self))
        then Ok (Tensor [n; out_features (last_0 self)]
                   (flat_map (fun i => mlp self (row (numel (d :: rest)) i (data x)))
                      (seq 0 n)))
        else Raise RuntimeError
    | _ => Raise IndexError
    end in
  Cell23.forward self x = outcome /\ Cell37.forward self x = outcome.
Proof.
  intros outcome. split.
  - apply forward_cases.
  - rewrite extra_flatten_is_identity. apply forward_cases.
Qed.

Section ConstructedModel.

Lemma flat_map_length_const {A : Type} (m : nat) (f : A -> list Q) (l : list A) :
  (forall a, length (f a) = m) -> length (flat_map f l) = length l * m.
Proof.
  intros Hf. induction l as [|a l IH]; simpl; [reflexivity|].
  now rewrite length_app, Hf, IH.
Qed.

Lemma mlp_length (net : NeuralNetwork) (v : list Q) :
  length (mlp net v) = out_features (last_0 net).
Proof. unfold mlp. apply affine_length. Qed.

End ConstructedModel.

(** X2: a model built by the constructor, whatever its weights, turns any
    batch of [n] pictures of shape [3 x 64 x 64] into an [n x 8] score
    matrix ([8 * n] scores, one per entry of [classes] and per picture); a
    single picture of shape [3 x 64 x 64] passed without a batch dimension
    is refused with [RuntimeError], in both versions of the class. *)
Theorem constructed_model_scores_eight_classes
  (w0 b0 w2 b2 wl bl : list Q) (n : nat) (d : list Q) :
  let net := NeuralNetwork_init w0 b0 w2 b2 wl bl in
  (exists scores : tensor,
     Cell23.forward net (Tensor [n; 3; 64; 64] d) = Ok scores /\
     Cell37.forward net (Tensor [n; 3; 64; 64] d) = Ok scores /\
     shape scores = [n; length Cell9.classes] /\
     length (data scores) = n * 8) /\
  Cell23.forward net (Tensor [3; 64; 64] d) = Raise RuntimeError /\
  Cell37.forward net (Tensor [3; 64; 64] d) = Raise RuntimeError.
Proof.
  intros net.
  assert (Hbatch : exists data',
            Cell23.forward net (Tensor [n; 3; 64; 64] d) = Ok (Tensor [n; 8] data')
            /\ length data' = n * 8).
  { rewrite forward_cases. eexists. split; [reflexivity|].
    erewrite flat_map_length_const, length_seq; [reflexivity|].
    intros i. apply mlp_length. }
  assert (Hsingle : Cell23.forward net (Tensor [3; 64; 64] d) = Raise RuntimeError).
  { rewrite forward_cases. reflexivity. }
  destruct Hbatch as (data' & Hrun & Hlen).
  split; [|split].
  - exists (Tensor [n; 8] data'). rewrite extra_flatten_is_identity. auto.
  - exact Hsingle.
  - now rewrite extra_flatten_is_identity.
Qed.

(* ================================================================= *)
(** ** Further properties: predictions *)

Section Predictions.

Lemma argmax_from_bound (l : list Q) (best : Q) (ibest i : nat) :
  ibest < i -> argmax_from best ibest i l < i + length l.
Proof.
  revert best ibest i. induction l as [|q l IH]; intros best ibest i Hi; simpl.
  - lia.
  - destruct (Qle_bool q best).
    + specialize (IH best ibest (S i)). lia.
    + specialize (IH q i (S i)). lia.
Qed.

(** The index of the largest score is an index of the list. *)
Lemma argmax_list_bound (l : list Q) : l <> [] -> argmax_list l < length l.
Proof.
  destruct l as [|q l]; [contradiction|]. intros _. simpl.
  pose proof (@argmax_from_bound l q 0 1). lia.
Qed.

Lemma subscript_in_range {A : Type} (l : list A) (i : nat) :
  i < length l -> exists a, subscript l i = Ok a.
Proof.
  intros Hi. unfold subscript.
  destruct (nth_error l i) as [a|] eqn:E; [eauto|].
  apply nth_error_None in E. lia.
Qed.

Variable forward : NeuralNetwork -> tensor -> result tensor.
Hypothesis forward_class : forward = Cell23.forward \/ forward = Cell37.forward.

(** A prediction that succeeds is one class index below the number of
    classes. *)
Lemma predict_in_range (net : NeuralNetwork) (x : tensor) (cs : list nat) :
  Cell40.predict forward net x = Ok cs ->
  exists c, cs = [c] /\ c < out_features (last_0 net).
Proof.
  unfold Cell40.predict.
  rewrite (forward_is_walkthrough forward_class), forward_cases.
  unfold unsqueeze0. simpl shape.
  destruct (shape x) as [|d rest]; [discriminate|].
  destruct (_ && _); [|discriminate].
  cbv beta iota delta [Py.bind]. unfold argmax1. simpl shape. cbv beta iota.
  destruct (Nat.eqb_spec (out_features (last_0 net)) 0) as [E|E]; [discriminate|].
  intros H; inversion H; subst. simpl. eexists. split; [reflexivity|].
  rewrite app_nil_r.
  set (scores := mlp net _).
  assert (Hlen : length scores = out_features (last_0 net)) by apply mlp_length.
  assert (Hrow : row (out_features (last_0 net)) 0 scores = scores).
  { unfold row. simpl. rewrite <- Hlen. apply firstn_all. }
  rewrite Hrow, <- Hlen. apply argmax_list_bound.
  intros E'. rewrite E' in Hlen. simpl in Hlen. lia.
Qed.

End Predictions.

(** X3: the classes computed for a batch are, sample by sample, the classes
    the prediction cell computes for each sample on its own.  For samples of
    one shape that the model accepts, taking the highest-scoring class of
    every row of the batch's score matrix gives the list whose entry for a
    sample is what [model(x.unsqueeze(0)).argmax(1)] returns for it. *)
Theorem batch_predictions_are_per_sample_predictions
  (forward : NeuralNetwork -> tensor -> result tensor)
  (net : NeuralNetwork) (sh : list nat) (chunk : list (tensor * nat)) :
  forward = Cell23.forward \/ forward = Cell37.forward ->
  sh <> [] ->
  accepts sh net ->
  samples_shaped sh chunk ->
  exists classes : list nat,
    (preds <- forward net (batch_tensor sh chunk) ;; argmax1 preds)%result
      = Ok classes /\
    Forall2 (fun s c => Cell40.predict forward net (fst s) = Ok [c])
      chunk classes.
Proof.
  intros Hfwd Hsh (Hin & Hch & Hc) Hall.
  exists (map (fun s => highest_scoring_class net (fst s)) chunk). split.
  - rewrite (forward_is_walkthrough Hfwd).
    rewrite (@forward_stacked net sh Hsh Hin Hch chunk).
    + simpl. now apply argmax1_scores.
    + eapply Forall_impl; [|exact Hall]. simpl. tauto.
  - unfold samples_shaped in Hall.
    induction Hall as [|s chunk [Hs Hl] _ IH]; simpl; constructor; [|exact IH].
    unfold Cell40.predict. rewrite (forward_is_walkthrough Hfwd).
    now apply (@predict_highest_scoring_class net sh).
Qed.

(** On two demo pictures. *)
Lemma batch_predictions_are_per_sample_predictions_witness :
  exists classes : list nat,
    (preds <- Cell23.forward Demo.net
                (batch_tensor [3; 1; 1] (Demo.as_samples Demo.data_train)) ;;
     argmax1 preds)%result = Ok classes /\
    Forall2 (fun s c => Cell40.predict Cell23.forward Demo.net (fst s) = Ok [c])
      (Demo.as_samples Demo.data_train) classes.
Proof.
  apply batch_predictions_are_per_sample_predictions.
  - left; reflexivity.
  - discriminate.
  - split; [reflexivity|]. split; [split; reflexivity|]. simpl; lia.
  - unfold samples_shaped. repeat (constructor; [split; reflexivity|]).
    constructor.
Defined.

(** X4: every prediction of an eight-class model has a class name.  When
    the prediction cell succeeds on a sample, with either version of the
    class and a model whose last layer has 8 outputs, it returns exactly one
    class index, the index is below 8, and [classes[index]] is defined. *)
Theorem prediction_has_a_class_name
  (forward : NeuralNetwork -> tensor -> result tensor)
  (net : NeuralNetwork) (x : tensor) (cs : list nat) :
  forward = Cell23.forward \/ forward = Cell37.forward ->
  out_features (last_0 net) = 8 ->
  Cell40.predict forward net x = Ok cs ->
  exists (c : nat) (name : String.string),
    cs = [c] /\ c < 8 /\ subscript Cell9.classes c = Ok name.
Proof.
  intros Hfwd H8 Hrun.
  destruct (predict_in_range Hfwd net x Hrun) as (c & -> & Hc).
  rewrite H8 in Hc.
  destruct (@subscript_in_range _ Cell9.classes c Hc) as (name & Hname).
  exists c, name. auto.
Qed.

(** On the eight-class demo model. *)
Lemma prediction_has_a_class_name_witness :
  exists (c : nat) (name : String.string),
    Cell40.predict Cell37.forward DemoExtra.net8 DemoExtra.picture = Ok [c] /\
    c < 8 /\ subscript Cell9.classes c = Ok name.
Proof.
  destruct (@prediction_has_a_class_name Cell37.forward DemoExtra.net8
              DemoExtra.picture [5]) as (c & name & Hcs & Hc & Hname).
  - right; reflexivity.
  - reflexivity.
  - vm_compute. reflexivity.
  - exists c, name. inversion Hcs; subst. repeat split; assumption || (vm_compute; reflexivity).
Defined.

(* ================================================================= *)
(** ** Further properties: the prediction plot of the last cell *)

Section PlotLoop.

Context {Img : Type}.

Variable labels : list nat.
Variable preds : list (list nat).

Lemma subscript_class_name (c : nat) :
  c < 8 -> subscript Cell9.classes c = Ok (class_name c).
Proof.
  intros Hc. unfold subscript, class_name.
  now rewrite (nth_error_nth' Cell9.classes String.EmptyString Hc).
Qed.

Lemma place_in_grid (i : nat) :
  i < 81 -> Cell40Plot.axs (i / 9) (i mod 9) = Ok (place i).
Proof.
  intros Hi. unfold Cell40Plot.axs, Cell40Plot.nrows, Cell40Plot.ncols.
  assert (H1 : i / 9 < 9) by (apply Nat.Div0.div_lt_upper_bound; lia).
  assert (H2 : i mod 9 < 9) by (apply Nat.mod_upper_bound; lia).
  apply Nat.ltb_lt in H1, H2. now rewrite H1, H2.
Qed.

Lemma place_off_grid (i : nat) :
  81 <= i -> Cell40Plot.axs (i / 9) (i mod 9) = Raise IndexError.
Proof.
  intros Hi. unfold Cell40Plot.axs, Cell40Plot.nrows, Cell40Plot.ncols.
  assert (H1 : 9 <= i / 9) by (apply Nat.div_le_lower_bound; lia).
  apply Nat.ltb_ge in H1. now rewrite H1.
Qed.

Lemma place_injective (i j : nat) : place i = place j -> i = j.
Proof.
  unfold place. intros H. inversion H as [[Hd Hm]].
  rewrite (Nat.div_mod_eq i 9), (Nat.div_mod_eq j 9). congruence.
Qed.

(** One picture that fits: its panel is added. *)
Lemma plot_step_ok (shown : list (Cell40Plot.panel Img)) (i : nat) (img : Img)
  (l c : nat) :
  i < 81 -> nth_error labels i = Some l -> l < 8 ->
  nth_error preds i = Some [c] -> c < 8 ->
  Cell40Plot.plot_step labels preds shown (i, img) =
  Ok (shown ++ [(place i, img, (class_name l, class_name c))]).
Proof.
  intros Hi Hl Hl8 Hc Hc8. unfold Cell40Plot.plot_step.
  rewrite (place_in_grid Hi). unfold subscript at 1 3. rewrite Hl, Hc.
  cbv beta iota delta [Py.bind Cell40Plot.index].
  rewrite (subscript_class_name Hl8). cbv beta iota.
  now rewrite (subscript_class_name Hc8).
Qed.

(** One picture beyond the grid. *)
Lemma plot_step_overflow (shown : list (Cell40Plot.panel Img)) (i : nat)
  (img : Img) :
  81 <= i -> Cell40Plot.plot_step labels preds shown (i, img) = Raise IndexError.
Proof.
  intros Hi. unfold Cell40Plot.plot_step. now rewrite (place_off_grid Hi).
Qed.

(** With one-element predictions, a picture is added or the loop ends in an
    [IndexError]. *)
Lemma plot_step_outcome (shown : list (Cell40Plot.panel Img)) (entry : nat * Img) :
  Forall (fun t => length t = 1) preds ->
  Cell40Plot.plot_step labels preds shown entry = Raise IndexError \/
  exists p, Cell40Plot.plot_step labels preds shown entry = Ok (shown ++ [p]).
Proof.
  intros Hone. destruct entry as [i img].
  unfold Cell40Plot.plot_step, subscript, Py.bind.
  destruct (Cell40Plot.axs (i / 9) (i mod 9)) as [ax|e] eqn:Hax.
  2:{ left. unfold Cell40Plot.axs in Hax.
      destruct (_ && _); [discriminate|]. now inversion Hax. }
  destruct (nth_error labels i) as [l|]; [|now left].
  destruct (nth_error Cell9.classes l) as [real|]; [|now left].
  destruct (nth_error preds i) as [t|] eqn:Ht; [|now left].
  apply nth_error_In in Ht.
  assert (Hlen : length t = 1)
    by (exact (proj1 (Forall_forall _ preds) Hone t Ht)).
  destruct t as [|c [|c' t']]; try discriminate.
  unfold Cell40Plot.index.
  destruct (nth_error Cell9.classes c) as [pred|]; [|now left].
  right. eexists. reflexivity.
Qed.

Lemma plot_from_ok (classes : list nat) (imgs : list Img) :
  preds = map (fun c => [c]) classes ->
  Forall (fun l => l < 8) labels -> Forall (fun c => c < 8) classes ->
  forall (a : nat) (shown : list (Cell40Plot.panel Img)),
    a + length imgs <= 81 ->
    a + length imgs <= length labels -> a + length imgs <= length classes ->
    Cell40Plot.plot_from labels preds shown (combine (seq a (length imgs)) imgs) =
    Ok (shown ++
        map (fun entry : nat * Img =>
               (place (fst entry), snd entry,
                (class_name (nth (fst entry) labels 0),
                 class_name (nth (fst entry) classes 0))))
          (combine (seq a (length imgs)) imgs)).
Proof.
  intros Hp Hlab Hcls.
  induction imgs as [|img imgs IH]; intros a shown H81 Hl Hc.
  - simpl. now rewrite app_nil_r.
  - simpl length in *. unfold Cell40Plot.plot_from in *.
    cbn [seq combine for_each_r map fst snd].
    assert (Hla : a < length labels) by lia.
    assert (Hca : a < length classes) by lia.
    erewrite (@plot_step_ok shown a img (nth a labels 0) (nth a classes 0)).
    + cbv beta iota delta [Py.bind]. rewrite IH by lia.
      now rewrite <- app_assoc.
    + lia.
    + now apply nth_error_nth'.
    + apply (proj1 (Forall_forall _ labels) Hlab). now apply nth_In.
    + rewrite Hp, nth_error_map, (nth_error_nth' classes 0 Hca). reflexivity.
    + apply (proj1 (Forall_forall _ classes) Hcls). now apply nth_In.
Qed.

Lemma plot_from_overflow (imgs : list Img) :
  Forall (fun t => length t = 1) preds ->
  forall (a : nat) (shown : list (Cell40Plot.panel Img)),
    81 < a + length imgs -> imgs <> [] ->
    Cell40Plot.plot_from labels preds shown (combine (seq a (length imgs)) imgs) =
    Raise IndexError.
Proof.
  intros Hone. unfold Cell40Plot.plot_from.
  induction imgs as [|img imgs IH]; intros a shown H81 Hne; [contradiction|].
  simpl length in *. cbn [seq combine for_each_r].
  destruct (Nat.le_gt_cases 81 a) as [Hbig|Hsmall].
  - now rewrite (plot_step_overflow shown img Hbig).
  - destruct (plot_step_outcome shown (a, img) Hone) as [Hr|(p & Hr)];
      rewrite Hr; [reflexivity|].
    cbv beta iota delta [Py.bind]. apply IH; [lia|].
    destruct imgs; [simpl in H81; lia|discriminate].
Qed.

End PlotLoop.

Section ListFacts.

Context {A B : Type}.

Lemma nth_error_combine (l1 : list A) (l2 : list B) (i : nat) (a : A) (b : B) :
  nth_error l1 i = Some a -> nth_error l2 i = Some b ->
  nth_error (combine l1 l2) i = Some (a, b).
Proof.
  revert l2 i. induction l1 as [|a1 l1 IH]; intros l2 i H1 H2.
  - destruct i; discriminate.
  - destruct l2 as [|b2 l2]; [destruct i; discriminate|].
    destruct i as [|i]; simpl in *; [congruence|]. now apply IH.
Qed.

Lemma nth_error_combine_inv (l1 : list A) (l2 : list B) (i : nat) (e : A * B) :
  nth_error (combine l1 l2) i = Some e ->
  nth_error l1 i = Some (fst e) /\ nth_error l2 i = Some (snd e).
Proof.
  revert l2 i. induction l1 as [|a1 l1 IH]; intros l2 i H.
  - destruct i; discriminate.
  - destruct l2 as [|b2 l2]; [destruct i; discriminate|].
    destruct i as [|i]; simpl in *; [|now apply IH].
    inversion H; subst. auto.
Qed.

Lemma map_fst_combine (l1 : list A) (l2 : list B) :
  length l1 = length l2 -> map fst (combine l1 l2) = l1.
Proof.
  revert l2. induction l1 as [|a1 l1 IH]; intros [|b2 l2] H;
    try discriminate; [reflexivity|].
  simpl. f_equal. apply IH. now inversion H.
Qed.

Lemma map_snd_combine (l1 : list A) (l2 : list B) :
  length l1 = length l2 -> map snd (combine l1 l2) = l2.
Proof.
  revert l2. induction l1 as [|a1 l1 IH]; intros [|b2 l2] H;
    try discriminate; [reflexivity|].
  simpl. f_equal. apply IH. now inversion H.
Qed.

End ListFacts.

Section CollectLoop.

Context {FW : Framework}.

Variable forward : NeuralNetwork -> tensor -> result tensor.
Variable val_set : ImageFolder.
Variable samples : list (tensor * nat).
Variable sh : list nat.

Hypothesis forward_class : forward = Cell23.forward \/ forward = Cell37.forward.
Hypothesis val_static : static_dataset val_set samples.
Hypothesis val_shaped : samples_shaped sh samples.
Hypothesis sh_nonempty : sh <> [].

Lemma highest_scoring_class_bound (net : NeuralNetwork) (x : tensor) :
  0 < out_features (last_0 net) ->
  highest_scoring_class net x < out_features (last_0 net).
Proof.
  intros Hc. unfold highest_scoring_class.
  pose proof (mlp_length net (data x)) as Hlen.
  assert (Hne : mlp net (data x) <> []).
  { intros E. rewrite E in Hlen. simpl in Hlen. lia. }
  pose proof (argmax_list_bound Hne). lia.
Qed.

(** The loop body on a sample the model accepts: one forward call, and the
    file, the label and the highest-scoring class are appended. *)
Lemma collect_step_static (il : list Image) (ls : list nat)
  (ps : list (list nat)) (i : nat) (file : Image * nat) (x : tensor) (y : nat)
  (s : State) :
  accepts sh (model s) ->
  nth_error (imgs val_set) i = Some file ->
  shape x = sh -> length (data x) = numel sh ->
  Cell40Plot.collect_step forward val_set (il, ls, ps) (i, (TensorV x, y)) s =
  (Ok (il ++ [fst file], ls ++ [y],
       ps ++ [[highest_scoring_class (model s) x]]),
   {| model := model s; rng := rng s; stdout := stdout s;
      trace := trace s ++ [CallForward] |}).
Proof.
  intros (Hin & Hch & Hc) Hfile Hx Hlen.
  pose proof (@predict_highest_scoring_class (model s) sh sh_nonempty Hin Hch
                x Hc Hx Hlen) as Hpred.
  unfold Cell40.predict in Hpred.
  unfold Cell40Plot.collect_step, subscript. rewrite Hfile.
  unfold call_model, mbind, lift, as_tensor, tick, get_model, ret. simpl.
  rewrite (forward_is_walkthrough forward_class).
  destruct (Cell23.forward (model s) (unsqueeze0 x)) as [pred|e];
    [|discriminate].
  simpl in Hpred. rewrite Hpred. reflexivity.
Qed.

(** The first loop of the last cell over a split with fixed samples. *)
Lemma collect_loop (es : list ((Image * nat) * (tensor * nat))) :
  forall (a : nat) (il : list Image) (ls : list nat) (ps : list (list nat))
         (s : State),
    (forall j e, nth_error es j = Some e ->
       nth_error (imgs val_set) (a + j) = Some (fst e) /\
       nth_error samples (a + j) = Some (snd e)) ->
    a + length es = len_dataset val_set ->
    accepts sh (model s) ->
    exists s',
      Cell40Plot.iter_getitem (getitem val_set)
        (Cell40Plot.collect_step forward val_set) (il, ls, ps)
        (seq a (S (length es))) s =
      (Ok (il ++ map (fun e => fst (fst e)) es,
           ls ++ map (fun e => snd (snd e)) es,
           ps ++ map (fun e => [highest_scoring_class (model s) (fst (snd e))]) es),
       s') /\
      model s' = model s /\ stdout s' = stdout s /\
      trace s' = trace s ++ repeat CallForward (length es).
Proof.
  induction es as [|e es IH]; intros a il ls ps s Hes Hlen Hacc.
  - exists s. simpl in Hlen. simpl. unfold getitem.
    assert (Hnone : nth_error (imgs val_set) a = None).
    { apply nth_error_None. unfold len_dataset in Hlen. lia. }
    rewrite Hnone. unfold lift. rewrite !app_nil_r. auto.
  - destruct (Hes 0 e eq_refl) as [Hfile Hsample].
    rewrite Nat.add_0_r in Hfile, Hsample.
    destruct e as [file [x y]]. simpl fst in *. simpl snd in *.
    assert (Hshape : shape x = sh /\ length (data x) = numel sh).
    { apply nth_error_In in Hsample.
      exact (proj1 (Forall_forall _ samples) val_shaped (x, y) Hsample). }
    destruct Hshape as [Hx Hdata].
    simpl length.
    change (seq a (S (S (length es)))) with (a :: seq (S a) (S (length es))).
    cbn [Cell40Plot.iter_getitem].
    destruct val_static as [_ Hget]. rewrite (Hget a x y s Hsample).
    unfold mbind.
    erewrite collect_step_static;
      [|exact Hacc|exact Hfile|exact Hx|exact Hdata].
    set (s1 := {| model := model s; rng := rng s; stdout := stdout s;
                  trace := trace s ++ [CallForward] |}).
    destruct (IH (S a) (il ++ [fst file]) (ls ++ [y])
                (ps ++ [[highest_scoring_class (model s) x]]) s1)
      as (s' & Hrun & Hm & Ho & Ht).
    + intros j e' He'. destruct (Hes (S j) e' He') as [H1 H2].
      rewrite Nat.add_succ_r in H1, H2. auto.
    + simpl in Hlen. lia.
    + exact Hacc.
    + exists s'. rewrite Hrun. simpl model in *. simpl stdout in *.
      simpl trace in *. simpl map. rewrite <- !app_assoc. simpl.
      repeat split; try assumption.
      rewrite Ht, <- app_assoc. reflexivity.
Qed.

(** What the first loop hands to the plot. *)
Lemma collect_static (s : State) :
  accepts sh (model s) ->
  exists s',
    Cell40Plot.collect forward val_set s =
    (Ok (map fst (imgs val_set), map snd samples,
         map (fun c => [c])
           (map (fun smp => highest_scoring_class (model s) (fst smp)) samples)),
     s') /\
    model s' = model s /\ stdout s' = stdout s /\
    trace s' = trace s ++ repeat CallForward (length samples).
Proof.
  intros Hacc. unfold Cell40Plot.collect.
  assert (Hlen : length samples = length (imgs val_set))
    by (destruct val_static as [Hl _]; exact Hl).
  assert (Hes : length (combine (imgs val_set) samples) = length samples)
    by (rewrite length_combine; lia).
  destruct (@collect_loop (combine (imgs val_set) samples) 0 [] [] [] s)
    as (s' & Hrun & Hm & Ho & Ht).
  - intros j e He. simpl. now apply nth_error_combine_inv.
  - rewrite Hes. simpl. exact Hlen.
  - exact Hacc.
  - exists s'. rewrite Hes in Hrun, Ht. unfold len_dataset. rewrite <- Hlen.
    rewrite Hrun. simpl app.
    rewrite <- (map_map fst fst), <- (map_map snd snd).
    rewrite <- (map_map snd (fun smp => [highest_scoring_class (model s) (fst smp)])).
    rewrite map_fst_combine, map_snd_combine by (symmetry; exact Hlen).
    rewrite (map_map _ (fun c => [c])). auto.
Qed.

End CollectLoop.

(** X5: the last cell shows every validation picture once, with the right
    names.  For a validation split of at most 81 samples of one shape with
    labels below 8, and an eight-class model that accepts them, the cell
    succeeds with one panel per sample; the panels sit at pairwise different
    places of the 9 x 9 grid, and the panel of sample [i] sits at row
    [i // 9], column [i % 9], shows the file of entry [i], and is titled
    with the class name of the sample's label and the class name of the
    class the model scores highest for the sample. *)
Theorem prediction_plot_shows_every_validation_picture {FW : Framework}
  (forward : NeuralNetwork -> tensor -> result tensor) (val_set : ImageFolder)
  (samples : list (tensor * nat)) (sh : list nat) (st : State) :
  forward = Cell23.forward \/ forward = Cell37.forward ->
  static_dataset val_set samples -> samples_shaped sh samples -> sh <> [] ->
  accepts sh (model st) -> out_features (last_0 (model st)) = 8 ->
  Forall (fun s => snd s < 8) samples ->
  length samples <= 81 ->
  exists panels,
    fst (Cell40Plot.run forward val_set st) = Ok panels /\
    length panels = length samples /\
    NoDup (map (fun p : Cell40Plot.panel Image => fst (fst p)) panels) /\
    forall i file x y,
      nth_error (imgs val_set) i = Some file ->
      nth_error samples i = Some (x, y) ->
      exists real pred,
        nth_error panels i = Some ((i / 9, i mod 9), fst file, (real, pred)) /\
        i / 9 < 9 /\ i mod 9 < 9 /\
        subscript Cell9.classes y = Ok real /\
        subscript Cell9.classes (highest_scoring_class (model st) x) = Ok pred.
Proof.
  intros Hfwd Hstatic Hshaped Hsh Hacc H8 Hlabels H81.
  destruct (collect_static Hfwd Hstatic Hshaped Hsh st Hacc)
    as (s' & Hrun & _).
  assert (Hlen : length samples = length (imgs val_set))
    by (destruct Hstatic as [Hl _]; exact Hl).
  set (image_list := map fst (imgs val_set)) in *.
  set (labels := map snd samples) in *.
  set (classes := map (fun smp => highest_scoring_class (model st) (fst smp))
                    samples) in *.
  assert (Hli : length image_list = length samples)
    by (unfold image_list; rewrite length_map; lia).
  assert (Hll : length labels = length samples)
    by (unfold labels; now rewrite length_map).
  assert (Hlc : length classes = length samples)
    by (unfold classes; now rewrite length_map).
  assert (Hclasses : Forall (fun c => c < 8) classes).
  { unfold classes. apply Forall_forall. intros c Hc.
    apply in_map_iff in Hc as (smp & <- & _). rewrite <- H8.
    apply highest_scoring_class_bound. destruct Hacc as (_ & _ & Hc). exact Hc. }
  assert (Hlabs : Forall (fun l => l < 8) labels).
  { unfold labels. apply Forall_forall. intros l Hl.
    apply in_map_iff in Hl as (smp & <- & Hin).
    exact (proj1 (Forall_forall _ samples) Hlabels smp Hin). }
  eexists. split; [|split; [|split]].
  - unfold Cell40Plot.run, mbind. rewrite Hrun. unfold lift. simpl fst.
    unfold Cell40Plot.plot, enumerate.
    rewrite (@plot_from_ok Image labels _ classes image_list eq_refl Hlabs Hclasses
               0 []) by (simpl; lia).
    reflexivity.
  - simpl app. rewrite length_map, length_combine, length_seq. lia.
  - simpl app. rewrite map_map. simpl.
    rewrite <- (map_map fst place).
    rewrite map_fst_combine by (now rewrite length_seq).
    apply NoDup_map_NoDup_ForallPairs; [|apply seq_NoDup].
    intros i j _ _. apply place_injective.
  - intros i file x y Hfile Hsample.
    assert (Hi : i < length samples)
      by (apply nth_error_Some; rewrite Hsample; discriminate).
    assert (Hy : y < 8)
      by (apply nth_error_In in Hsample;
          exact (proj1 (Forall_forall _ samples) Hlabels (x, y) Hsample)).
    assert (Hc : highest_scoring_class (model st) x < 8).
    { rewrite <- H8. apply highest_scoring_class_bound.
      destruct Hacc as (_ & _ & Hc). exact Hc. }
    exists (class_name y), (class_name (highest_scoring_class (model st) x)).
    split; [|split; [|split; [|split]]].
    + simpl app.
      assert (Hentry : nth_error (combine (seq 0 (length image_list)) image_list) i
                       = Some (i, fst file)).
      { apply nth_error_combine.
        - rewrite nth_error_seq, Hli.
          now rewrite (proj2 (Nat.ltb_lt i (length samples)) Hi).
        - unfold image_list. now apply map_nth_error. }
      erewrite map_nth_error by exact Hentry. simpl fst. simpl snd.
      assert (Hnl : nth i labels 0 = y).
      { apply nth_error_nth. unfold labels.
        now erewrite map_nth_error by exact Hsample. }
      assert (Hnc : nth i classes 0 = highest_scoring_class (model st) x).
      { apply nth_error_nth. unfold classes.
        now erewrite map_nth_error by exact Hsample. }
      rewrite Hnl, Hnc. reflexivity.
    + apply Nat.Div0.div_lt_upper_bound; lia.
    + apply Nat.mod_upper_bound; lia.
    + now apply subscript_class_name.
    + now apply subscript_class_name.
Qed.

(** X6: the last cell fails when the validation split has more than 81
    pictures.  For such a split of samples of one shape that the model
    accepts, the cell first predicts every sample (one forward call each)
    and then ends in an [IndexError], because the grid of the plot has
    9 x 9 places. *)
Theorem prediction_plot_fails_beyond_81_pictures {FW : Framework}
  (forward : NeuralNetwork -> tensor -> result tensor) (val_set : ImageFolder)
  (samples : list (tensor * nat)) (sh : list nat) (st : State) :
  forward = Cell23.forward \/ forward = Cell37.forward ->
  static_dataset val_set samples -> samples_shaped sh samples -> sh <> [] ->
  accepts sh (model st) ->
  81 < length samples ->
  fst (Cell40Plot.run forward val_set st) = Raise IndexError /\
  trace (snd (Cell40Plot.run forward val_set st)) =
    trace st ++ repeat CallForward (length samples).
Proof.
  intros Hfwd Hstatic Hshaped Hsh Hacc H81.
  destruct (collect_static Hfwd Hstatic Hshaped Hsh st Hacc)
    as (s' & Hrun & _ & _ & Ht).
  assert (Hlen : length samples = length (imgs val_set))
    by (destruct Hstatic as [Hl _]; exact Hl).
  unfold Cell40Plot.run, mbind. rewrite Hrun. unfold lift. simpl.
  split; [|exact Ht].
  unfold Cell40Plot.plot, enumerate. apply plot_from_overflow.
  - apply Forall_forall. intros t Hin.
    apply in_map_iff in Hin as (c & <- & _). reflexivity.
  - rewrite length_map. simpl. lia.
  - intros E. apply (f_equal (@length _)) in E. rewrite length_map in E.
    simpl in E. lia.
Qed.

Section DemoPlot.

Lemma demo_shaped_repeat (px : list Q) (y n : nat) :
  samples_shaped [length px; 1; 1] (Demo.as_samples (repeat (px, y) n)).
Proof.
  unfold samples_shaped, Demo.as_samples. apply Forall_forall. intros s Hs.
  apply in_map_iff in Hs as (s0 & <- & Hin). apply repeat_spec in Hin. subst.
  simpl. split; [reflexivity|]. unfold numel. simpl. lia.
Qed.

Lemma demo_accepts8 : accepts [3; 1; 1] DemoExtra.net8.
Proof. repeat split; simpl; lia. Qed.

End DemoPlot.

(** On a validation folder of two pictures. *)
Lemma prediction_plot_shows_every_validation_picture_witness :
  exists panels,
    fst (Cell40Plot.run Cell37.forward
           (@Cell14.val_set Demo.framework DemoExtra.folder2) DemoExtra.state8)
      = Ok panels /\
    length panels = 2 /\
    NoDup (map (fun p : Cell40Plot.panel (list Q) => fst (fst p)) panels).
Proof.
  destruct (@prediction_plot_shows_every_validation_picture Demo.framework
              Cell37.forward (@Cell14.val_set Demo.framework DemoExtra.folder2)
              (Demo.as_samples DemoExtra.folder2) [3; 1; 1] DemoExtra.state8)
    as (panels & Hrun & Hlen & Hnd & _).
  - right; reflexivity.
  - apply demo_static.
  - unfold samples_shaped. repeat (constructor; [split; reflexivity|]).
    constructor.
  - discriminate.
  - exact demo_accepts8.
  - reflexivity.
  - repeat (constructor; [simpl; lia|]). constructor.
  - simpl; lia.
  - exists panels. auto.
Defined.

(** On a validation folder of 82 pictures. *)
Lemma prediction_plot_fails_beyond_81_pictures_witness :
  fst (Cell40Plot.run Cell37.forward
         (@Cell14.val_set Demo.framework DemoExtra.folder82) DemoExtra.state8)
    = Raise IndexError.
Proof.
  apply (@prediction_plot_fails_beyond_81_pictures Demo.framework
           Cell37.forward (@Cell14.val_set Demo.framework DemoExtra.folder82)
           (Demo.as_samples DemoExtra.folder82) [3; 1; 1] DemoExtra.state8).
  - right; reflexivity.
  - apply demo_static.
  - apply (demo_shaped_repeat [1; 0; 0]%Q 5 82).
  - discriminate.
  - exact demo_accepts8.
  - unfold Demo.as_samples, DemoExtra.folder82.
    rewrite length_map, repeat_length. lia.
Defined.

(* ================================================================= *)
(** ** Further properties: one picture per class folder *)

Section FirstImages.

Context {Folder File Img : Type}.

Variable open : Folder -> File -> result Img.

Lemma first_images_from (listing : list (Folder * list File)) :
  forall (image_list : list Img) (countries : list Folder),
    match for_each_r (Cell11.first_image_step open) (image_list, countries)
            listing with
    | Ok (images, names) =>
        exists new, images = image_list ++ new /\
                    names = countries ++ map fst listing /\
                    Forall2 (opens_first open) listing new
    | Raise e =>
        exists before entry after,
          listing = before ++ entry :: after /\
          Forall (fun en => exists img, opens_first open en img) before /\
          fails_with open entry e
    end.
Proof.
  induction listing as [|[folder files] listing IH]; intros image_list countries.
  - simpl. exists []. rewrite !app_nil_r. auto.
  - cbn [for_each_r]. unfold Cell11.first_image_step at 1.
    destruct files as [|file files].
    + simpl. exists [], (folder, []), listing. repeat split. constructor.
    + unfold subscript. simpl nth_error. cbv beta iota delta [Py.bind].
      destruct (open folder file) as [img|e] eqn:Hopen.
      * specialize (IH (image_list ++ [img]) (countries ++ [folder])).
        destruct (for_each_r (Cell11.first_image_step open)
                    (image_list ++ [img], countries ++ [folder]) listing)
          as [[images names]|e].
        -- destruct IH as (new & -> & -> & Hall).
           exists (img :: new). rewrite <- !app_assoc. simpl.
           repeat split. constructor; [|exact Hall].
           exists file. auto.
        -- destruct IH as (before & entry & after & -> & Hbefore & Hfail).
           exists ((folder, file :: files) :: before), entry, after.
           repeat split; [|exact Hfail].
           constructor; [|exact Hbefore]. exists img, file. auto.
      * exists [], (folder, file :: files), listing.
        repeat split; [constructor|exact Hopen].
Qed.

End FirstImages.

(** X7: the picture listing keeps one picture per class folder, in folder
    order.  When the loop succeeds, [countries] is the list of the folder
    names and [image_list] holds, for every folder in turn, its first file
    opened; when it raises, the exception comes from the first folder that
    is empty ([IndexError]) or whose first file does not open, and every
    folder before it had a first file that opened. *)
Theorem first_images_one_per_folder {Folder File Img : Type}
  (open : Folder -> File -> result Img) (listing : list (Folder * list File)) :
  match Cell11.first_images open listing with
  | Ok (image_list, countries) =>
      countries = map fst listing /\
      length image_list = length countries /\
      Forall2 (opens_first open) listing image_list
  | Raise e =>
      exists before entry after,
        listing = before ++ entry :: after /\
        Forall (fun en => exists img, opens_first open en img) before /\
        fails_with open entry e
  end.
Proof.
  unfold Cell11.first_images.
  pose proof (first_images_from open listing [] []) as H.
  destruct (for_each_r (Cell11.first_image_step open) ([], []) listing)
    as [[image_list countries]|e]; [|exact H].
  destruct H as (new & -> & -> & Hall). simpl.
  repeat split; [|exact Hall].
  rewrite length_map. symmetry. exact (Forall2_length Hall).
Qed.

(* ================================================================= *)
(** ** Further properties: the first batch of a loader *)

Section FirstBatch.

Lemma batch_sampler_first {A : Type} (B : nat) (l acc : list A) :
  length acc < B -> acc ++ l <> [] ->
  exists rest, batch_sampler B acc l = firstn B (acc ++ l) :: rest.
Proof.
  revert acc. induction l as [|a l IH]; intros acc Hacc Hne.
  - rewrite app_nil_r in *. destruct acc as [|x acc]; [contradiction|].
    exists []. simpl batch_sampler. f_equal. symmetry. apply firstn_all2. lia.
  - assert (Hlen : length (acc ++ [a]) = S (length acc))
      by (rewrite length_app; simpl; lia).
    simpl batch_sampler.
    replace (acc ++ a :: l) with ((acc ++ [a]) ++ l)
      by (now rewrite <- app_assoc).
    destruct (Nat.eqb_spec (length (acc ++ [a])) B) as [E|E].
    + eexists. f_equal. rewrite <- E, firstn_app, Nat.sub_diag.
      simpl. now rewrite firstn_all, app_nil_r.
    + apply IH; [lia|]. destruct acc; discriminate.
Qed.

Context {FW : Framework}.

Variable dl : DataLoader.
Hypothesis batch_size_pos : 0 < batch_size dl.
Hypothesis randperm_perm : forall n r, Permutation (fst (randperm n r)) (seq 0 n).

(** The index batches of a pass start with the first [batch_size] entries
    of the traversal order. *)
Lemma batch_indices_first (st : State) :
  len_dataset (dataset dl) <> 0 ->
  exists idxs rest st',
    batch_indices dl st = (Ok (idxs :: rest), st') /\ quiet st st' /\
    length idxs = Nat.min (batch_size dl) (len_dataset (dataset dl)) /\
    Forall (fun i => i < len_dataset (dataset dl)) idxs.
Proof.
  intros HS.
  destruct (sampler_order dl st randperm_perm)
    as (order & st' & Hs & Hp & Hm & Ho & Ht & _).
  assert (Hlen : length order = len_dataset (dataset dl))
    by (rewrite (Permutation_length Hp); apply length_seq).
  destruct (@batch_sampler_first nat (batch_size dl) order [])
    as (rest & Hfirst).
  - simpl. exact batch_size_pos.
  - simpl. intros E. rewrite E in Hlen. simpl in Hlen. lia.
  - simpl in Hfirst. exists (firstn (batch_size dl) order), rest, st'.
    split; [|split; [|split]].
    + unfold batch_indices, mbind. rewrite Hs. unfold ret. now rewrite Hfirst.
    + repeat split; assumption.
    + now rewrite length_firstn, Hlen.
    + apply Forall_forall. intros i Hi.
      assert (Hin : In i order).
      { rewrite <- (firstn_skipn (batch_size dl) order).
        apply in_or_app. now left. }
      apply (Permutation_in _ Hp), in_seq in Hin. lia.
Qed.


End FirstBatch.



(* ================================================================= *)
(** ** Further properties: what the evaluation pass depends on *)

Section Counting.

Context {A : Type}.

Variable f : A -> bool.

Lemma filter_length_perm (l l' : list A) :
  Permutation l l' -> length (filter f l) = length (filter f l').
Proof.
  induction 1 as [|x l l' _ IH|x y l|l l' l'' _ IH1 _ IH2]; simpl.
  - reflexivity.
  - destruct (f x); simpl; congruence.
  - destruct (f x), (f y); reflexivity.
  - congruence.
Qed.

Lemma filter_all_iff (l : list A) :
  length (filter f l) = length l <-> Forall (fun a => f a = true) l.
Proof.
  induction l as [|a l IH]; simpl.
  - split; [constructor|reflexivity].
  - pose proof (filter_length_le f l) as Hle.
    destruct (f a) eqn:E; simpl.
    + split.
      * intros H. constructor; [exact E|]. apply IH. lia.
      * intros H. inversion H; subst. f_equal. now apply IH.
    + split; [lia|]. intros H. inversion H; subst. congruence.
Qed.

End Counting.

Section AnyOrder.

Context {FW : Framework}.

Variable dl : DataLoader.
Variable samples : list (tensor * nat).
Variable sh : list nat.
Variable forward : NeuralNetwork -> tensor -> result tensor.
Variable loss_fn : tensor -> list nat -> Q.

Hypothesis forward_class : forward = Cell23.forward \/ forward = Cell37.forward.
Hypothesis dl_static : static_dataset (dataset dl) samples.
Hypothesis dl_shaped : samples_shaped sh samples.
Hypothesis randperm_perm : forall n r, Permutation (fst (randperm n r)) (seq 0 n).
Hypothesis batch_size_pos : 0 < batch_size dl.
Hypothesis sh_nonempty : sh <> [].
Hypothesis samples_nonempty : samples <> [].

(** What [test] returns on a split with fixed samples, in whatever order
    the loader traverses it: the batches are cut from a permutation of the
    samples. *)
Lemma test_any_order (st : State) :
  accepts sh (model st) ->
  exists shuffled : list (tensor * nat),
    Permutation shuffled samples /\
    let chunks := batch_sampler (batch_size dl) [] shuffled in
    let sums := eval_sums loss_fn (model st) chunks (0%Q, 0%Q) in
    fst (test dl forward loss_fn st) =
    Ok ((snd sums / of_nat (length samples) * 100)%Q,
        (fst sums / of_nat (length chunks))%Q).
Proof.
  intros Hacc.
  assert (Hsize : len_dataset (dataset dl) = length samples)
    by (destruct dl_static as [<- _]; reflexivity).
  set (dflt := (Tensor [] [], 0) : tensor * nat).
  set (pick := fun i => nth i samples dflt).
  unfold test.
  erewrite mbind_ok by apply model_eval_run.
  set (s1 := {| model := set_training false (model st); rng := rng st;
                stdout := stdout st; trace := trace st ++ [CallEvalMode] |}).
  destruct (sampler_order dl s1 randperm_perm)
    as (order & s2 & Hs & Hp & Hm & _).
  rewrite Hsize in Hp.
  assert (Hlen : length order = length samples)
    by (rewrite (Permutation_length Hp); apply length_seq).
  assert (Hpick : map pick (seq 0 (length samples)) = samples).
  { unfold pick. rewrite (map_seq_nth (fun s => s) dflt samples).
    apply map_id. }
  exists (map pick order). split.
  { pose proof (Permutation_map pick Hp) as Hpm.
    rewrite Hpick in Hpm. exact Hpm. }
  cbv zeta.
  set (chunks := batch_sampler (batch_size dl) [] (map pick order)).
  set (sums := eval_sums loss_fn (model st) chunks (0%Q, 0%Q)).
  assert (Hchunks : chunks =
            map (map pick) (batch_sampler (batch_size dl) [] order)).
  { unfold chunks.
    now rewrite <- (batch_sampler_map pick (batch_size dl) order []). }
  assert (Hloop : fst (for_in_dataloader dl (test_step forward loss_fn)
                         (0%Q, 0%Q) s1) = Ok sums).
  { unfold for_in_dataloader.
    assert (Hbs : batch_indices dl s1 =
                  (Ok (batch_sampler (batch_size dl) [] order), s2))
      by (unfold batch_indices, mbind; now rewrite Hs).
    erewrite mbind_ok by exact Hbs.
    rewrite (eval_loop dl loss_fn forward_class dl_static dl_shaped sh_nonempty).
    - rewrite Hm. unfold sums. rewrite Hchunks. reflexivity.
    - rewrite Hm. exact Hacc.
    - apply batch_sampler_valid_indices; [exact batch_size_pos|].
      apply Forall_forall. intros i Hi.
      apply (Permutation_in _ Hp), in_seq in Hi. lia. }
  erewrite fst_mbind by exact Hloop.
  assert (Hnb : len_dataloader dl = length chunks).
  { unfold len_dataloader. rewrite Hchunks, length_map, Hsize, <- Hlen.
    symmetry. apply batch_sampler_count. exact batch_size_pos. }
  assert (Hpos : length chunks <> 0).
  { rewrite <- Hnb. apply len_dataloader_pos; [exact batch_size_pos|].
    rewrite Hsize. destruct samples; [contradiction|discriminate]. }
  rewrite Hnb, Hsize.
  unfold mbind, lift, ret.
  rewrite (truediv_ok _ Hpos).
  rewrite truediv_ok by (destruct samples; [contradiction|discriminate]).
  reflexivity.
Qed.

End AnyOrder.

Section Percentages.

Lemma of_nat_inj (n m : nat) : (of_nat n == of_nat m)%Q <-> n = m.
Proof.
  unfold of_nat. rewrite inject_Z_injective. split; [apply Nat2Z.inj|congruence].
Qed.

Lemma percentage_full (c n : nat) :
  n <> 0 -> ((100 * of_nat c / of_nat n == 100)%Q <-> c = n).
Proof.
  intros Hn. pose proof (of_nat_pos Hn) as Hpos.
  rewrite <- of_nat_inj. split; intros H.
  - assert (E : (of_nat c == (100 * of_nat c / of_nat n) * of_nat n / 100)%Q)
      by (field; lra).
    rewrite E, H. field.
  - rewrite H. field. lra.
Qed.

End Percentages.

(** X10: the accuracy reported by [test] depends neither on the batch size
    nor on the traversal order.  On a split with fixed, equally shaped
    samples that the model accepts, for any positive batch size and also
    for a shuffling loader, the accuracy returned is 100 times the number
    of correctly classified samples divided by the number of samples; it
    is 100 exactly when every sample's highest-scoring class is its
    label. *)
Theorem accuracy_ignores_batch_size_and_order {FW : Framework}
  (dl : DataLoader) (samples : list (tensor * nat)) (sh : list nat)
  (forward : NeuralNetwork -> tensor -> result tensor)
  (loss_fn : tensor -> list nat -> Q) (st : State) :
  forward = Cell23.forward \/ forward = Cell37.forward ->
  static_dataset (dataset dl) samples ->
  samples_shaped sh samples ->
  (forall n r, Permutation (fst (randperm n r)) (seq 0 n)) ->
  0 < batch_size dl ->
  sh <> [] -> samples <> [] ->
  accepts sh (model st) ->
  exists accuracy loss : Q,
    fst (test dl forward loss_fn st) = Ok (accuracy, loss) /\
    (accuracy ==
     100 * of_nat (length (filter (correctly_classified (model st)) samples))
     / of_nat (length samples))%Q /\
    ((accuracy == 100)%Q <->
     Forall (fun s => correctly_classified (model st) s = true) samples).
Proof.
  intros Hfwd Hstatic Hshaped Hperm HB Hsh Hne Hacc.
  destruct (@test_any_order FW dl samples sh forward loss_fn Hfwd Hstatic
              Hshaped Hperm HB Hsh Hne st Hacc)
    as (shuffled & Hp & Hrun).
  cbv zeta in Hrun.
  set (chunks := batch_sampler (batch_size dl) [] shuffled) in *.
  set (sums := eval_sums loss_fn (model st) chunks (0%Q, 0%Q)) in *.
  assert (Hn : length samples <> 0)
    by (destruct samples; [contradiction|discriminate]).
  assert (Hacc_eq :
    (snd sums / of_nat (length samples) * 100 ==
     100 * of_nat (length (filter (correctly_classified (model st)) samples))
     / of_nat (length samples))%Q).
  { unfold sums. rewrite eval_sums_correct.
    unfold chunks. rewrite batch_sampler_concat. simpl app.
    rewrite (filter_length_perm (correctly_classified (model st)) Hp).
    field. pose proof (of_nat_pos Hn). lra. }
  eexists _, _. split; [exact Hrun|]. split; [exact Hacc_eq|].
  rewrite Hacc_eq, (percentage_full _ Hn). apply filter_all_iff.
Qed.

(** On the shuffling training loader of the demo folder. *)
Lemma accuracy_ignores_batch_size_and_order_witness :
  exists accuracy loss : Q,
    fst (test (Demo.train_dataloader Demo.data_train)
           Cell23.forward (mean_reduction Demo.zero_one) Demo.state0)
      = Ok (accuracy, loss) /\
    (accuracy ==
     100 * of_nat (length (filter (correctly_classified Demo.net)
                             (Demo.as_samples Demo.data_train)))
     / of_nat 3)%Q.
Proof.
  destruct (@accuracy_ignores_batch_size_and_order Demo.framework
              (Demo.train_dataloader Demo.data_train)
              (Demo.as_samples Demo.data_train) [3; 1; 1] Cell23.forward
              (mean_reduction Demo.zero_one) Demo.state0)
    as (accuracy & loss & Hrun & Hval & _).
  - left; reflexivity.
  - exact (demo_static Demo.data_train).
  - unfold samples_shaped. repeat (constructor; [split; reflexivity|]).
    constructor.
  - exact demo_randperm.
  - simpl; lia.
  - discriminate.
  - discriminate.
  - exact demo_accepts.
  - exists accuracy, loss. split; [exact Hrun|exact Hval].
Defined.

(** X11: evaluating twice in a row gives the same numbers.  On a
    sequential loader over a split with fixed, equally shaped samples that
    the model accepts, [test] succeeds, and calling it again in the state
    the first call left behind returns exactly the same accuracy and
    loss. *)
Theorem evaluation_is_repeatable {FW : Framework}
  (dl : DataLoader) (samples : list (tensor * nat)) (sh : list nat)
  (forward : NeuralNetwork -> tensor -> result tensor)
  (loss_fn : tensor -> list nat -> Q) (st : State) :
  forward = Cell23.forward \/ forward = Cell37.forward ->
  static_dataset (dataset dl) samples ->
  samples_shaped sh samples ->
  shuffle dl = false ->
  0 < batch_size dl ->
  sh <> [] -> samples <> [] ->
  accepts sh (model st) ->
  let st' := snd (test dl forward loss_fn st) in
  exists scores : Q * Q,
    fst (test dl forward loss_fn st) = Ok scores /\
    fst (test dl forward loss_fn st') = Ok scores.
Proof.
  intros Hfwd Hstatic Hshaped Hseq HB Hsh Hne Hacc st'.
  assert (Hm : model st' = set_training false (model st)).
  { pose proof (test_rest_preserves dl forward loss_fn
                  same_model_refl same_model_trans same_model_draw
                  (test_step_same_model forward loss_fn) st) as H.
    exact H. }
  pose proof (test_static dl loss_fn Hfwd Hstatic Hshaped Hseq HB Hsh st
                Hacc Hne) as H1.
  assert (Hacc' : accepts sh (model st')) by (rewrite Hm; exact Hacc).
  pose proof (test_static dl loss_fn Hfwd Hstatic Hshaped Hseq HB Hsh st'
                Hacc' Hne) as H2.
  cbv zeta in H1, H2. rewrite Hm in H2.
  eexists. split; [exact H1|exact H2].
Qed.

(** On the validation loader of the demo folder. *)
Lemma evaluation_is_repeatable_witness :
  exists scores : Q * Q,
    fst (test (Demo.val_dataloader Demo.data_test)
           Cell23.forward (mean_reduction Demo.zero_one) Demo.state0)
      = Ok scores /\
    fst (test (Demo.val_dataloader Demo.data_test)
           Cell23.forward (mean_reduction Demo.zero_one)
           (snd (test (Demo.val_dataloader Demo.data_test)
                   Cell23.forward (mean_reduction Demo.zero_one) Demo.state0)))
      = Ok scores.
Proof.
  apply (@evaluation_is_repeatable Demo.framework
           (Demo.val_dataloader Demo.data_test)
           Demo.samples_test [3; 1; 1]).
  - left; reflexivity.
  - apply demo_static.
  - apply demo_shaped.
  - reflexivity.
  - simpl; lia.
  - discriminate.
  - discriminate.
  - exact demo_accepts.
Defined.

(* ================================================================= *)
(** ** Further properties: the epoch loop over an empty split *)

Section EmptyRuns.

Context {FW : Framework}.

Lemma mbind_raise {A B : Type} (m : M A) (k : A -> M B) (st st1 : State)
  (e : exn) :
  m st = (Raise e, st1) -> mbind m k st = (Raise e, st1).
Proof. intros H. unfold mbind. now rewrite H. Qed.

Lemma randperm_none :
  (forall n r, Permutation (fst (randperm n r)) (seq 0 n)) ->
  forall r, fst (randperm 0 r) = [].
Proof.
  intros Hperm r. specialize (Hperm 0 r). simpl in Hperm.
  now apply Permutation_sym, Permutation_nil in Hperm.
Qed.

Variable dl : DataLoader.
Hypothesis dl_empty : len_dataset (dataset dl) = 0.
Hypothesis randperm_nil : forall r, fst (randperm 0 r) = [].

Lemma batch_indices_empty (st : State) :
  exists st', batch_indices dl st = (Ok [], st') /\
              model st' = model st /\ stdout st' = stdout st /\
              trace st' = trace st.
Proof.
  unfold batch_indices, sampler, mbind. rewrite dl_empty.
  destruct (shuffle dl).
  - unfold draw. specialize (randperm_nil (rng st)).
    destruct (randperm 0 (rng st)) as [order r]. simpl in randperm_nil.
    subst order. eexists. split; [reflexivity|]. auto.
  - exists st. auto.
Qed.

(** [test] over an empty split: the mode switch, then the division by
    zero. *)
Lemma test_empty_state forward loss_fn (st : State) :
  exists st',
    test dl forward loss_fn st = (Raise ZeroDivisionError, st') /\
    model st' = set_training false (model st) /\
    stdout st' = stdout st /\ trace st' = trace st ++ [CallEvalMode].
Proof.
  unfold test. rewrite (len_dataloader_empty dl dl_empty).
  erewrite mbind_ok by apply model_eval_run.
  set (s1 := {| model := set_training false (model st); rng := rng st;
                stdout := stdout st; trace := trace st ++ [CallEvalMode] |}).
  destruct (batch_indices_empty s1) as (s2 & Hbs & Hm & Ho & Ht).
  unfold for_in_dataloader.
  exists s2. split; [|auto].
  unfold mbind at 1. unfold mbind at 1. rewrite Hbs. reflexivity.
Qed.

(** [train] over an empty split: the mode switch, then the division by
    zero. *)
Lemma train_empty_state forward loss_fn optimizer (st : State) :
  exists st',
    train dl forward loss_fn optimizer st = (Raise ZeroDivisionError, st') /\
    model st' = set_training true (model st) /\
    stdout st' = stdout st /\ trace st' = trace st ++ [CallTrainMode].
Proof.
  unfold train. rewrite (len_dataloader_empty dl dl_empty).
  assert (Hmode : model_train st =
            (Ok tt, {| model := set_training true (model st); rng := rng st;
                       stdout := stdout st;
                       trace := trace st ++ [CallTrainMode] |}))
    by reflexivity.
  erewrite mbind_ok by exact Hmode.
  set (s1 := {| model := set_training true (model st); rng := rng st;
                stdout := stdout st; trace := trace st ++ [CallTrainMode] |}).
  destruct (batch_indices_empty s1) as (s2 & Hbs & Hm & Ho & Ht).
  unfold for_in_dataloader.
  exists s2. split; [|auto].
  unfold mbind at 1. unfold mbind at 1. rewrite Hbs. reflexivity.
Qed.

End EmptyRuns.

(** X12: with an empty validation split the whole run stops in its first
    epoch and prints nothing.  When the training batches can be fetched and
    the model accepts them, the epoch loop makes one full training pass,
    switches the model to evaluation mode and then ends in a
    [ZeroDivisionError]: no epoch line and no best-score line is written. *)
Theorem empty_validation_split_stops_first_epoch {FW : Framework}
  (train_dataloader val_dataloader : DataLoader)
  (forward : NeuralNetwork -> tensor -> result tensor)
  (loss_fn : tensor -> list nat -> Q) (optimizer : SGD)
  (sh : list nat) (st : State) :
  forward = Cell23.forward \/ forward = Cell37.forward ->
  sh <> [] ->
  (forall n r, Permutation (fst (randperm n r)) (seq 0 n)) ->
  loader_ok sh train_dataloader ->
  len_dataset (dataset val_dataloader) = 0 ->
  accepts sh (model st) ->
  let out := epoch_loop train_dataloader val_dataloader forward loss_fn
               optimizer st in
  fst out = Raise ZeroDivisionError /\
  stdout (snd out) = stdout st /\
  trace (snd out) =
    trace st ++ train_calls (len_dataloader train_dataloader) ++ [CallEvalMode].
Proof.
  intros Hfwd Hsh Hperm Htrain Hval Hacc out.
  destruct (train_run loss_fn Hfwd Hsh Hperm optimizer st Htrain Hacc)
    as (avg_loss & s1 & Hrun1 & _ & Ht1 & Ho1).
  destruct (test_empty_state val_dataloader Hval (randperm_none Hperm)
              forward loss_fn s1) as (s2 & Hrun2 & _ & Ho2 & Ht2).
  assert (Hout : out = (Raise ZeroDivisionError, s2)).
  { unfold out, epoch_loop.
    change (seq 0 epochs) with (0 :: seq 1 49). cbn [for_each].
    apply mbind_raise. apply mbind_raise. unfold epoch_body.
    erewrite mbind_ok by exact Hrun1. apply mbind_raise. exact Hrun2. }
  rewrite Hout. simpl.
  split; [reflexivity|]. split; [congruence|].
  rewrite Ht2, Ht1. now rewrite <- app_assoc.
Qed.

(** X13: given a training loader over zero samples, the epoch loop stops
    before any forward call.  Such a loader exists only when it does not
    shuffle (a shuffling loader cannot be built over an empty dataset).
    The loop switches the model to training mode and ends in a
    [ZeroDivisionError]: no batch is fetched, no framework call other than
    the mode switch is made, every parameter is as it was, and nothing is
    printed. *)
Theorem empty_training_loader_stops_before_any_batch {FW : Framework}
  (train_dataloader val_dataloader : DataLoader)
  (forward : NeuralNetwork -> tensor -> result tensor)
  (loss_fn : tensor -> list nat -> Q) (optimizer : SGD) (st : State) :
  DataLoader_init (dataset train_dataloader) (batch_size train_dataloader)
    (shuffle train_dataloader) = Ok train_dataloader ->
  len_dataset (dataset train_dataloader) = 0 ->
  let out := epoch_loop train_dataloader val_dataloader forward loss_fn
               optimizer st in
  shuffle train_dataloader = false /\
  fst out = Raise ZeroDivisionError /\
  stdout (snd out) = stdout st /\
  trace (snd out) = trace st ++ [CallTrainMode] /\
  forall name, param_of (model (snd out)) name = param_of (model st) name.
Proof.
  intros Hbuilt Htrain out.
  assert (Hseq : shuffle train_dataloader = false).
  { unfold DataLoader_init in Hbuilt. rewrite Htrain in Hbuilt.
    destruct (shuffle train_dataloader); [discriminate|reflexivity]. }
  destruct (train_empty_state train_dataloader Htrain (fun r => eq_refl)
              forward loss_fn optimizer st) as (s1 & Hrun1 & Hm1 & Ho1 & Ht1).
  assert (Hout : out = (Raise ZeroDivisionError, s1)).
  { unfold out, epoch_loop.
    change (seq 0 epochs) with (0 :: seq 1 49). cbn [for_each].
    apply mbind_raise. apply mbind_raise. unfold epoch_body.
    apply mbind_raise. exact Hrun1. }
  rewrite Hout. simpl.
  split; [exact Hseq|].
  split; [reflexivity|]. split; [exact Ho1|]. split; [exact Ht1|].
  intros name. rewrite Hm1. destruct name; reflexivity.
Qed.

(** On the demo training folder and an empty validation folder. *)
Lemma empty_validation_split_stops_first_epoch_witness :
  fst (epoch_loop (Demo.train_dataloader Demo.data_train)
         (Demo.val_dataloader [])
         Cell23.forward (mean_reduction Demo.zero_one) Cell26.optimizer
         Demo.state0) = Raise ZeroDivisionError /\
  stdout (snd (epoch_loop
                 (Demo.train_dataloader Demo.data_train)
                 (Demo.val_dataloader [])
                 Cell23.forward (mean_reduction Demo.zero_one)
                 Cell26.optimizer Demo.state0)) = [].
Proof.
  destruct (@empty_validation_split_stops_first_epoch Demo.framework
              (Demo.train_dataloader Demo.data_train)
              (Demo.val_dataloader [])
              Cell23.forward (mean_reduction Demo.zero_one) Cell26.optimizer
              [3; 1; 1] Demo.state0) as (Hraise & Hout & _).
  - left; reflexivity.
  - discriminate.
  - exact demo_randperm.
  - exact demo_train_ok.
  - reflexivity.
  - exact demo_accepts.
  - split; [exact Hraise|exact Hout].
Defined.

(** On a loader that does not shuffle, built by hand over an empty
    training folder. *)
Lemma empty_training_loader_stops_before_any_batch_witness :
  let train_dataloader :=
    {| dataset := @Cell14.train_set Demo.framework []; batch_size := 32;
       shuffle := false |} in
  fst (epoch_loop train_dataloader (Demo.val_dataloader Demo.data_test)
         Cell23.forward (mean_reduction Demo.zero_one) Cell26.optimizer
         Demo.state0) = Raise ZeroDivisionError /\
  trace (snd (epoch_loop train_dataloader (Demo.val_dataloader Demo.data_test)
                Cell23.forward (mean_reduction Demo.zero_one)
                Cell26.optimizer Demo.state0)) = [CallTrainMode].
Proof.
  intros train_dataloader.
  destruct (@empty_training_loader_stops_before_any_batch Demo.framework
              train_dataloader (Demo.val_dataloader Demo.data_test)
              Cell23.forward (mean_reduction Demo.zero_one) Cell26.optimizer
              Demo.state0) as (_ & Hraise & _ & Htrace & _).
  - reflexivity.
  - reflexivity.
  - split; [exact Hraise|exact Htrace].
Defined.

(* ================================================================= *)
(** ** Further properties: the training pass *)

Section TrainingPass.

Context {FW : Framework}.

Variable forward : NeuralNetwork -> tensor -> result tensor.
Variable loss_fn : tensor -> list nat -> Q.
Variable sh : list nat.

Hypothesis forward_class : forward = Cell23.forward \/ forward = Cell37.forward.
Hypothesis sh_nonempty : sh <> [].
Hypothesis randperm_perm : forall n r, Permutation (fst (randperm n r)) (seq 0 n).
Hypothesis loss_nonneg : forall preds y, (0 <= loss_fn preds y)%Q.

(** A training step never touches the mode flag. *)
Lemma train_step_mode (optimizer : SGD) (Xy : tensor * list nat) (st : State) :
  training (model (snd (train_step forward loss_fn optimizer Xy st))) =
  training (model st).
Proof.
  destruct Xy as [X y].
  unfold train_step, call_model, call_loss, zero_grad, backward, step.
  unfold mbind, tick, get_model, set_model, lift, ret. simpl.
  destruct (forward (model st) X); reflexivity.
Qed.

(** One training pass: the mean of non-negative batch losses. *)
Lemma train_pass (dl : DataLoader) (optimizer : SGD) (st : State) :
  loader_ok sh dl -> accepts sh (model st) ->
  exists total st',
    train dl forward loss_fn optimizer st =
      (Ok (total / of_nat (len_dataloader dl))%Q, st') /\
    (0 <= total)%Q /\ training (model st') = true.
Proof.
  intros (HB & HS & Hfetch) Hacc. unfold train.
  set (s1 := {| model := set_training true (model st); rng := rng st;
                stdout := stdout st; trace := trace st ++ [CallTrainMode] |}).
  assert (Hmode : model_train st = (Ok tt, s1)) by reflexivity.
  erewrite mbind_ok by exact Hmode.
  destruct (batch_indices_run dl s1 HB randperm_perm)
    as (bs & s2 & Hbs & (Hm2 & Ht2 & Ho2) & Hnb & _ & Hvalid).
  destruct (@for_each_run _ _ _
              (fun s => accepts sh (model s) /\ training (model s) = true)
              (fun _ acc => (0 <= acc)%Q)
              [CallForward; CallLoss; CallZeroGrad; CallBackward; CallStep]
              (fun acc idxs =>
                 (Xy <- fetch (dataset dl) idxs ;;
                  loss <- train_step forward loss_fn optimizer Xy ;;
                  ret (acc + loss)%Q)%stmt) bs)
    with (done := @nil (list nat)) (acc := 0%Q) (s := s2)
    as (total & s3 & Hloop & (_ & Hmode3) & Htotal & _).
  - intros done acc idxs s [HI Htr] HJ Hin.
    rewrite Forall_forall in Hvalid. destruct (Hvalid idxs Hin) as [Hne Hidx].
    destruct (Hfetch idxs s Hne Hidx) as (X & y & HXy & HX).
    destruct (fetch_quiet (dataset dl) idxs s) as (Hmq & Htq & Hoq).
    destruct (fetch (dataset dl) idxs s) as [r sq] eqn:Ef. simpl in *. subst r.
    assert (HIq : accepts sh (model sq)) by (rewrite Hmq; exact HI).
    destruct (forward_accepts forward_class sh_nonempty X HIq HX)
      as (d & Hfwd).
    destruct (train_step_run forward loss_fn optimizer X y sq Hfwd HIq)
      as (s' & Hstep & HI' & Ht' & Ho').
    pose proof (train_step_mode optimizer (X, y) sq) as Hflag.
    rewrite Hstep in Hflag. simpl in Hflag.
    eexists. exists s'. unfold mbind. rewrite Ef, Hstep.
    split; [reflexivity|]. split; [split; [exact HI'|congruence]|].
    split; [|split; congruence].
    pose proof (loss_nonneg (Tensor [length idxs; out_features (last_0 (model sq))] d) y).
    lra.
  - rewrite Hm2. split; [exact Hacc|reflexivity].
  - lra.
  - assert (Hfor : for_in_dataloader dl (fun train_loss Xy =>
                     (loss <- train_step forward loss_fn optimizer Xy ;;
                      ret (train_loss + loss)%Q)%stmt) 0%Q s1 = (Ok total, s3)).
    { unfold for_in_dataloader. erewrite mbind_ok by exact Hbs. exact Hloop. }
    erewrite mbind_ok by exact Hfor.
    pose proof (len_dataloader_pos dl HB HS) as Hpos.
    unfold mbind, lift, ret. rewrite (truediv_ok _ Hpos).
    exists total, s3. split; [reflexivity|]. split; assumption.
Qed.

End TrainingPass.

(** X14: the mean training loss is never negative, and a training pass
    leaves the model in training mode.  For a loader whose batches can be
    fetched, a model that accepts them and a loss function without negative
    values, whatever the traversal order, [train] returns a number that is
    at least 0, and the model's mode flag is set when it returns. *)
Theorem train_loss_is_nonnegative {FW : Framework}
  (dl : DataLoader) (forward : NeuralNetwork -> tensor -> result tensor)
  (loss_fn : tensor -> list nat -> Q) (optimizer : SGD)
  (sh : list nat) (st : State) :
  forward = Cell23.forward \/ forward = Cell37.forward ->
  sh <> [] ->
  (forall n r, Permutation (fst (randperm n r)) (seq 0 n)) ->
  (forall preds y, (0 <= loss_fn preds y)%Q) ->
  loader_ok sh dl -> accepts sh (model st) ->
  exists avg_loss : Q,
    fst (train dl forward loss_fn optimizer st) = Ok avg_loss /\
    (0 <= avg_loss)%Q /\
    training (model (snd (train dl forward loss_fn optimizer st))) = true.
Proof.
  intros Hfwd Hsh Hperm Hloss Hok Hacc.
  destruct (@train_pass FW forward loss_fn sh Hfwd Hsh Hperm Hloss dl
              optimizer st Hok Hacc)
    as (total & st' & Hrun & Htotal & Hmode).
  rewrite Hrun. simpl. eexists. split; [reflexivity|]. split; [|exact Hmode].
  destruct Hok as (HB & HS & _).
  pose proof (of_nat_pos (len_dataloader_pos dl HB HS)) as Hpos.
  apply Qle_shift_div_l; [exact Hpos|]. lra.
Qed.

(** On the demo training folder. *)
Lemma train_loss_is_nonnegative_witness :
  exists avg_loss : Q,
    fst (train (Demo.train_dataloader Demo.data_train)
           Cell23.forward (mean_reduction Demo.zero_one) Cell26.optimizer
           Demo.state0) = Ok avg_loss /\
    (0 <= avg_loss)%Q.
Proof.
  destruct (@train_loss_is_nonnegative Demo.framework
              (Demo.train_dataloader Demo.data_train)
              Cell23.forward (mean_reduction Demo.zero_one) Cell26.optimizer
              [3; 1; 1] Demo.state0) as (avg_loss & Hrun & Hpos & _).
  - left; reflexivity.
  - discriminate.
  - exact demo_randperm.
  - apply mean_reduction_nonneg. exact zero_one_nonneg.
  - exact demo_train_ok.
  - exact demo_accepts.
  - exists avg_loss. split; [exact Hrun|exact Hpos].
Defined.

(* ================================================================= *)
(** ** Further properties: what the last cell leaves behind *)

Section PredictionFrame.

Context {FW : Framework}.

Variable R : State -> State -> Prop.
Hypothesis R_refl : forall st, R st st.
Hypothesis R_trans : forall s1 s2 s3, R s1 s2 -> R s2 s3 -> R s1 s3.
Hypothesis R_draw : forall (A : Type) (f : Rng -> A * Rng), preserves R (draw f).
Hypothesis R_forward : preserves R (tick CallForward).

Lemma preserves_iter_getitem {A B : Type} (get : nat -> M A)
  (body : B -> nat * A -> M B) :
  (forall i, preserves R (get i)) ->
  (forall acc ia, preserves R (body acc ia)) ->
  forall idxs acc, preserves R (Cell40Plot.iter_getitem get body acc idxs).
Proof.
  intros Hget Hbody. induction idxs as [|i idxs IH]; intros acc st.
  - apply R_refl.
  - cbn [Cell40Plot.iter_getitem].
    pose proof (Hget i st) as Hi.
    destruct (get i st) as [[a|e] st1]; simpl in Hi.
    + apply (R_trans Hi).
      apply (preserves_bind R_trans); [apply Hbody|].
      intros acc'. apply IH.
    + destruct e; exact Hi.
Qed.

Lemma preserves_collect_step forward (val_set : ImageFolder)
  (acc : list Image * list nat * list (list nat))
  (ixy : nat * (datum Image * nat)) :
  preserves R (Cell40Plot.collect_step forward val_set acc ixy).
Proof.
  destruct acc as [[image_list labels] preds]. destruct ixy as [i [x y]].
  unfold Cell40Plot.collect_step.
  apply (preserves_bind R_trans); [apply (preserves_lift _ R_refl)|].
  intros entry.
  apply (preserves_bind R_trans); [apply (preserves_lift _ R_refl)|].
  intros t.
  apply (preserves_bind R_trans).
  - unfold call_model.
    apply (preserves_bind R_trans); [exact R_forward|]. intros _.
    apply (preserves_bind R_trans); [apply (preserves_get_model _ R_refl)|].
    intros net. apply (preserves_lift _ R_refl).
  - intros pred.
    apply (preserves_bind R_trans); [apply (preserves_lift _ R_refl)|].
    intros p. apply (preserves_ret _ R_refl).
Qed.

Lemma preserves_prediction_cell forward (val_set : ImageFolder) :
  preserves R (Cell40Plot.run forward val_set).
Proof.
  unfold Cell40Plot.run.
  apply (preserves_bind R_trans).
  - unfold Cell40Plot.collect. apply preserves_iter_getitem.
    + intros i. apply (preserves_getitem R_refl R_trans R_draw).
    + intros acc ia. apply preserves_collect_step.
  - intros [[image_list labels] preds]. apply (preserves_lift _ R_refl).
Qed.

End PredictionFrame.

(** X15: the last cell only looks at the model.  Whether it succeeds or
    raises, on any validation set, the model it leaves behind is the model
    it found (every parameter, every gradient buffer and the mode flag),
    nothing is printed, and the only framework calls it has made are
    forward calls. *)
Theorem prediction_cell_leaves_model_unchanged {FW : Framework}
  (forward : NeuralNetwork -> tensor -> result tensor) (val_set : ImageFolder)
  (st : State) :
  let st' := snd (Cell40Plot.run forward val_set st) in
  model st' = model st /\
  stdout st' = stdout st /\
  calls_within (fun c => c = CallForward) st st'.
Proof.
  intros st'. split; [|split].
  - apply (@preserves_prediction_cell FW same_model same_model_refl
             same_model_trans same_model_draw (same_model_tick CallForward)).
  - apply (@preserves_prediction_cell FW (fun s s' => stdout s' = stdout s)).
    + reflexivity.
    + intros s1 s2 s3 H1 H2. congruence.
    + intros A f s. unfold draw. destruct (f (rng s)). reflexivity.
    + intros s. reflexivity.
  - apply (@preserves_prediction_cell FW (calls_within (fun c => c = CallForward))).
    + apply calls_within_refl.
    + apply calls_within_trans.
    + apply calls_within_draw.
    + apply calls_within_tick. reflexivity.
Qed.

(* ================================================================= *)
(** ** Further properties: samples of the wrong size *)

Section Mismatch.

Context {FW : Framework}.

Variable forward : NeuralNetwork -> tensor -> result tensor.
Hypothesis forward_class : forward = Cell23.forward \/ forward = Cell37.forward.

(** A batch whose samples do not have the size of the first layer's input
    is rejected. *)
Lemma forward_rejects (net : NeuralNetwork) (X : tensor) (n : nat)
  (sh : list nat) :
  sh <> [] -> shape X = n :: sh ->
  numel sh <> in_features (stack_0 net) ->
  forward net X = Raise RuntimeError.
Proof.
  intros Hsh HX Hsize.
  rewrite (forward_is_walkthrough forward_class), forward_cases, HX.
  destruct sh as [|d rest]; [contradiction|].
  destruct (Nat.eqb_spec (numel (d :: rest)) (in_features (stack_0 net)));
    [contradiction|reflexivity].
Qed.

(** A training step whose forward call raises stops there. *)
Lemma train_step_rejected (loss_fn : tensor -> list nat -> Q) (optimizer : SGD)
  (X : tensor) (y : list nat) (st : State) (e : exn) :
  forward (model st) X = Raise e ->
  train_step forward loss_fn optimizer (X, y) st =
  (Raise e, {| model := model st; rng := rng st; stdout := stdout st;
               trace := trace st ++ [CallForward] |}).
Proof.
  intros H. unfold train_step, call_model, mbind, tick, get_model, lift.
  simpl. now rewrite H.
Qed.

(** The training pass over samples of the wrong size. *)
Lemma train_rejected (dl : DataLoader) (loss_fn : tensor -> list nat -> Q)
  (optimizer : SGD) (sh : list nat) (st : State) :
  sh <> [] ->
  (forall n r, Permutation (fst (randperm n r)) (seq 0 n)) ->
  loader_ok sh dl ->
  numel sh <> in_features (stack_0 (model st)) ->
  exists st',
    train dl forward loss_fn optimizer st = (Raise RuntimeError, st') /\
    model st' = set_training true (model st) /\
    stdout st' = stdout st /\
    trace st' = trace st ++ [CallTrainMode; CallForward].
Proof.
  intros Hsh Hperm (HB & HS & Hfetch) Hsize. unfold train.
  set (s1 := {| model := set_training true (model st); rng := rng st;
                stdout := stdout st; trace := trace st ++ [CallTrainMode] |}).
  assert (Hmode : model_train st = (Ok tt, s1)) by reflexivity.
  erewrite mbind_ok by exact Hmode.
  destruct (batch_indices_first dl HB Hperm s1 HS)
    as (idxs & rest & s2 & Hbs & (Hm2 & Ht2 & Ho2) & Hlen & Hvalid).
  assert (Hne : idxs <> []).
  { intros E. rewrite E in Hlen. simpl in Hlen. lia. }
  destruct (Hfetch idxs s2 Hne Hvalid) as (X & y & HXy & HX).
  destruct (fetch_quiet (dataset dl) idxs s2) as (Hmq & Htq & Hoq).
  destruct (fetch (dataset dl) idxs s2) as [r sq] eqn:Ef. simpl in *. subst r.
  assert (Hrej : forward (model sq) X = Raise RuntimeError).
  { apply (@forward_rejects (model sq) X (length idxs) sh Hsh HX).
    rewrite Hmq, Hm2. exact Hsize. }
  eexists. split.
  - apply mbind_raise. unfold for_in_dataloader.
    erewrite mbind_ok by exact Hbs.
    cbn [for_each]. apply mbind_raise.
    erewrite mbind_ok by exact Ef.
    apply mbind_raise. apply train_step_rejected. exact Hrej.
  - simpl. split; [congruence|]. split; [congruence|].
    rewrite Htq, Ht2. now rewrite <- app_assoc.
Qed.

End Mismatch.

(** X16: pictures of the wrong size stop the run at its first forward
    call.  When the flattened size of the training samples is not the
    input size of the model's first layer, the epoch loop ends in a
    [RuntimeError] raised by the forward call on the first training batch:
    by then it has only switched the model to training mode; no loss was
    computed, no parameter and no gradient buffer has changed, and nothing
    is printed. *)
Theorem wrong_sample_size_stops_run_at_first_forward {FW : Framework}
  (train_dataloader val_dataloader : DataLoader)
  (forward : NeuralNetwork -> tensor -> result tensor)
  (loss_fn : tensor -> list nat -> Q) (optimizer : SGD)
  (sh : list nat) (st : State) :
  forward = Cell23.forward \/ forward = Cell37.forward ->
  sh <> [] ->
  (forall n r, Permutation (fst (randperm n r)) (seq 0 n)) ->
  loader_ok sh train_dataloader ->
  numel sh <> in_features (stack_0 (model st)) ->
  let out := epoch_loop train_dataloader val_dataloader forward loss_fn
               optimizer st in
  fst out = Raise RuntimeError /\
  stdout (snd out) = stdout st /\
  trace (snd out) = trace st ++ [CallTrainMode; CallForward] /\
  forall name, param_of (model (snd out)) name = param_of (model st) name.
Proof.
  intros Hfwd Hsh Hperm Hok Hsize out.
  destruct (@train_rejected FW forward Hfwd train_dataloader loss_fn optimizer
              sh st Hsh Hperm Hok Hsize) as (s1 & Hrun & Hm & Ho & Ht).
  assert (Hout : out = (Raise RuntimeError, s1)).
  { unfold out, epoch_loop.
    change (seq 0 epochs) with (0 :: seq 1 49). cbn [for_each].
    apply mbind_raise. apply mbind_raise. unfold epoch_body.
    apply mbind_raise. exact Hrun. }
  rewrite Hout. simpl.
  split; [reflexivity|]. split; [exact Ho|]. split; [exact Ht|].
  intros name. rewrite Hm. destruct name; reflexivity.
Qed.

(** On a training folder of pictures with two numbers and the demo model,
    which takes three. *)
Lemma wrong_sample_size_stops_run_at_first_forward_witness :
  fst (epoch_loop (Demo.train_dataloader DemoExtra.folder_small)
         (Demo.val_dataloader Demo.data_test)
         Cell23.forward (mean_reduction Demo.zero_one) Cell26.optimizer
         Demo.state0) = Raise RuntimeError /\
  trace (snd (epoch_loop
                (Demo.train_dataloader DemoExtra.folder_small)
                (Demo.val_dataloader Demo.data_test)
                Cell23.forward (mean_reduction Demo.zero_one)
                Cell26.optimizer Demo.state0))
    = [CallTrainMode; CallForward].
Proof.
  destruct (@wrong_sample_size_stops_run_at_first_forward Demo.framework
              (Demo.train_dataloader DemoExtra.folder_small)
              (Demo.val_dataloader Demo.data_test)
              Cell23.forward (mean_reduction Demo.zero_one) Cell26.optimizer
              [2; 1; 1] Demo.state0) as (Hraise & _ & Htrace & _).
  - left; reflexivity.
  - discriminate.
  - exact demo_randperm.
  - apply (@static_loader_ok Demo.framework _
             (Demo.as_samples DemoExtra.folder_small)).
    + exact (demo_static DemoExtra.folder_small).
    + unfold samples_shaped. repeat (constructor; [split; reflexivity|]).
      constructor.
    + discriminate.
    + simpl; lia.
  - simpl. lia.
  - split; [exact Hraise|exact Htrace].
Defined.
